(** * Webhook gateway: verification of the transform-and-forward pipeline

    Shallow embedding of
    - [src/services/microBackendForwarder.ts]
      ([generateMicroBackendSignature], [adaptPayloadForMicroBackend],
      [forwardWithRetry], [forwardToMicroBackend], [forwardToDestination]),
    - [src/services/webhookEventLogger.ts]
      ([WebhookEventLogger.ensureCollection], [log], [logFailure], [logSuccess]),
    - [src/db/mongo.ts] ([getDb]) and
    - [src/controllers/webhookController.ts] ([handleWebhookEntry]).

    Asynchronous functions are modelled in a state-and-exception monad: the
    state carries the wall clock, the call counters of the external services,
    the [webhook_events] collection and the trace of observable effects, in the
    order in which the single unit of work performs them.  Everything outside
    the repository (the HTTP client, the HMAC primitive, MongoDB, the random
    jitter, the process configuration) is a field of [World]. *)

From Stdlib Require Import PrimFloat Uint63 ZArith DecimalString Ascii String.
From stdpp Require Import gmap strings list.

Local Open Scope Z_scope.
Set Warnings "-register-all".

(** ** JavaScript values *)

(** The values that flow through the pipeline: JSON data plus [undefined].
    An object is the list of its own enumerable properties in enumeration
    order, which is the order [JSON.stringify] follows. *)
Inductive jsval : Type :=
| JUndefined
| JNull
| JBool (b : bool)
| JNum (x : float)
| JStr (s : string)
| JArr (items : list jsval)
| JObj (props : list (string * jsval)).

(** ToBoolean. *)
Definition truthy (v : jsval) : bool :=
  match v with
  | JUndefined | JNull => false
  | JBool b => b
  | JNum x => negb (PrimFloat.eqb x 0%float || PrimFloat.is_nan x)
  | JStr s => negb (String.eqb s EmptyString)
  | JArr _ | JObj _ => true
  end.

(** [a || b]. *)
Definition js_or (a b : jsval) : jsval := if truthy a then a else b.

(** Optional string arguments ([correlationId?: string]). *)
Definition of_opt_string (o : option string) : jsval :=
  match o with Some s => JStr s | None => JUndefined end.

Definition truthy_opt_string (o : option string) : bool := truthy (of_opt_string o).

(** ** Exceptions *)

Record HttpResponse := mkResponse { status : Z; data : jsval }.

(** A thrown value, as far as the code inspects it: [err?.message] and
    [err?.response]. *)
Record JsError := mkError { message : string; response : option HttpResponse }.

Inductive outcome (A : Type) : Type :=
| Returned (a : A)
| Thrown (e : JsError).
Arguments Returned {A} a.
Arguments Thrown {A} e.

Definition TypeError (msg : string) : JsError := mkError ("TypeError: " +:+ msg) None.

Fixpoint own_prop (k : string) (props : list (string * jsval)) : jsval :=
  match props with
  | [] => JUndefined
  | (k', v) :: rest => if String.eqb k k' then v else own_prop k rest
  end.

(** [v.name] for a property name that no built-in prototype defines (the code
    reads [type] and [id] only): reading from [null] or [undefined] throws,
    an object yields its own property, every other value yields [undefined]. *)
Definition get_prop (v : jsval) (name : string) : outcome jsval :=
  match v with
  | JUndefined =>
      Thrown (TypeError ("Cannot read properties of undefined (reading '" +:+ name +:+ "')"))
  | JNull =>
      Thrown (TypeError ("Cannot read properties of null (reading '" +:+ name +:+ "')"))
  | JObj props => Returned (own_prop name props)
  | JBool _ | JNum _ | JStr _ | JArr _ => Returned JUndefined
  end.

(** ** Numbers and dates as strings *)

(** [n.toString()] for an integral number. *)
Definition Z_toString (z : Z) : string := NilZero.string_of_int (Z.to_int z).

Fixpoint zeros (n : nat) : string :=
  match n with O => EmptyString | S n' => String "0" (zeros n') end.

Definition pad (width : nat) (z : Z) : string :=
  let s := Z_toString z in zeros (width - String.length s) +:+ s.

(** Proleptic Gregorian date of a day number counted from 1970-01-01. *)
Definition civil_from_days (days : Z) : Z * Z * Z :=
  let z := days + 719468 in
  let era := z / 146097 in
  let doe := z - era * 146097 in
  let yoe := (doe - doe / 1460 + doe / 36524 - doe / 146096) / 365 in
  let doy := doe - (365 * yoe + yoe / 4 - yoe / 100) in
  let mp := (5 * doy + 2) / 153 in
  let d := doy - (153 * mp + 2) / 5 + 1 in
  let m := if mp <? 10 then mp + 3 else mp - 9 in
  let y := yoe + era * 400 + (if m <=? 2 then 1 else 0) in
  (y, m, d).

Definition year_string (y : Z) : string :=
  if (0 <=? y) && (y <=? 9999) then pad 4 y
  else if y <? 0 then "-" +:+ pad 6 (- y)
  else "+" +:+ pad 6 y.

(** [new Date(ms).toISOString()]. *)
Definition toISOString (ms : Z) : string :=
  let '(y, m, d) := civil_from_days (ms / 86400000) in
  let t := ms mod 86400000 in
  year_string y +:+ "-" +:+ pad 2 m +:+ "-" +:+ pad 2 d +:+ "T" +:+
  pad 2 (t / 3600000) +:+ ":" +:+ pad 2 ((t / 60000) mod 60) +:+ ":" +:+
  pad 2 ((t / 1000) mod 60) +:+ "." +:+ pad 3 (t mod 1000) +:+ "Z".

(** ** PayloadAdapter *)

Record AdaptedEnvelope := mkEnvelope {
  source : string;
  event_type : jsval;
  external_id : jsval;
  payload : jsval;
  occurred_at : string;
  correlation_id : jsval;
  internal_event_id : string
}.

(** [adaptPayloadForMicroBackend]; [now] is the clock reading of [new Date()]. *)
Definition adaptPayloadForMicroBackend (now : Z) (normalizedPayload : jsval)
    (internalEventId : string) (correlationId : option string)
  : outcome AdaptedEnvelope :=
  match get_prop normalizedPayload "type" with
  | Thrown e => Thrown e
  | Returned type =>
    match get_prop normalizedPayload "id" with
    | Thrown e => Thrown e
    | Returned id =>
        Returned {|
          source := "webhook-gateway";
          event_type := js_or type (JStr "webhook_received");
          external_id := js_or id (JStr internalEventId);
          payload := normalizedPayload;
          occurred_at := toISOString now;
          correlation_id := of_opt_string correlationId;
          internal_event_id := internalEventId
        |}
    end
  end.

(** ** JSON.stringify *)

Definition dquote : ascii := ascii_of_N 34.

Definition hex_digit (n : N) : ascii :=
  match n with
  | 10%N => "a" | 11%N => "b" | 12%N => "c" | 13%N => "d" | 14%N => "e" | 15%N => "f"
  | _ => ascii_of_N (48 + n)
  end%char.

(** QuoteJSONString on one code unit: the two-character escapes, [\u00XX]
    for the other control characters, every other code unit as it is. *)
Definition quote_char (c : ascii) : string :=
  let n := N_of_ascii c in
  if (n =? 8)%N then "\b"
  else if (n =? 9)%N then "\t"
  else if (n =? 10)%N then "\n"
  else if (n =? 12)%N then "\f"
  else if (n =? 13)%N then "\r"
  else if (n =? 34)%N then String "\" (String dquote EmptyString)
  else if (n =? 92)%N then "\\"
  else if (n <? 32)%N then
    "\u00" +:+ String (hex_digit (n / 16)) (String (hex_digit (n mod 16)) EmptyString)
  else String c EmptyString.

Fixpoint quote_body (s : string) : string :=
  match s with
  | EmptyString => EmptyString
  | String c rest => quote_char c +:+ quote_body rest
  end.

Definition quote (s : string) : string :=
  String dquote (quote_body s +:+ String dquote EmptyString).

Definition join_comma (parts : list string) : string := String.concat "," parts.

Section Stringify.
(** [Number::toString] of ECMAScript, a primitive of the platform. *)
Variable Number_toString : float -> string.

(** [JSON.stringify(v)] without replacer and without indentation:
    [None] stands for the result [undefined]. *)
Fixpoint JSON_stringify (v : jsval) : option string :=
  match v with
  | JUndefined => None
  | JNull => Some "null"%string
  | JBool true => Some "true"%string
  | JBool false => Some "false"%string
  | JNum x => Some (if PrimFloat.is_finite x then Number_toString x else "null"%string)
  | JStr s => Some (quote s)
  | JArr items =>
      Some ("[" +:+
            join_comma (List.map (fun item => default "null"%string (JSON_stringify item)) items)
            +:+ "]")
  | JObj props =>
      Some ("{" +:+
            join_comma
              (List.concat
                 (List.map (fun kv =>
                    match JSON_stringify (snd kv) with
                    | Some s => [quote (fst kv) +:+ ":" +:+ s]
                    | None => []
                    end) props))
            +:+ "}")
  end.

(** A template literal interpolating the result of [JSON.stringify]. *)
Definition interpolate_json (v : jsval) : string :=
  default "undefined"%string (JSON_stringify v).
End Stringify.

(** The object literal built by [adaptPayloadForMicroBackend], as the
    serializer sees it: the properties in the order of the literal. *)
Definition envelope_object (e : AdaptedEnvelope) : jsval :=
  JObj [ ("source", JStr (source e));
         ("event_type", event_type e);
         ("external_id", external_id e);
         ("payload", payload e);
         ("occurred_at", JStr (occurred_at e));
         ("correlation_id", correlation_id e);
         ("internal_event_id", JStr (internal_event_id e)) ]%string.

(** ** The world outside the repository *)

(** [config/env]: the settings the pipeline reads. *)
Record Env := mkEnv {
  MICRO_BACKEND_URL : option string;
  MICRO_BACKEND_HMAC_SECRET : option string;
  MICRO_BACKEND_JWT : option string;
  MICRO_BACKEND_DEVICE_ID : string;
  FORWARD_TO_MICRO_BACKEND_ONLY : bool;
  APP_ENV : string;
  SERVICE_ROLE : string
}.

(** What [http.post(url, payload, { headers })] is called with. *)
Record HttpRequest := mkRequest {
  url : string;
  body_sent : AdaptedEnvelope;
  headers : gmap string string
}.

(** Result of the forwarders: [{ ok, status, body? }]. *)
Record ForwardResult := mkResult {
  ok : bool;
  result_status : Z;
  body : jsval
}.

Record ForwardParams := mkParams {
  params_payload : jsval;
  params_internalEventId : string;
  params_correlationId : option string
}.

Module EventLog.
Inductive Status := received | processing | success | failed.

(** An optional property of an object literal: the key is missing, or
    present with the value [undefined], or present with a value. *)
Inductive field (A : Type) : Type :=
| Absent
| Undefined
| Present (a : A).
Arguments Absent {A}.
Arguments Undefined {A}.
Arguments Present {A} a.

Definition of_option {A} (o : option A) : field A :=
  match o with Some a => Present a | None => Undefined end.

(** [interface WebhookEventLog]; [timestamp] in milliseconds. *)
Record t := mk {
  event_id : string;
  env : string;
  service_role : string;
  source : string;
  error_code : field string;
  error_message : field string;
  retry_count : Z;
  last_error : field string;
  status : Status;
  response_status : field Z;
  timestamp : Z;
  correlation_id : field string;
  raw_payload : field jsval
}.

(** [$set] on one optional property: a key the update does not carry
    leaves the stored value alone. *)
Definition set_field {A} (stored update : field A) : field A :=
  match update with Absent => stored | _ => update end.

(** [{ $set: update }] applied to a stored document. *)
Definition set (stored update : t) : t :=
  {| event_id := event_id update;
     env := env update;
     service_role := service_role update;
     source := source update;
     error_code := set_field (error_code stored) (error_code update);
     error_message := set_field (error_message stored) (error_message update);
     retry_count := retry_count update;
     last_error := set_field (last_error stored) (last_error update);
     status := status update;
     response_status := set_field (response_status stored) (response_status update);
     timestamp := timestamp update;
     correlation_id := set_field (correlation_id stored) (correlation_id update);
     raw_payload := set_field (raw_payload stored) (raw_payload update) |}.
End EventLog.

(** What the handler reads from the request object, as the middlewares
    left it. *)
Record Request := mkReq {
  req_internal_event_id : string;
  req_correlationId : option string;
  req_normalizedPayload : jsval
}.

Inductive LogLevel := Info | Warn | Error.

(** Observable effects of one unit of work. *)
Inductive Event :=
| EvClock (ms : Z)
| EvHmac (secret msg : string)
| EvHttpPost (req : HttpRequest)
| EvJitter (arg : Z)
| EvSleep (ms : Z)
| EvLog (level : LogLevel) (msg : string)
| EvConnect (uri : string)
| EvEnsureIndexes
| EvCreateIndex
| EvUpdateOne (doc : EventLog.t)
| EvForwardN8n (params : ForwardParams)
| EvRespond (code : Z) (json : jsval).

Record World := mkWorld {
  env : Env;
  MONGO_URI : option string;
  (** [crypto.createHmac('sha256', secret).update(message).digest('hex')] *)
  hmac_sha256_hex : string -> string -> string;
  Number_toString : float -> string;
  (** the [n]-th call of [http.post] resolves with a response or rejects,
      after [http_elapsed n] milliseconds *)
  http_post : nat -> HttpRequest -> outcome HttpResponse;
  http_elapsed : nat -> Z;
  (** the [n]-th call of [getJitterDelay] *)
  getJitterDelay : nat -> Z -> Z;
  (** failure, if any, of connection attempt number [n] (from 0), and of
      the [ensureIndexes] run once [n] connections have been attempted *)
  connect_fault : nat -> option string;
  ensureIndexes_fault : nat -> option string;
  (** failure, if any, of the [n]-th operation on a collection *)
  mongo_fault : nat -> option string;
  (** [eventRouter.forwardToN8n], the legacy forwarder *)
  forwardToN8n : ForwardParams -> outcome ForwardResult
}.

(** ** State of one unit of work *)

Record State := mkState {
  now : Z;
  http_calls : nat;
  jitter_calls : nat;
  connect_calls : nat;
  mongo_calls : nat;
  (** [db !== null] in [db/mongo.ts] *)
  db_open : bool;
  webhook_events : gmap string EventLog.t;
  trace : list Event
}.

Definition emit (ev : Event) (s : State) : State :=
  mkState (now s) (http_calls s) (jitter_calls s) (connect_calls s) (mongo_calls s)
          (db_open s) (webhook_events s) (trace s ++ [ev]).

Definition advance (ms : Z) (s : State) : State :=
  mkState (now s + ms) (http_calls s) (jitter_calls s) (connect_calls s) (mongo_calls s)
          (db_open s) (webhook_events s) (trace s).

Definition count_http (s : State) : State :=
  mkState (now s) (S (http_calls s)) (jitter_calls s) (connect_calls s) (mongo_calls s)
          (db_open s) (webhook_events s) (trace s).

Definition count_jitter (s : State) : State :=
  mkState (now s) (http_calls s) (S (jitter_calls s)) (connect_calls s) (mongo_calls s)
          (db_open s) (webhook_events s) (trace s).

Definition count_connect (s : State) : State :=
  mkState (now s) (http_calls s) (jitter_calls s) (S (connect_calls s)) (mongo_calls s)
          (db_open s) (webhook_events s) (trace s).

Definition count_mongo (s : State) : State :=
  mkState (now s) (http_calls s) (jitter_calls s) (connect_calls s) (S (mongo_calls s))
          (db_open s) (webhook_events s) (trace s).

Definition open_db (s : State) : State :=
  mkState (now s) (http_calls s) (jitter_calls s) (connect_calls s) (mongo_calls s)
          true (webhook_events s) (trace s).

Definition store (docs : gmap string EventLog.t) (s : State) : State :=
  mkState (now s) (http_calls s) (jitter_calls s) (connect_calls s) (mongo_calls s)
          (db_open s) docs (trace s).

(** ** The monad of asynchronous functions *)

Definition M (A : Type) : Type := State -> outcome A * State.

Definition ret {A} (a : A) : M A := fun s => (Returned a, s).

Definition throw {A} (e : JsError) : M A := fun s => (Thrown e, s).

Definition bind {A B} (m : M A) (k : A -> M B) : M B :=
  fun s =>
    match m s with
    | (Returned a, s') => k a s'
    | (Thrown e, s') => (Thrown e, s')
    end.

(** [try { m } catch (err) { handler err }] *)
Definition try_catch {A} (m : M A) (handler : JsError -> M A) : M A :=
  fun s =>
    match m s with
    | (Returned a, s') => (Returned a, s')
    | (Thrown e, s') => handler e s'
    end.

Definition effect (f : State -> State) : M unit := fun s => (Returned tt, f s).

Definition read {A} (f : State -> A) : M A := fun s => (Returned (f s), s).

Definition when (b : bool) (m : M unit) : M unit := if b then m else ret tt.

Declare Scope js_scope.
Delimit Scope js_scope with js.
Notation "x <- m ;; k" := (bind m (fun x => k))
  (at level 100, m at next level, right associativity) : js_scope.
Notation "m ;; k" := (bind m (fun _ => k))
  (at level 100, right associativity) : js_scope.
Local Open Scope js_scope.

(** An integral number as a JavaScript number. *)
Definition float_of_Z (z : Z) : float :=
  if z <? 0 then PrimFloat.opp (PrimFloat.of_uint63 (Uint63.of_Z (- z)))
  else PrimFloat.of_uint63 (Uint63.of_Z z).

Definition js_number (z : Z) : jsval := JNum (float_of_Z z).

(** Interpolation of an optional string in a template literal. *)
Definition interpolate (o : option string) : string := default "undefined"%string o.

Definition MAX_MICRO_BACKEND_RETRIES : nat := 3.

(** [status && status >= 400 && status < 500 && status !== 429], where
    [status] is [err?.response?.status]. *)
Definition non_retryable (status : option Z) : bool :=
  match status with
  | None => false
  | Some st => negb (st =? 0) && (400 <=? st) && (st <? 500) && negb (st =? 429)
  end.

Section Pipeline.
Variable w : World.

(** *** Primitives *)

Definition Date_now : M Z :=
  fun s => (Returned (now s), emit (EvClock (now s)) s).

Definition logger (level : LogLevel) (msg : string) : M unit :=
  effect (emit (EvLog level msg)).

Definition createHmac_sha256_hex (secret msg : string) : M string :=
  fun s => (Returned (hmac_sha256_hex w secret msg), emit (EvHmac secret msg) s).

Definition post (req : HttpRequest) : M HttpResponse :=
  fun s =>
    let n := http_calls s in
    (http_post w n req, advance (http_elapsed w n) (count_http (emit (EvHttpPost req) s))).

Definition jitterDelay (arg : Z) : M Z :=
  fun s =>
    (Returned (getJitterDelay w (jitter_calls s) arg), count_jitter (emit (EvJitter arg) s)).

(** [await new Promise((resolve) => setTimeout(resolve, delay))] *)
Definition sleep (delay : Z) : M unit :=
  effect (fun s => advance (Z.max 0 delay) (emit (EvSleep delay) s)).

Definition fault_or_unit (fault : option string) (s : State) : outcome unit * State :=
  match fault with
  | Some msg => (Thrown (mkError msg None), s)
  | None => (Returned tt, s)
  end.

Definition connect (uri : string) : M unit :=
  fun s => fault_or_unit (connect_fault w (connect_calls s))
                         (count_connect (emit (EvConnect uri) s)).

Definition ensureIndexes : M unit :=
  fun s => fault_or_unit (ensureIndexes_fault w (connect_calls s)) (emit EvEnsureIndexes s).

Definition createIndex : M unit :=
  fun s => fault_or_unit (mongo_fault w (mongo_calls s)) (count_mongo (emit EvCreateIndex s)).

(** [collection.updateOne({ event_id }, { $set: event }, { upsert: true })] *)
Definition updateOne_upsert (event : EventLog.t) : M unit :=
  fun s =>
    let s' := count_mongo (emit (EvUpdateOne event) s) in
    match mongo_fault w (mongo_calls s) with
    | Some msg => (Thrown (mkError msg None), s')
    | None =>
        let docs := webhook_events s' in
        let doc := match docs !! EventLog.event_id event with
                   | Some stored => EventLog.set stored event
                   | None => event
                   end in
        (Returned tt, store (<[EventLog.event_id event := doc]> docs) s')
    end.

Definition respond (code : Z) (json : jsval) : M unit :=
  effect (emit (EvRespond code json)).

(** *** OutboundSigner *)

Definition generateMicroBackendSignature (payload : AdaptedEnvelope) (secret : string)
  : M (string * string) :=
  t <- Date_now ;;
  let timestamp := Z_toString (t / 1000) in
  let message :=
    timestamp +:+ "." +:+ interpolate_json (Number_toString w) (envelope_object payload) in
  signature <- createHmac_sha256_hex secret message ;;
  ret (signature, timestamp).

(** The call of [adaptPayloadForMicroBackend]: the property reads come
    before [new Date()], so a throwing read leaves the clock unread. *)
Definition adapt (normalizedPayload : jsval) (internalEventId : string)
    (correlationId : option string) : M AdaptedEnvelope :=
  fun s =>
    match adaptPayloadForMicroBackend (now s) normalizedPayload internalEventId correlationId with
    | Returned e => (Returned e, emit (EvClock (now s)) s)
    | Thrown e => (Thrown e, s)
    end.

(** *** ForwardingClient *)

(** One iteration of the [for] loop of [forwardWithRetry]: [inl] is a
    [return] from the function, [inr err] falls through to the next
    iteration with [lastError = err]. *)
Definition forward_attempt (url : string) (payload : AdaptedEnvelope)
    (headers : gmap string string) (maxRetries attempt : nat)
  : M (ForwardResult + JsError) :=
  try_catch
    (res <- post (mkRequest url payload headers) ;;
     logger Info ("Micro-backend forward successful: status=" +:+ Z_toString (status res)
                  +:+ " attempt=" +:+ Z_toString (Z.of_nat attempt)) ;;
     ret (inl (mkResult true (status res) (data res))))
    (fun err =>
       let status := option_map status (response err) in
       if non_retryable status then
         logger Error ("Micro-backend forward failed (non-retryable): status="
                       +:+ interpolate (option_map Z_toString status)
                       +:+ " attempt=" +:+ Z_toString (Z.of_nat attempt)
                       +:+ " error=" +:+ message err) ;;
         ret (inl (mkResult false (default 0 status)
                            (default JUndefined (option_map data (response err)))))
       else
         when (attempt <? maxRetries)%nat
           (let baseDelay := 2 ^ Z.of_nat attempt * 1000 in
            jitter <- jitterDelay 500 ;;
            let delay := baseDelay + jitter in
            logger Warn ("Micro-backend forward failed, retrying: attempt="
                         +:+ Z_toString (Z.of_nat attempt) +:+ "/"
                         +:+ Z_toString (Z.of_nat maxRetries)
                         +:+ " delay=" +:+ Z_toString delay +:+ "ms error=" +:+ message err) ;;
            sleep delay) ;;
         ret (inr err)).

(** The loop from [attempt] on, with [remaining] iterations to go. *)
Fixpoint forward_loop (url : string) (payload : AdaptedEnvelope)
    (headers : gmap string string) (maxRetries remaining attempt : nat)
    (lastError : option JsError) : M ForwardResult :=
  match remaining with
  | O =>
      logger Error ("Micro-backend forward failed after " +:+ Z_toString (Z.of_nat maxRetries)
                    +:+ " attempts: " +:+ interpolate (option_map message lastError)) ;;
      ret (mkResult false 0
                    (JObj [("error"%string, of_opt_string (option_map message lastError))]))
  | S remaining' =>
      r <- forward_attempt url payload headers maxRetries attempt ;;
      match r with
      | inl result => ret result
      | inr err =>
          forward_loop url payload headers maxRetries remaining' (S attempt) (Some err)
      end
  end.

(** [for (let attempt = 1; attempt <= maxRetries; attempt++)] runs
    [maxRetries] iterations. *)
Definition forwardWithRetry (url : string) (payload : AdaptedEnvelope)
    (headers : gmap string string) (maxRetries : nat) : M ForwardResult :=
  forward_loop url payload headers maxRetries maxRetries 1 None.

(** [forwardToMicroBackend] *)
Definition forwardToMicroBackend (params : ForwardParams) : M ForwardResult :=
  let baseUrl := MICRO_BACKEND_URL (env w) in
  let hmacSecret := MICRO_BACKEND_HMAC_SECRET (env w) in
  let jwtToken := MICRO_BACKEND_JWT (env w) in
  let deviceId := MICRO_BACKEND_DEVICE_ID (env w) in
  if negb (truthy_opt_string baseUrl) then
    logger Warn "MICRO_BACKEND_URL not configured; skipping micro-backend forward" ;;
    ret (mkResult true 204 JUndefined)
  else if negb (truthy_opt_string hmacSecret) then
    logger Error "MICRO_BACKEND_HMAC_SECRET not configured" ;;
    ret (mkResult false 0
           (JObj [("error"%string, JStr "MICRO_BACKEND_HMAC_SECRET not configured")]))
  else
    adaptedPayload <- adapt (params_payload params) (params_internalEventId params)
                            (params_correlationId params) ;;
    signed <- generateMicroBackendSignature adaptedPayload (default EmptyString hmacSecret) ;;
    let '(signature, timestamp) := signed in
    let headers : gmap string string :=
      <["X-Device-ID"%string := deviceId]>
        (<["X-Timestamp"%string := timestamp]>
           (<["X-Signature"%string := signature]>
              (<["Content-Type"%string := "application/json"%string]> ∅))) in
    let headers :=
      if truthy_opt_string jwtToken
      then <["Authorization"%string := "Bearer " +:+ default EmptyString jwtToken]> headers
      else headers in
    let headers :=
      if truthy_opt_string (params_correlationId params)
      then <["X-Correlation-Id"%string := default EmptyString (params_correlationId params)]> headers
      else headers in
    let endpoint := default EmptyString baseUrl +:+ "/api/v1/flow/create" in
    logger Info ("Forwarding to micro-backend: url=" +:+ endpoint
                 +:+ " internalEventId=" +:+ params_internalEventId params
                 +:+ " correlationId=" +:+ interpolate (params_correlationId params)) ;;
    result <- forwardWithRetry endpoint adaptedPayload headers MAX_MICRO_BACKEND_RETRIES ;;
    when (negb (ok result))
      (logger Error ("Failed to forward to micro-backend: "
                     +:+ Z_toString (result_status result) +:+ " "
                     +:+ interpolate_json (Number_toString w) (body result))) ;;
    ret result.

Definition callForwardToN8n (params : ForwardParams) : M ForwardResult :=
  fun s => (forwardToN8n w params, emit (EvForwardN8n params) s).

(** [forwardToDestination] *)
Definition forwardToDestination (params : ForwardParams) : M ForwardResult :=
  if FORWARD_TO_MICRO_BACKEND_ONLY (env w) then forwardToMicroBackend params
  else callForwardToN8n params.

(** *** Database handle ([db/mongo.ts]) *)

Definition getDb : M unit :=
  when (String.eqb (SERVICE_ROLE (env w)) "webhook-edge")
    (logger Warn
       "webhook-edge service accessing database; ensure operations are read-only or audit-only") ;;
  opened <- read db_open ;;
  if opened then ret tt
  else if negb (truthy_opt_string (MONGO_URI w)) then
    throw (mkError "MONGO_URI is not set" None)
  else
    connect (default EmptyString (MONGO_URI w)) ;;
    effect open_db ;;
    ensureIndexes ;;
    logger Info "MongoDB connected and indexes ensured" ;;
    ret tt.

(** *** OutcomeRecorder ([WebhookEventLogger]) *)

Definition ensureCollection : M unit :=
  try_catch
    (createIndex ;; createIndex ;; createIndex ;; createIndex)
    (fun e => logger Warn ("Failed to ensure webhook_events collection: " +:+ message e)).

Definition log (event : EventLog.t) : M unit :=
  try_catch
    (updateOne_upsert event)
    (fun e => logger Warn ("Failed to log webhook event " +:+ EventLog.event_id event
                           +:+ ": " +:+ message e)).

Definition logFailure (eventId errorCode errorMessage : string) (retryCount : Z)
    (correlationId : option string) (responseStatus : option Z) : M unit :=
  t <- Date_now ;;
  let event :=
    {| EventLog.event_id := eventId;
       EventLog.env := APP_ENV (env w);
       EventLog.service_role := SERVICE_ROLE (env w);
       EventLog.source := "webhook";
       EventLog.error_code := EventLog.Present errorCode;
       EventLog.error_message := EventLog.Present errorMessage;
       EventLog.last_error := EventLog.Present errorMessage;
       EventLog.retry_count := retryCount;
       EventLog.status := if 5 <? retryCount then EventLog.failed else EventLog.processing;
       EventLog.response_status := EventLog.of_option responseStatus;
       EventLog.timestamp := t;
       EventLog.correlation_id := EventLog.of_option correlationId;
       EventLog.raw_payload := EventLog.Absent |} in
  log event ;;
  t' <- Date_now ;;
  logger Error
    (interpolate_json (Number_toString w)
       (JObj [ ("msg", JStr "webhook_failure");
               ("event_id", JStr eventId);
               ("env", JStr (APP_ENV (env w)));
               ("error_code", JStr errorCode);
               ("error_message", JStr errorMessage);
               ("retry_count", js_number retryCount);
               ("correlation_id", of_opt_string correlationId);
               ("response_status",
                match responseStatus with Some st => js_number st | None => JUndefined end);
               ("timestamp", JStr (toISOString t')) ]%string)).

Definition logSuccess (eventId : string) (correlationId : option string)
    (responseStatus : Z) : M unit :=
  t <- Date_now ;;
  let event :=
    {| EventLog.event_id := eventId;
       EventLog.env := APP_ENV (env w);
       EventLog.service_role := SERVICE_ROLE (env w);
       EventLog.source := "webhook";
       EventLog.error_code := EventLog.Absent;
       EventLog.error_message := EventLog.Absent;
       EventLog.last_error := EventLog.Absent;
       EventLog.retry_count := 0;
       EventLog.status := EventLog.success;
       EventLog.response_status := EventLog.Present responseStatus;
       EventLog.timestamp := t;
       EventLog.correlation_id := EventLog.of_option correlationId;
       EventLog.raw_payload := EventLog.Absent |} in
  log event.

(** *** Pipeline ([handleWebhookEntry]) *)

Definition handleWebhookEntry (req : Request) : M unit :=
  let internalEventId := req_internal_event_id req in
  let correlationId := req_correlationId req in
  let normalized := js_or (req_normalizedPayload req) (JObj []) in
  try_catch
    (getDb ;;
     ensureCollection ;;
     result <- forwardToDestination (mkParams normalized internalEventId correlationId) ;;
     (if negb (ok result) then
        let destination :=
          if FORWARD_TO_MICRO_BACKEND_ONLY (env w) then "micro-backend"%string
          else "n8n"%string in
        let errorCode :=
          "forward_failed_" +:+
          (if result_status result =? 0 then "unknown"%string
           else Z_toString (result_status result)) in
        let errorMsg :=
          destination +:+ " forward failed: status=" +:+ Z_toString (result_status result) in
        logger Error errorMsg ;;
        logFailure internalEventId errorCode errorMsg 0 correlationId
                   (Some (result_status result))
      else
        logSuccess internalEventId correlationId 200) ;;
     respond 202 (JObj [ ("status", JStr "accepted");
                         ("internal_event_id", JStr internalEventId) ]%string))
    (fun err =>
       logger Error ("Webhook entry handler error: " +:+ message err) ;;
       try_catch
         (getDb ;;
          logFailure internalEventId "handler_error"
                     (if String.eqb (message err) EmptyString then "Unknown error"%string
                      else message err)
                     0 correlationId None)
         (fun logErr => logger Warn ("Failed to log webhook error: " +:+ message logErr)) ;;
       respond 500 (JObj [ ("error", JObj [("message", JStr "Internal server error")]);
                           ("internal_event_id", JStr internalEventId) ]%string)).
End Pipeline.

(** ** Retry policy (second module of [lib/accessGuard.ts]) *)

Module Retry.
(** [interface RetryPolicy] *)
Record Policy := mkPolicy {
  maxRetries : Z;
  baseDelayMs : Z;
  maxDelayMs : Z
}.

Definition WEBHOOK_RETRY_POLICY : Policy :=
  {| maxRetries := 5; baseDelayMs := 1000; maxDelayMs := 32000 |}.

(** [isRetryableError(status)], for a status that is missing or an
    integer; the second argument is not read. *)
Definition isRetryableError (status : option Z) : bool :=
  match status with
  | None => true
  | Some st =>
      if 500 <=? st then true
      else if st =? 429 then true
      else if st =? 408 then true
      else if (400 <=? st) && (st <? 500) then false
      else if (200 <=? st) && (st <? 300) then false
      else false
  end.

(** [canRetry(currentAttempt, policy)] *)
Definition canRetry (currentAttempt : Z) (policy : Policy) : bool :=
  currentAttempt <? maxRetries policy.
End Retry.

(** ** Strings *)

Fixpoint starts_with (prefix s : string) : bool :=
  match prefix, s with
  | EmptyString, _ => true
  | String a prefix', String b s' => Ascii.eqb a b && starts_with prefix' s'
  | String _ _, EmptyString => false
  end.

(** [s.includes(sub)] *)
Fixpoint includes (s sub : string) : bool :=
  starts_with sub s
  || match s with
     | EmptyString => false
     | String _ s' => includes s' sub
     end.

(** [s.split(sep).pop()] for a one-character separator: what follows the
    last separator, the whole string when there is none. *)
Fixpoint last_segment_from (segment : string) (sep : ascii) (s : string) : string :=
  match s with
  | EmptyString => segment
  | String c rest =>
      if Ascii.eqb c sep then last_segment_from EmptyString sep rest
      else last_segment_from (segment +:+ String c EmptyString) sep rest
  end.

Definition last_segment (sep : ascii) (s : string) : string :=
  last_segment_from EmptyString sep s.

Definition newline : string := String (ascii_of_N 10) EmptyString.

(** ** Startup validation ([lib/environmentValidator.ts]) *)

Module Startup.
(** The settings of [config/env] that the validation reads. *)
Record Config := mkConfig {
  APP_ENV : string;
  NODE_ENV : string;
  MONGO_URI : string;
  REDIS_URL : option string;
  SERVICE_ROLE : string;
  ENABLE_WORKERS : bool;
  N8N_INGEST_URL : option string;
  MICRO_BACKEND_URL : option string
}.

Definition node_env_error (cfg : Config) : list string :=
  if String.eqb (APP_ENV cfg) "production" && negb (String.eqb (NODE_ENV cfg) "production")
  then ["Production APP_ENV requires NODE_ENV=production (got NODE_ENV="
        +:+ NODE_ENV cfg +:+ ")"]
  else [].

Definition forward_url_error (cfg : Config) : list string :=
  if String.eqb (APP_ENV cfg) "production"
  then (if negb (truthy_opt_string (N8N_INGEST_URL cfg))
           && negb (truthy_opt_string (MICRO_BACKEND_URL cfg))
        then ["Production requires at least N8N_INGEST_URL or MICRO_BACKEND_URL to be configured"%string]
        else [])
  else [].
End Startup.

Section Remainder.
Variable w : World.

(** *** Startup validation *)

(** [validateEnvironmentIsolation]: the result is the exit code when the
    function ends the process with [process.exit], [None] when it returns. *)
Definition validateEnvironmentIsolation (cfg : Startup.Config) : M (option Z) :=
  let errors := Startup.node_env_error cfg in
  let dbName := last_segment "/" (Startup.MONGO_URI cfg) in
  when (negb (String.eqb dbName EmptyString) && negb (includes dbName (Startup.APP_ENV cfg)))
    (logger Warn
       ("⚠️  MONGO_URI database name should include APP_ENV (" +:+ Startup.APP_ENV cfg
        +:+ "), but got: " +:+ dbName +:+ ". "
        +:+ "For isolation, use: mongodb://.../" +:+ dbName +:+ "_" +:+ Startup.APP_ENV cfg
        +:+ " or similar")) ;;
  when (truthy_opt_string (Startup.REDIS_URL cfg)
        && String.eqb (Startup.APP_ENV cfg) "production")
    (when (negb (includes (default EmptyString (Startup.REDIS_URL cfg)) "db=")
           && negb (includes (default EmptyString (Startup.REDIS_URL cfg)) "prod"))
       (logger Warn
          ("⚠️  REDIS_URL should specify environment-specific db index or namespace for production. "
           +:+ "Consider appending ?db=1 for staging, ?db=2 for production, or use separate Redis instances"))) ;;
  when (String.eqb (Startup.SERVICE_ROLE cfg) "webhook-edge")
    (when (Startup.ENABLE_WORKERS cfg)
       (logger Warn
          ("⚠️  ENABLE_WORKERS=true on SERVICE_ROLE=webhook-edge. Workers should only run on SERVICE_ROLE=worker. "
           +:+ "Webhook-edge is a public edge service and must NOT process jobs directly."))) ;;
  let errors := errors ++ Startup.forward_url_error cfg in
  if (0 <? length errors)%nat then
    logger Error ("Environment validation failed:" +:+ newline +:+ "  "
                  +:+ String.concat (newline +:+ "  ") errors) ;;
    ret (Some 1)
  else
    logger Info ("✓ Environment isolation validated: APP_ENV=" +:+ Startup.APP_ENV cfg
                 +:+ ", SERVICE_ROLE=" +:+ Startup.SERVICE_ROLE cfg
                 +:+ ", NODE_ENV=" +:+ Startup.NODE_ENV cfg) ;;
    ret None.

(** *** Access guards ([lib/accessGuard.ts]) *)

(** [throw new AccessGuardError(msg, env.SERVICE_ROLE)] after
    [logger.error(msg)], in the role [webhook-edge] only. *)
Definition guard_edge (msg : string) : M unit :=
  if String.eqb (SERVICE_ROLE (env w)) "webhook-edge"
  then logger Error msg ;; throw (mkError msg None)
  else ret tt.

Definition guardPublicEdgeAccess (operationName : string) : M unit :=
  guard_edge ("FATAL: webhook-edge service attempted to access restricted operation: "
              +:+ operationName).

Definition guardDatabaseAccess (operationName : string) : M unit :=
  guard_edge ("FATAL: webhook-edge service attempted direct database operation: "
              +:+ operationName +:+ ". Use only for idempotency/audit logging.").

Definition guardRedisAccess (operationName : string) : M unit :=
  guard_edge ("FATAL: webhook-edge service attempted Redis operation: "
              +:+ operationName +:+ ". Queue jobs only in worker role.").

(** *** Reading the outcome store *)

(** [collection.findOne({ event_id: eventId })]; the collection is keyed by
    [event_id]. *)
Definition findOne (eventId : string) : M (option EventLog.t) :=
  fun s =>
    match mongo_fault w (mongo_calls s) with
    | Some msg => (Thrown (mkError msg None), count_mongo s)
    | None => (Returned (webhook_events s !! eventId), count_mongo s)
    end.

(** [WebhookEventLogger.getEvent] *)
Definition getEvent (eventId : string) : M (option EventLog.t) :=
  try_catch
    (findOne eventId)
    (fun e =>
       logger Warn ("Failed to retrieve webhook event " +:+ eventId +:+ ": " +:+ message e) ;;
       ret None).

(** *** The replay route ([POST /internal/webhooks/replay/:event_id]) *)

Definition status_string (st : EventLog.Status) : string :=
  match st with
  | EventLog.received => "received"
  | EventLog.processing => "processing"
  | EventLog.success => "success"
  | EventLog.failed => "failed"
  end.

(** An optional property read back from a stored document: a key that was
    never set reads as [undefined], a key set to [undefined] was stored as
    [null] (the client of [db/mongo.ts] is created with its default
    options). *)
Definition field_json {A} (to_json : A -> jsval) (f : EventLog.field A) : jsval :=
  match f with
  | EventLog.Absent => JUndefined
  | EventLog.Undefined => JNull
  | EventLog.Present a => to_json a
  end.

Definition error_json (msg : string) : jsval :=
  JObj [("error", JObj [("message", JStr msg)])]%string.

Definition replay_details (event : EventLog.t) : jsval :=
  JObj [ ("ok", JBool true);
         ("event",
          JObj [ ("event_id", JStr (EventLog.event_id event));
                 ("env", JStr (EventLog.env event));
                 ("source", JStr (EventLog.source event));
                 ("status", JStr (status_string (EventLog.status event)));
                 ("retry_count", js_number (EventLog.retry_count event));
                 ("last_error", field_json JStr (EventLog.last_error event));
                 ("original_correlation_id",
                  field_json JStr (EventLog.correlation_id event));
                 ("timestamp", JStr (toISOString (EventLog.timestamp event)));
                 ("message",
                  JStr "Event retrieved for replay. Caller must re-submit to /webhook/entry with same or new X-Idempotency-Key.") ]) ]%string.

(** [String.prototype.trim], a primitive of the platform. *)
Variable trim : string -> string.

(** The handler of the replay route, after [internalAuth]:
    [event_id_param] is [req.params.event_id]. *)
Definition replayRoute (event_id_param : option string) (correlationId : option string)
  : M unit :=
  let eventId := trim (default EmptyString event_id_param) in
  if String.eqb eventId EmptyString then
    respond 400 (error_json "Missing event_id parameter")
  else
    try_catch
      (getDb w ;;
       found <- getEvent eventId ;;
       match found with
       | None => respond 404 (error_json "Event not found")
       | Some event =>
           if negb (String.eqb (EventLog.env event) (APP_ENV (env w))) then
             logger Warn ("Replay denied: event env=" +:+ EventLog.env event
                          +:+ " does not match current APP_ENV=" +:+ APP_ENV (env w)) ;;
             respond 403
               (error_json ("Event belongs to different environment (" +:+ EventLog.env event
                            +:+ "); cannot replay across environments"))
           else
             t <- Date_now ;;
             logger Info
               (interpolate_json (Number_toString w)
                  (JObj [ ("msg", JStr "webhook_replay_requested");
                          ("event_id", JStr eventId);
                          ("env", JStr (APP_ENV (env w)));
                          ("correlation_id", of_opt_string correlationId);
                          ("original_correlation_id",
                           field_json JStr (EventLog.correlation_id event));
                          ("timestamp", JStr (toISOString t)) ]%string)) ;;
             respond 200 (replay_details event)
       end)
      (fun err =>
         logger Error ("Internal replay endpoint error: " +:+ message err) ;;
         respond 500 (error_json "Internal server error")).
End Remainder.

(** ** The handler without outcome store (an earlier
    [controllers/webhookController.ts]) *)

Module Plain.
Definition handleWebhookEntry (w : World) (req : Request) : M unit :=
  let internalEventId := req_internal_event_id req in
  let correlationId := req_correlationId req in
  let normalized := js_or (req_normalizedPayload req) (JObj []) in
  try_catch
    (result <- forwardToDestination w (mkParams normalized internalEventId correlationId) ;;
     when (negb (ok result))
       (let destination :=
          if FORWARD_TO_MICRO_BACKEND_ONLY (env w) then "micro-backend"%string
          else "n8n"%string in
        logger Error (destination +:+ " forward failed: status="
                      +:+ Z_toString (result_status result))) ;;
     respond 200 (JObj [ ("status", JStr "accepted");
                         ("internal_event_id", JStr internalEventId) ]%string))
    (fun err =>
       logger Error ("Webhook entry handler error: " +:+ message err) ;;
       respond 500 (JObj [ ("error", JObj [("message", JStr "Internal server error")]);
                           ("internal_event_id", JStr internalEventId) ]%string)).
End Plain.

(** ** Sample runs *)

Module Samples.
Definition sample_env : Env :=
  {| MICRO_BACKEND_URL := Some "http://localhost:3000"%string;
     MICRO_BACKEND_HMAC_SECRET := Some "test_micro_backend_secret_at_least_32_chars_long_!!"%string;
     MICRO_BACKEND_JWT := Some "jwt_token_min_32_chars_long_!!!!!!"%string;
     MICRO_BACKEND_DEVICE_ID := "webhook-gateway";
     FORWARD_TO_MICRO_BACKEND_ONLY := true;
     APP_ENV := "staging";
     SERVICE_ROLE := "api" |}.

Definition reject (code : Z) (msg : string) : outcome HttpResponse :=
  Thrown (mkError msg (Some (mkResponse code (JObj [("error"%string, JStr msg)])))).

Definition created : outcome HttpResponse :=
  Returned (mkResponse 201 (JObj [("flow_id"%string, JStr "flow_123")])).

(** A world whose HTTP peer answers the successive calls from a script,
    and [201] once the script is used up. *)
Definition scripted (script : list (outcome HttpResponse)) (uri : option string) : World :=
  {| env := sample_env;
     MONGO_URI := uri;
     hmac_sha256_hex := fun secret msg => "hmac(" +:+ secret +:+ "," +:+ msg +:+ ")";
     Number_toString := fun _ => "0"%string;
     http_post := fun n _ => nth n script created;
     http_elapsed := fun _ => 20;
     getJitterDelay := fun _ _ => 300;
     connect_fault := fun _ => None;
     ensureIndexes_fault := fun _ => None;
     mongo_fault := fun _ => None;
     forwardToN8n := fun _ => Returned (mkResult true 200 JUndefined) |}.

(** The peer of the retry scenario: 500 twice, then 201. *)
Definition flaky : World :=
  scripted [reject 500 "Internal Server Error"; reject 500 "Internal Server Error"]
           (Some "mongodb://localhost:27017"%string).

(** A peer that rejects the first call with 400. *)
Definition rejecting : World :=
  scripted [reject 400 "Bad Request"] (Some "mongodb://localhost:27017"%string).

(** The same world with a store whose every operation fails. *)
Definition unreachable_store (w : World) : World :=
  {| env := env w;
     MONGO_URI := MONGO_URI w;
     hmac_sha256_hex := hmac_sha256_hex w;
     Number_toString := Number_toString w;
     http_post := http_post w;
     http_elapsed := http_elapsed w;
     getJitterDelay := getJitterDelay w;
     connect_fault := connect_fault w;
     ensureIndexes_fault := ensureIndexes_fault w;
     mongo_fault := fun _ => Some "connection closed"%string;
     forwardToN8n := forwardToN8n w |}.

(** The same world under another configuration. *)
Definition with_env (e : Env) (w : World) : World :=
  {| env := e;
     MONGO_URI := MONGO_URI w;
     hmac_sha256_hex := hmac_sha256_hex w;
     Number_toString := Number_toString w;
     http_post := http_post w;
     http_elapsed := http_elapsed w;
     getJitterDelay := getJitterDelay w;
     connect_fault := connect_fault w;
     ensureIndexes_fault := ensureIndexes_fault w;
     mongo_fault := mongo_fault w;
     forwardToN8n := forwardToN8n w |}.

(** The same world where [ensureIndexes] fails. *)
Definition failing_indexes (msg : string) (w : World) : World :=
  {| env := env w;
     MONGO_URI := MONGO_URI w;
     hmac_sha256_hex := hmac_sha256_hex w;
     Number_toString := Number_toString w;
     http_post := http_post w;
     http_elapsed := http_elapsed w;
     getJitterDelay := getJitterDelay w;
     connect_fault := connect_fault w;
     ensureIndexes_fault := fun _ => Some msg;
     mongo_fault := mongo_fault w;
     forwardToN8n := forwardToN8n w |}.

(** The state of a fresh process at clock reading [t]. *)
Definition start (t : Z) : State := mkState t 0 0 0 0 false ∅ [].

Definition testPayload : jsval :=
  JObj [ ("type", JStr "user.created"); ("id", JStr "evt_123");
         ("data", JObj [("user_id", JStr "456")]) ]%string.

Definition request : Request := mkReq "evt_789" (Some "corr_123"%string) testPayload.
End Samples.

(** * Vocabulary of the statements *)

(** The [name] property of an inbound body, [undefined] when the body is
    not an object or has no such property. *)
Definition body_field (inboundBody : jsval) (name : string) : jsval :=
  match inboundBody with
  | JObj props => own_prop name props
  | _ => JUndefined
  end.

(** The collection [new] comes from [old] by the upserts among [evs]: a
    document of [new] is a document of [old], or the document of an
    [updateOne], inserted or merged by [$set] into a stored one. *)
Definition stored_from (old : gmap string EventLog.t) (evs : list Event)
    (new : gmap string EventLog.t) : Prop :=
  forall id doc,
    new !! id = Some doc ->
    old !! id = Some doc
    \/ exists update,
         EvUpdateOne update ∈ evs
         /\ (doc = update \/ exists stored, doc = EventLog.set stored update).

(** Every event the computation appends to the trace satisfies [P],
    whether it returns or throws, and the collection changes by the
    upserts among these events only. *)
Definition emits {A} (P : Event -> Prop) (m : M A) : Prop :=
  forall s, exists evs,
    trace (m s).2 = trace s ++ evs
    /\ Forall P evs
    /\ stored_from (webhook_events s) evs (webhook_events (m s).2).

(** The computation returns normally from every state. *)
Definition total {A} (m : M A) : Prop :=
  forall s, exists a, (m s).1 = Returned a.

(** The computation leaves the component [f] of the state alone. *)
Definition keeps {A B} (f : State -> B) (m : M A) : Prop :=
  forall s, f (m s).2 = f s.

(** The kinds of effects. *)
Inductive Kind :=
| KClock | KHmac | KHttpPost | KJitter | KSleep | KLog | KConnect
| KEnsureIndexes | KCreateIndex | KUpdateOne | KForwardN8n | KRespond.

Definition kind (ev : Event) : Kind :=
  match ev with
  | EvClock _ => KClock
  | EvHmac _ _ => KHmac
  | EvHttpPost _ => KHttpPost
  | EvJitter _ => KJitter
  | EvSleep _ => KSleep
  | EvLog _ _ => KLog
  | EvConnect _ => KConnect
  | EvEnsureIndexes => KEnsureIndexes
  | EvCreateIndex => KCreateIndex
  | EvUpdateOne _ => KUpdateOne
  | EvForwardN8n _ => KForwardN8n
  | EvRespond _ _ => KRespond
  end.

Definition Kind_eqb (a b : Kind) : bool :=
  match a, b with
  | KClock, KClock | KHmac, KHmac | KHttpPost, KHttpPost | KJitter, KJitter
  | KSleep, KSleep | KLog, KLog | KConnect, KConnect
  | KEnsureIndexes, KEnsureIndexes | KCreateIndex, KCreateIndex
  | KUpdateOne, KUpdateOne | KForwardN8n, KForwardN8n | KRespond, KRespond => true
  | _, _ => false
  end.

Definition kind_among (ks : list Kind) (k : Kind) : bool := existsb (Kind_eqb k) ks.

(** The event is of one of the kinds [ks]. *)
Definition of_kinds (ks : list Kind) (ev : Event) : Prop := kind_among ks (kind ev) = true.

(** [P] holds of every event of the kinds [ks]. *)
Definition closed_under (ks : list Kind) (P : Event -> Prop) : Prop :=
  forall ev, of_kinds ks ev -> P ev.

(** The requests handed to [http.post], in order. *)
Definition posts (tr : list Event) : list HttpRequest :=
  omap (fun ev => match ev with EvHttpPost req => Some req | _ => None end) tr.

(** The responses sent to the caller, in order. *)
Definition responses (tr : list Event) : list (Z * jsval) :=
  omap (fun ev => match ev with EvRespond code json => Some (code, json) | _ => None end) tr.

(** The documents handed to [updateOne], in order. *)
Definition updates (tr : list Event) : list EventLog.t :=
  omap (fun ev => match ev with EvUpdateOne doc => Some doc | _ => None end) tr.

(** The HMAC computations, in order. *)
Definition hmacs (tr : list Event) : list (string * string) :=
  omap (fun ev => match ev with EvHmac secret msg => Some (secret, msg) | _ => None end) tr.

(** The rejection is one the client retries: [err?.response?.status] is
    missing, or outside [400, 500), or 429. *)
Definition retryable (err : JsError) : Prop :=
  non_retryable (option_map status (response err)) = false.

(** What one attempt returns, from the answer of the [n]-th call. *)
Definition attempt_result (answer : outcome HttpResponse) : ForwardResult + JsError :=
  match answer with
  | Returned res => inl (mkResult true (status res) (data res))
  | Thrown err =>
      if non_retryable (option_map status (response err))
      then inl (mkResult false (default 0 (option_map status (response err)))
                         (default JUndefined (option_map data (response err))))
      else inr err
  end.

(** A document written by [logFailure] or [logSuccess] with retry count 0:
    a failure record in state [processing], or a success record. *)
Definition first_pass_record (eventId : string) (doc : EventLog.t) : Prop :=
  EventLog.event_id doc = eventId
  /\ EventLog.retry_count doc = 0
  /\ ((EventLog.status doc = EventLog.processing
       /\ exists code, EventLog.error_code doc = EventLog.Present code)
      \/ (EventLog.status doc = EventLog.success
          /\ EventLog.error_code doc = EventLog.Absent)).

(** The events of the retry loop for the request [req]: the call itself,
    the jitter, the wait and log lines. *)
Definition send_event (req : HttpRequest) (ev : Event) : Prop :=
  ev = EvHttpPost req \/ of_kinds [KJitter; KSleep; KLog] ev.

(** The header object [forwardToMicroBackend] builds. *)
Definition outbound_headers (w : World) (correlationId : option string)
    (signature timestamp : string) : gmap string string :=
  let headers : gmap string string :=
    <["X-Device-ID"%string := MICRO_BACKEND_DEVICE_ID (env w)]>
      (<["X-Timestamp"%string := timestamp]>
         (<["X-Signature"%string := signature]>
            (<["Content-Type"%string := "application/json"%string]> ∅))) in
  let headers :=
    if truthy_opt_string (MICRO_BACKEND_JWT (env w))
    then <["Authorization"%string :=
             "Bearer " +:+ default EmptyString (MICRO_BACKEND_JWT (env w))]> headers
    else headers in
  if truthy_opt_string correlationId
  then <["X-Correlation-Id"%string := default EmptyString correlationId]> headers
  else headers.

(** The canonical outbound message. *)
Definition canonical_message (w : World) (timestamp : string) (e : AdaptedEnvelope) : string :=
  timestamp +:+ "." +:+ interpolate_json (Number_toString w) (envelope_object e).

(** The request of a run that starts at clock reading [t]. *)
Definition outbound_request (w : World) (params : ForwardParams) (t : Z)
    (adapted : AdaptedEnvelope) : HttpRequest :=
  let timestamp := Z_toString (t / 1000) in
  let signature :=
    hmac_sha256_hex w (default EmptyString (MICRO_BACKEND_HMAC_SECRET (env w)))
                    (canonical_message w timestamp adapted) in
  mkRequest (default EmptyString (MICRO_BACKEND_URL (env w)) +:+ "/api/v1/flow/create")
            adapted
            (outbound_headers w (params_correlationId params) signature timestamp).


(** The body of the 202 response. *)
Definition accepted_json (req : Request) : jsval :=
  JObj [ ("status", JStr "accepted");
         ("internal_event_id", JStr (req_internal_event_id req)) ]%string.

(** The body of the 500 response. *)
Definition internal_error_json (req : Request) : jsval :=
  JObj [ ("error", JObj [("message", JStr "Internal server error")]);
         ("internal_event_id", JStr (req_internal_event_id req)) ]%string.

(** What the handler passes to [forwardToDestination]. *)
Definition forward_params (req : Request) : ForwardParams :=
  mkParams (js_or (req_normalizedPayload req) (JObj []))
           (req_internal_event_id req) (req_correlationId req).

(** The [if (!result.ok) ... else ...] of the handler. *)
Definition record_outcome (w : World) (req : Request) (result : ForwardResult) : M unit :=
  if negb (ok result) then
    let destination :=
      if FORWARD_TO_MICRO_BACKEND_ONLY (env w) then "micro-backend"%string else "n8n"%string in
    let errorCode :=
      "forward_failed_" +:+
      (if result_status result =? 0 then "unknown"%string
       else Z_toString (result_status result)) in
    let errorMsg :=
      destination +:+ " forward failed: status=" +:+ Z_toString (result_status result) in
    bind (logger Error errorMsg)
         (fun _ => logFailure w (req_internal_event_id req) errorCode errorMsg 0
                              (req_correlationId req) (Some (result_status result)))
  else logSuccess w (req_internal_event_id req) (req_correlationId req) 200.

(** The [try] block of the handler. *)
Definition handler_try (w : World) (req : Request) : M unit :=
  bind (getDb w) (fun _ =>
  bind (ensureCollection w) (fun _ =>
  bind (forwardToDestination w (forward_params req)) (fun result =>
  bind (record_outcome w req result) (fun _ =>
  respond 202 (accepted_json req))))).

(** The [catch] block of the handler. *)
Definition handler_catch (w : World) (req : Request) (err : JsError) : M unit :=
  bind (logger Error ("Webhook entry handler error: " +:+ message err)) (fun _ =>
  bind (try_catch
          (bind (getDb w) (fun _ =>
             logFailure w (req_internal_event_id req) "handler_error"
                        (if String.eqb (message err) EmptyString then "Unknown error"%string
                         else message err)
                        0 (req_correlationId req) None))
          (fun logErr => logger Warn ("Failed to log webhook error: " +:+ message logErr)))
       (fun _ => respond 500 (internal_error_json req))).

(** Every effect but the response to the caller. *)
Definition before_response : list Kind :=
  [KClock; KHmac; KHttpPost; KJitter; KSleep; KLog; KConnect; KEnsureIndexes;
   KCreateIndex; KUpdateOne; KForwardN8n].

(** The computation appends events that are no responses and then, if it
    returns, the response [code], [json] as its last effect; if it throws
    it has not responded. *)
Definition replies {A} (code : Z) (json : jsval) (m : M A) : Prop :=
  forall s, exists evs,
    Forall (of_kinds before_response) evs
    /\ trace (m s).2
       = trace s ++ evs ++ match (m s).1 with
                           | Returned _ => [EvRespond code json]
                           | Thrown _ => []
                           end.

(** The [try] block returns exactly when [getDb] returns and the forwarder
    does not throw; the forwarder to the micro-backend never does. *)
Definition try_returns (w : World) (req : Request) (s : State) : bool :=
  match (getDb w s).1 with
  | Thrown _ => false
  | Returned _ =>
      if FORWARD_TO_MICRO_BACKEND_ONLY (env w) then true
      else match forwardToN8n w (forward_params req) with
           | Returned _ => true
           | Thrown _ => false
           end
  end.

(** What a forwarding run can observe of the HTTP client: the number of
    calls made and the requests sent. *)
Definition http_view (s : State) : nat * list HttpRequest :=
  (http_calls s, posts (trace s)).

(** The waits between attempts, in order. *)
Definition sleeps (tr : list Event) : list Z :=
  omap (fun ev => match ev with EvSleep ms => Some ms | _ => None end) tr.

(** The wait after attempt number [attempt], with the jitter drawn by call
    number [draw] of [getJitterDelay]. *)
Definition backoff_delay (w : World) (attempt draw : nat) : Z :=
  2 ^ Z.of_nat attempt * 1000 + getJitterDelay w draw 500.

(** The connections opened, in order. *)
Definition connects (tr : list Event) : list string :=
  omap (fun ev => match ev with EvConnect uri => Some uri | _ => None end) tr.

(** * Properties *)

(** ** Dates *)

Lemma toISOString_epoch : toISOString 0 = "1970-01-01T00:00:00.000Z"%string.
Proof. vm_compute. reflexivity. Qed.

Lemma toISOString_sample :
  toISOString 1767182400123 = "2025-12-31T12:00:00.123Z"%string.
Proof. vm_compute. reflexivity. Qed.

Lemma toISOString_leap_day :
  toISOString 1709251199999 = "2024-02-29T23:59:59.999Z"%string.
Proof. vm_compute. reflexivity. Qed.

(** ** PayloadAdapter *)

Lemma get_prop_body_field (v : jsval) (name : string) :
  v <> JNull -> v <> JUndefined -> get_prop v name = Returned (body_field v name).
Proof.
  intros Hnull Hundef. destruct v; simpl; try reflexivity; congruence.
Qed.

Lemma adapt_total_on_payload (t : Z) (v : jsval) (internalEventId : string)
    (correlationId : option string) :
  v <> JNull -> v <> JUndefined ->
  exists e, adaptPayloadForMicroBackend t v internalEventId correlationId = Returned e.
Proof.
  intros Hnull Hundef. unfold adaptPayloadForMicroBackend.
  rewrite !get_prop_body_field by assumption. eexists. reflexivity.
Qed.

(** C7, as the code has it: for every inbound body other than [null], every
    internal event id and optional correlation id, the adapter returns an
    envelope whose [payload] is the inbound body itself, whose [event_type]
    is the body's [type] when that value is truthy and ['webhook_received']
    otherwise, and whose [external_id] is the body's [id] when that value is
    truthy and the internal event id otherwise. *)
Theorem adapt_total_on_non_null :
  forall (t : Z) (inboundBody : jsval) (internalEventId : string)
         (correlationId : option string),
    inboundBody <> JNull ->
    inboundBody <> JUndefined ->
    exists e,
      adaptPayloadForMicroBackend t inboundBody internalEventId correlationId = Returned e
      /\ payload e = inboundBody
      /\ event_type e =
           (if truthy (body_field inboundBody "type") then body_field inboundBody "type"
            else JStr "webhook_received")
      /\ external_id e =
           (if truthy (body_field inboundBody "id") then body_field inboundBody "id"
            else JStr internalEventId)
      /\ source e = "webhook-gateway"%string
      /\ correlation_id e = of_opt_string correlationId
      /\ internal_event_id e = internalEventId.
Proof.
  intros t inboundBody internalEventId correlationId Hnull Hundef.
  unfold adaptPayloadForMicroBackend.
  rewrite !get_prop_body_field by assumption.
  eexists. split; [reflexivity |]. simpl. unfold js_or. repeat split; reflexivity.
Qed.

Lemma adapt_total_on_non_null_witness :
  exists e,
    adaptPayloadForMicroBackend 1767182400123 Samples.testPayload "evt_789" None = Returned e
    /\ payload e = Samples.testPayload
    /\ event_type e = JStr "user.created"
    /\ external_id e = JStr "evt_123".
Proof.
  destruct (adapt_total_on_non_null 1767182400123 Samples.testPayload "evt_789" None)
    as (e & Hrun & Hpayload & Htype & Hid & _).
  - discriminate.
  - discriminate.
  - exists e. repeat split; assumption.
Defined.

(** C7 as stated fails twice: a body whose [type] is present but falsy (here
    the empty string) gets the default [event_type], and the body [null]
    makes the adapter throw. *)
Lemma adapt_falsy_type_or_null_body :
  (exists e,
      adaptPayloadForMicroBackend 0 (JObj [("type"%string, JStr EmptyString)]) "evt_1" None
      = Returned e
      /\ body_field (JObj [("type"%string, JStr EmptyString)]) "type" = JStr EmptyString
      /\ event_type e = JStr "webhook_received"
      /\ event_type e <> JStr EmptyString)
  /\ (forall e, adaptPayloadForMicroBackend 0 JNull "evt_1" None <> Returned e).
Proof.
  split.
  - eexists. split; [reflexivity |]. simpl. repeat split; discriminate.
  - intros e. discriminate.
Qed.

(** C8, as the code has it: two invocations of the adapter with the same
    inbound body, internal event id and correlation id return envelopes that
    agree on every field except [occurred_at], which is the clock reading of
    each invocation; equal clock readings give equal envelopes. *)
Theorem adapt_deterministic_up_to_clock :
  forall (t1 t2 : Z) (inboundBody : jsval) (internalEventId : string)
         (correlationId : option string) (e1 e2 : AdaptedEnvelope),
    adaptPayloadForMicroBackend t1 inboundBody internalEventId correlationId = Returned e1 ->
    adaptPayloadForMicroBackend t2 inboundBody internalEventId correlationId = Returned e2 ->
    source e1 = source e2
    /\ event_type e1 = event_type e2
    /\ external_id e1 = external_id e2
    /\ payload e1 = payload e2
    /\ correlation_id e1 = correlation_id e2
    /\ internal_event_id e1 = internal_event_id e2
    /\ occurred_at e1 = toISOString t1
    /\ occurred_at e2 = toISOString t2
    /\ (t1 = t2 -> e1 = e2).
Proof.
  intros t1 t2 inboundBody internalEventId correlationId e1 e2 H1 H2.
  unfold adaptPayloadForMicroBackend in H1, H2.
  destruct (get_prop inboundBody "type") as [type | err]; [| discriminate].
  destruct (get_prop inboundBody "id") as [id | err]; [| discriminate].
  injection H1 as <-. injection H2 as <-. simpl.
  repeat split; try reflexivity. intros ->. reflexivity.
Qed.

Lemma adapt_deterministic_up_to_clock_witness :
  exists e1 e2,
    adaptPayloadForMicroBackend 1767182400123 Samples.testPayload "evt_789" None = Returned e1
    /\ adaptPayloadForMicroBackend 1767182406783 Samples.testPayload "evt_789" None = Returned e2
    /\ event_type e1 = event_type e2
    /\ payload e1 = payload e2
    /\ occurred_at e1 = toISOString 1767182400123
    /\ occurred_at e2 = toISOString 1767182406783.
Proof.
  eexists. eexists.
  split; [reflexivity |]. split; [reflexivity |].
  destruct (adapt_deterministic_up_to_clock 1767182400123 1767182406783
              Samples.testPayload "evt_789" None _ _ eq_refl eq_refl)
    as (_ & Htype & _ & Hpayload & _ & _ & Hat1 & Hat2 & _).
  repeat split; assumption.
Defined.

(** C8 as stated fails: the same explicit inputs adapted at two clock
    readings give envelopes that differ in [occurred_at]. *)
Lemma adapt_depends_on_clock :
  exists e1 e2,
    adaptPayloadForMicroBackend 1767182400123 Samples.testPayload "evt_789" None = Returned e1
    /\ adaptPayloadForMicroBackend 1767182406783 Samples.testPayload "evt_789" None = Returned e2
    /\ occurred_at e1 <> occurred_at e2
    /\ e1 <> e2.
Proof.
  eexists. eexists.
  split; [reflexivity |]. split; [reflexivity |].
  assert (Hat : toISOString 1767182400123 <> toISOString 1767182406783)
    by (vm_compute; discriminate).
  split; [exact Hat |].
  intros Heq. apply Hat. exact (f_equal occurred_at Heq).
Qed.

(** ** A small program logic for [M] *)

Lemma stored_from_refl (docs : gmap string EventLog.t) (evs : list Event) :
  stored_from docs evs docs.
Proof. intros id doc H. left. exact H. Qed.

Lemma stored_from_trans (old mid new : gmap string EventLog.t) (evs evs' : list Event) :
  stored_from old evs mid -> stored_from mid evs' new -> stored_from old (evs ++ evs') new.
Proof.
  intros H1 H2 id doc Hdoc.
  destruct (H2 id doc Hdoc) as [Hmid | (update & Hin & Hshape)].
  - destruct (H1 id doc Hmid) as [Hold | (update & Hin & Hshape)]; [left; assumption |].
    right. exists update. split; [| assumption]. apply elem_of_app. left. assumption.
  - right. exists update. split; [| assumption]. apply elem_of_app. right. assumption.
Qed.

(** A computation that appends [evs] and leaves the collection alone. *)
Lemma emits_silent {A} (P : Event -> Prop) (m : M A) :
  (forall s, exists evs,
      trace (m s).2 = trace s ++ evs /\ Forall P evs
      /\ webhook_events (m s).2 = webhook_events s) ->
  emits P m.
Proof.
  intros H s. destruct (H s) as (evs & Htr & Hall & Hdocs).
  exists evs. rewrite Hdocs. auto using stored_from_refl.
Qed.

Section Logic.
Context {A B : Type}.
Implicit Types (P : Event -> Prop) (m : M A) (k : A -> M B).

Lemma emits_ret P (a : A) : emits P (ret a).
Proof. apply emits_silent. intros s. exists []. simpl. rewrite app_nil_r. auto. Qed.

Lemma emits_throw P (e : JsError) : emits P (@throw A e).
Proof. apply emits_silent. intros s. exists []. simpl. rewrite app_nil_r. auto. Qed.

Lemma emits_read P (f : State -> A) : emits P (read f).
Proof. apply emits_silent. intros s. exists []. simpl. rewrite app_nil_r. auto. Qed.

Lemma emits_bind P m k :
  emits P m -> (forall a, emits P (k a)) -> emits P (bind m k).
Proof.
  intros Hm Hk s. unfold bind.
  destruct (Hm s) as (evs & Htr & Hall & Hdocs).
  destruct (m s) as [[a | e] s1]; simpl in *.
  - destruct (Hk a s1) as (evs' & Htr' & Hall' & Hdocs').
    exists (evs ++ evs'). rewrite Htr', Htr, app_assoc.
    split; [reflexivity |]. split; [apply Forall_app; auto |].
    eapply stored_from_trans; eassumption.
  - exists evs. auto.
Qed.

Lemma emits_try_catch P m (handler : JsError -> M A) :
  emits P m -> (forall e, emits P (handler e)) -> emits P (try_catch m handler).
Proof.
  intros Hm Hh s. unfold try_catch.
  destruct (Hm s) as (evs & Htr & Hall & Hdocs).
  destruct (m s) as [[a | e] s1]; simpl in *.
  - exists evs. auto.
  - destruct (Hh e s1) as (evs' & Htr' & Hall' & Hdocs').
    exists (evs ++ evs'). rewrite Htr', Htr, app_assoc.
    split; [reflexivity |]. split; [apply Forall_app; auto |].
    eapply stored_from_trans; eassumption.
Qed.

Lemma emits_weaken P (Q : Event -> Prop) m :
  (forall ev, P ev -> Q ev) -> emits P m -> emits Q m.
Proof.
  intros Hpq Hm s. destruct (Hm s) as (evs & Htr & Hall & Hdocs).
  exists evs. split; [assumption |]. split; [| assumption].
  eapply Forall_impl; eauto.
Qed.

Lemma total_ret (a : A) : total (ret a).
Proof. intros s. exists a. reflexivity. Qed.

Lemma total_read (f : State -> A) : total (read f).
Proof. intros s. eexists. reflexivity. Qed.

Lemma total_bind m k : total m -> (forall a, total (k a)) -> total (bind m k).
Proof.
  intros Hm Hk s. unfold bind. destruct (Hm s) as (a & Ha).
  destruct (m s) as [[a' | e] s1]; simpl in Ha; [| discriminate].
  apply Hk.
Qed.

Lemma total_try_catch m (handler : JsError -> M A) :
  (forall e, total (handler e)) -> total (try_catch m handler).
Proof.
  intros Hh s. unfold try_catch.
  destruct (m s) as [[a | e] s1]; simpl; [eauto | apply Hh].
Qed.

Lemma keeps_ret {C} (f : State -> C) (a : A) : keeps f (ret a).
Proof. intros s. reflexivity. Qed.

Lemma keeps_throw {C} (f : State -> C) (e : JsError) : keeps f (@throw A e).
Proof. intros s. reflexivity. Qed.

Lemma keeps_read {C} (f : State -> C) (g : State -> A) : keeps f (read g).
Proof. intros s. reflexivity. Qed.

Lemma keeps_bind {C} (f : State -> C) m k :
  keeps f m -> (forall a, keeps f (k a)) -> keeps f (bind m k).
Proof.
  intros Hm Hk s. unfold bind. specialize (Hm s).
  destruct (m s) as [[a | e] s1]; simpl in *; [| assumption].
  rewrite Hk. assumption.
Qed.

Lemma keeps_try_catch {C} (f : State -> C) m (handler : JsError -> M A) :
  keeps f m -> (forall e, keeps f (handler e)) -> keeps f (try_catch m handler).
Proof.
  intros Hm Hh s. unfold try_catch. specialize (Hm s).
  destruct (m s) as [[a | e] s1]; simpl in *; [assumption |].
  rewrite Hh. assumption.
Qed.

(** Running a sequence whose first part is known. *)
Lemma bind_returned m k s a s' :
  m s = (Returned a, s') -> bind m k s = k a s'.
Proof. intros H. unfold bind. rewrite H. reflexivity. Qed.

Lemma bind_thrown m k s e s' :
  m s = (Thrown e, s') -> bind m k s = (Thrown e, s').
Proof. intros H. unfold bind. rewrite H. reflexivity. Qed.

Lemma try_catch_returned m (handler : JsError -> M A) s a s' :
  m s = (Returned a, s') -> try_catch m handler s = (Returned a, s').
Proof. intros H. unfold try_catch. rewrite H. reflexivity. Qed.

Lemma try_catch_thrown m (handler : JsError -> M A) s e s' :
  m s = (Thrown e, s') -> try_catch m handler s = handler e s'.
Proof. intros H. unfold try_catch. rewrite H. reflexivity. Qed.
End Logic.

Lemma emits_emit P (ev : Event) : P ev -> emits P (effect (emit ev)).
Proof. intros H. apply emits_silent. intros s. exists [ev]. simpl. auto. Qed.

Lemma emits_when P (b : bool) (m : M unit) : emits P m -> emits P (when b m).
Proof. intros H. destruct b; [assumption | apply emits_ret]. Qed.

Lemma total_effect (f : State -> State) : total (effect f).
Proof. intros s. exists tt. reflexivity. Qed.

Lemma total_when (b : bool) (m : M unit) : total m -> total (when b m).
Proof. intros H. destruct b; [assumption | apply total_ret]. Qed.

Lemma keeps_when {C} (f : State -> C) (b : bool) (m : M unit) :
  keeps f m -> keeps f (when b m).
Proof. intros H. destruct b; [assumption | apply keeps_ret]. Qed.

Lemma total_returns {A} (m : M A) (s : State) :
  total m -> exists a s', m s = (Returned a, s').
Proof.
  intros H. destruct (H s) as (a & Ha). exists a, (m s).2.
  destruct (m s) as [r s']; simpl in *. congruence.
Qed.

(** ** Which effects each function can have *)

Lemma Kind_eqb_eq (a b : Kind) : Kind_eqb a b = true -> a = b.
Proof. destruct a, b; simpl; intros H; (reflexivity || discriminate). Qed.

Lemma kind_among_sub (ks ks' : list Kind) (k : Kind) :
  forallb (kind_among ks') ks = true -> kind_among ks k = true -> kind_among ks' k = true.
Proof.
  unfold kind_among at 2. intros Hsub Hin.
  apply existsb_exists in Hin as (k' & Hk' & Heq).
  apply Kind_eqb_eq in Heq. subst k'.
  rewrite forallb_forall in Hsub. apply Hsub. assumption.
Qed.

Section Effects.
Variable w : World.
Variable P : Event -> Prop.

Lemma emits_Date_now : (forall t, P (EvClock t)) -> emits P Date_now.
Proof. intros H. apply emits_silent. intros s. exists [EvClock (now s)]. simpl. auto. Qed.

Lemma emits_logger level msg : (forall l m, P (EvLog l m)) -> emits P (logger level msg).
Proof. intros H. apply emits_emit. apply H. Qed.

Lemma emits_createHmac secret msg :
  (forall k m, P (EvHmac k m)) -> emits P (createHmac_sha256_hex w secret msg).
Proof. intros H. apply emits_silent. intros s. exists [EvHmac secret msg]. simpl. auto. Qed.

Lemma emits_post req : P (EvHttpPost req) -> emits P (post w req).
Proof. intros H. apply emits_silent. intros s. exists [EvHttpPost req]. simpl. auto. Qed.

Lemma emits_jitterDelay arg : (forall a, P (EvJitter a)) -> emits P (jitterDelay w arg).
Proof. intros H. apply emits_silent. intros s. exists [EvJitter arg]. simpl. auto. Qed.

Lemma emits_sleep delay : (forall d, P (EvSleep d)) -> emits P (sleep delay).
Proof. intros H. apply emits_silent. intros s. exists [EvSleep delay]. simpl. auto. Qed.

Lemma emits_fault_or_unit (fault : State -> option string) (f : State -> State)
    (ev : Event) :
  P ev ->
  (forall s, trace (f s) = trace s ++ [ev] /\ webhook_events (f s) = webhook_events s) ->
  emits P (fun s => fault_or_unit (fault s) (f s)).
Proof.
  intros H Hf. apply emits_silent. intros s. exists [ev]. unfold fault_or_unit.
  destruct (Hf s) as [Htr Hdocs]. destruct (fault s); simpl; rewrite Htr, Hdocs; auto.
Qed.

Lemma emits_connect uri : (forall u, P (EvConnect u)) -> emits P (connect w uri).
Proof.
  intros H.
  apply (emits_fault_or_unit (fun s => connect_fault w (connect_calls s))
           (fun s => count_connect (emit (EvConnect uri) s)) (EvConnect uri)); auto.
Qed.

Lemma emits_ensureIndexes : P EvEnsureIndexes -> emits P (ensureIndexes w).
Proof.
  intros H.
  apply (emits_fault_or_unit (fun s => ensureIndexes_fault w (connect_calls s))
           (fun s => emit EvEnsureIndexes s) EvEnsureIndexes); auto.
Qed.

Lemma emits_createIndex : P EvCreateIndex -> emits P (createIndex w).
Proof.
  intros H.
  apply (emits_fault_or_unit (fun s => mongo_fault w (mongo_calls s))
           (fun s => count_mongo (emit EvCreateIndex s)) EvCreateIndex); auto.
Qed.

Lemma emits_updateOne event : P (EvUpdateOne event) -> emits P (updateOne_upsert w event).
Proof.
  intros H s. exists [EvUpdateOne event]. unfold updateOne_upsert.
  destruct (mongo_fault w (mongo_calls s)); simpl.
  - auto using stored_from_refl.
  - split; [reflexivity |]. split; [auto |].
    intros id doc Hdoc.
    destruct (decide (EventLog.event_id event = id)) as [<- | Hne].
    + rewrite lookup_insert_eq in Hdoc. injection Hdoc as <-.
      right. exists event. split; [apply list_elem_of_singleton; reflexivity |].
      destruct (webhook_events s !! EventLog.event_id event); eauto.
    + rewrite lookup_insert_ne in Hdoc by assumption. left. assumption.
Qed.

Lemma emits_respond code json : (forall c j, P (EvRespond c j)) -> emits P (respond code json).
Proof. intros H. apply emits_emit. apply H. Qed.

Lemma emits_callForwardToN8n params :
  (forall p, P (EvForwardN8n p)) -> emits P (callForwardToN8n w params).
Proof. intros H. apply emits_silent. intros s. exists [EvForwardN8n params]. simpl. auto. Qed.

Lemma emits_adapt payload internalEventId correlationId :
  (forall t, P (EvClock t)) -> emits P (adapt payload internalEventId correlationId).
Proof.
  intros H. apply emits_silent. intros s. unfold adapt.
  destruct (adaptPayloadForMicroBackend _ _ _ _); simpl.
  - exists [EvClock (now s)]. auto.
  - exists []. rewrite app_nil_r. auto.
Qed.

Lemma emits_effect_silent (f : State -> State) :
  (forall s, trace (f s) = trace s /\ webhook_events (f s) = webhook_events s) ->
  emits P (effect f).
Proof.
  intros H. apply emits_silent. intros s. exists []. simpl.
  destruct (H s) as [-> ->]. rewrite app_nil_r. auto.
Qed.
End Effects.

(** Closes a goal [emits P m] by following the structure of [m]. *)
Ltac emits_step :=
  first
    [ apply emits_ret | apply emits_throw | apply emits_read
    | apply emits_Date_now | apply emits_logger | apply emits_createHmac
    | apply emits_post | apply emits_jitterDelay | apply emits_sleep
    | apply emits_connect | apply emits_ensureIndexes | apply emits_createIndex
    | apply emits_updateOne | apply emits_respond | apply emits_callForwardToN8n
    | apply emits_adapt
    | apply emits_when | apply emits_bind | apply emits_try_catch ].


(** ** ForwardingClient *)

Lemma posts_app (tr tr' : list Event) : posts (tr ++ tr') = posts tr ++ posts tr'.
Proof. apply omap_app. Qed.

Section Retry.
Variable w : World.
Variables (url : string) (payload : AdaptedEnvelope) (headers : gmap string string).
Variable maxRetries : nat.

Let req := mkRequest url payload headers.

Lemma forward_attempt_spec (attempt : nat) (s : State) :
  exists s',
    forward_attempt w url payload headers maxRetries attempt s
    = (Returned (attempt_result (http_post w (http_calls s) req)), s')
    /\ http_calls s' = S (http_calls s)
    /\ posts (trace s') = posts (trace s) ++ [req]
    /\ webhook_events s' = webhook_events s.
Proof.
  unfold forward_attempt, try_catch, bind, post. fold req. simpl.
  destruct (http_post w (http_calls s) req) as [res | err]; simpl.
  - eexists. split; [reflexivity |]. simpl.
    rewrite !posts_app. simpl. rewrite app_nil_r. auto.
  - destruct (non_retryable (option_map status (response err))); simpl.
    + eexists. split; [reflexivity |]. simpl.
      rewrite !posts_app. simpl. rewrite app_nil_r. auto.
    + destruct (attempt <? maxRetries)%nat; simpl.
      * eexists. split; [reflexivity |]. simpl.
        rewrite !posts_app. simpl. rewrite !app_nil_r. auto.
      * eexists. split; [reflexivity |]. simpl.
        rewrite !posts_app. simpl. auto.
Qed.

Lemma forward_loop_step (remaining attempt : nat) (lastError : option JsError) (s : State) :
  exists s',
    http_calls s' = S (http_calls s)
    /\ posts (trace s') = posts (trace s) ++ [req]
    /\ webhook_events s' = webhook_events s
    /\ forward_loop w url payload headers maxRetries (S remaining) attempt lastError s
       = match attempt_result (http_post w (http_calls s) req) with
         | inl result => (Returned result, s')
         | inr err =>
             forward_loop w url payload headers maxRetries remaining (S attempt) (Some err) s'
         end.
Proof.
  destruct (forward_attempt_spec attempt s) as (s' & Hrun & Hcalls & Hposts & Hdocs).
  exists s'. repeat split; try assumption.
  cbn [forward_loop]. rewrite (bind_returned _ _ _ _ _ Hrun).
  destruct (attempt_result _); reflexivity.
Qed.

(** [k] retryable rejections in a row take the loop [k] iterations on. *)
Lemma forward_loop_skip (k : nat) :
  forall (remaining attempt : nat) (lastError : option JsError) (s : State),
    (forall i, (i < k)%nat ->
               exists err, http_post w (http_calls s + i) req = Thrown err /\ retryable err) ->
    exists s' lastError',
      forward_loop w url payload headers maxRetries (k + remaining) attempt lastError s
      = forward_loop w url payload headers maxRetries remaining (k + attempt) lastError' s'
      /\ http_calls s' = (http_calls s + k)%nat
      /\ posts (trace s') = posts (trace s) ++ replicate k req
      /\ webhook_events s' = webhook_events s.
Proof.
  induction k as [| k IH]; intros remaining attempt lastError s Hrej.
  - exists s, lastError. simpl. rewrite app_nil_r, Nat.add_0_r. auto.
  - destruct (Hrej 0%nat) as (err & Hpost & Hretry); [lia |].
    rewrite Nat.add_0_r in Hpost.
    destruct (forward_loop_step (k + remaining) attempt lastError s)
      as (s1 & Hcalls & Hposts & Hdocs & Hrun).
    unfold attempt_result in Hrun. rewrite Hpost in Hrun.
    unfold retryable in Hretry. rewrite Hretry in Hrun.
    destruct (IH remaining (S attempt) (Some err) s1) as (s' & le' & Hrun' & Hcalls' & Hposts' & Hdocs').
    { intros i Hi. destruct (Hrej (S i)) as (e & He & Hr); [lia |].
      exists e. split; [| assumption]. rewrite Hcalls.
      replace (S (http_calls s) + i)%nat with (http_calls s + S i)%nat by lia. assumption. }
    exists s', le'. split.
    + change (S k + remaining)%nat with (S (k + remaining)). rewrite Hrun, Hrun'.
      replace (k + S attempt)%nat with (S k + attempt)%nat by lia. reflexivity.
    + rewrite Hcalls', Hposts', Hcalls, Hposts, Hdocs', Hdocs.
      repeat split; [lia |]. rewrite <- app_assoc. reflexivity.
Qed.

(** After [k] retryable rejections, with an iteration left, the answer of
    call [k + 1] decides the run when it is not itself a retryable
    rejection. *)
Lemma forward_loop_decided (k : nat) (s : State) (result : ForwardResult) :
  (k < maxRetries)%nat ->
  (forall i, (i < k)%nat ->
             exists err, http_post w (http_calls s + i) req = Thrown err /\ retryable err) ->
  attempt_result (http_post w (http_calls s + k) req) = inl result ->
  exists s',
    forwardWithRetry w url payload headers maxRetries s = (Returned result, s')
    /\ http_calls s' = (http_calls s + k + 1)%nat
    /\ posts (trace s') = posts (trace s) ++ replicate (k + 1) req
    /\ webhook_events s' = webhook_events s.
Proof.
  intros Hk Hrej Hlast. unfold forwardWithRetry.
  destruct (forward_loop_skip k (maxRetries - k) 1 None s Hrej)
    as (s1 & le & Hrun & Hcalls & Hposts & Hdocs).
  replace (k + (maxRetries - k))%nat with maxRetries in Hrun by lia.
  destruct (maxRetries - k)%nat as [| remaining] eqn:Hrem; [lia |].
  destruct (forward_loop_step remaining (k + 1) le s1) as (s' & Hcalls' & Hposts' & Hdocs' & Hrun').
  rewrite Hcalls, Hlast in Hrun'.
  exists s'. rewrite Hrun, Hrun', Hcalls', Hposts', Hcalls, Hposts, Hdocs', Hdocs.
  repeat split; [lia |].
  rewrite <- app_assoc. f_equal.
  replace (k + 1)%nat with (S k) by lia.
  rewrite replicate_S_end. reflexivity.
Qed.
End Retry.

Lemma closed_under_sub (ks ks' : list Kind) (P : Event -> Prop) :
  forallb (kind_among ks) ks' = true -> closed_under ks P -> closed_under ks' P.
Proof.
  intros Hsub H ev Hev. apply H. unfold of_kinds in *.
  eapply kind_among_sub; eassumption.
Qed.

(** Side conditions of the effect lemmas, from a closure hypothesis. *)
Ltac by_kind :=
  match goal with
  | H : closed_under _ ?P |- ?P _ => apply H; reflexivity
  | H : closed_under _ ?P |- closed_under _ ?P =>
      refine (closed_under_sub _ _ _ _ H); reflexivity
  | |- _ => assumption
  end.

Ltac emits_auto :=
  repeat (intros; first [ emits_step | solve [by_kind] ]).

Section EffectsOfFunctions.
Variable w : World.
Variable P : Event -> Prop.

Lemma emits_forward_attempt url payload headers maxRetries attempt :
  closed_under [KJitter; KSleep; KLog] P ->
  P (EvHttpPost (mkRequest url payload headers)) ->
  emits P (forward_attempt w url payload headers maxRetries attempt).
Proof.
  intros Hks Hpost. unfold forward_attempt.
  apply emits_try_catch.
  - emits_auto.
  - intros err. destruct (non_retryable _); emits_auto.
Qed.

Lemma emits_forward_loop url payload headers maxRetries remaining :
  closed_under [KJitter; KSleep; KLog] P ->
  P (EvHttpPost (mkRequest url payload headers)) ->
  forall attempt lastError,
    emits P (forward_loop w url payload headers maxRetries remaining attempt lastError).
Proof.
  intros Hks Hpost. induction remaining as [| remaining IH]; intros attempt lastError.
  - cbn [forward_loop]. emits_auto.
  - cbn [forward_loop]. apply emits_bind.
    + apply emits_forward_attempt; assumption.
    + intros [result | err]; [apply emits_ret | apply IH].
Qed.

Lemma emits_generateMicroBackendSignature payload secret :
  closed_under [KClock; KHmac] P ->
  emits P (generateMicroBackendSignature w payload secret).
Proof. intros Hks. unfold generateMicroBackendSignature. emits_auto. Qed.

Lemma emits_forwardToMicroBackend params :
  closed_under [KClock; KHmac; KHttpPost; KJitter; KSleep; KLog] P ->
  emits P (forwardToMicroBackend w params).
Proof.
  intros Hks. unfold forwardToMicroBackend.
  destruct (negb (truthy_opt_string (MICRO_BACKEND_URL (env w)))); [emits_auto |].
  destruct (negb (truthy_opt_string (MICRO_BACKEND_HMAC_SECRET (env w))));
    [emits_auto |].
  apply emits_bind; [emits_auto |]. intros adapted.
  apply emits_bind; [apply emits_generateMicroBackendSignature; by_kind |].
  intros [signature timestamp].
  apply emits_bind; [emits_auto |]. intros _.
  apply emits_bind.
  - apply emits_forward_loop; by_kind.
  - emits_auto.
Qed.

Lemma emits_forwardToDestination params :
  closed_under [KClock; KHmac; KHttpPost; KJitter; KSleep; KLog; KForwardN8n] P ->
  emits P (forwardToDestination w params).
Proof.
  intros Hks. unfold forwardToDestination.
  destruct (FORWARD_TO_MICRO_BACKEND_ONLY (env w)).
  - apply emits_forwardToMicroBackend. by_kind.
  - emits_auto.
Qed.

Lemma emits_getDb :
  closed_under [KLog; KConnect; KEnsureIndexes] P -> emits P (getDb w).
Proof.
  intros Hks. unfold getDb.
  apply emits_bind; [emits_auto |]. intros _.
  apply emits_bind; [emits_auto |]. intros opened.
  destruct opened; [emits_auto |].
  destruct (negb (truthy_opt_string (MONGO_URI w))); [emits_auto |].
  apply emits_bind; [emits_auto |]. intros _.
  apply emits_bind; [apply emits_effect_silent; intros s; split; reflexivity |].
  emits_auto.
Qed.

Lemma emits_ensureCollection :
  closed_under [KCreateIndex; KLog] P -> emits P (ensureCollection w).
Proof. intros Hks. unfold ensureCollection. emits_auto. Qed.

Lemma emits_log event :
  closed_under [KLog] P -> P (EvUpdateOne event) -> emits P (log w event).
Proof. intros Hks Hdoc. unfold log. emits_auto. Qed.

Lemma emits_logFailure eventId errorCode errorMessage retryCount correlationId responseStatus :
  closed_under [KClock; KLog] P ->
  (forall doc,
      EventLog.event_id doc = eventId ->
      EventLog.retry_count doc = retryCount ->
      EventLog.status doc
        = (if 5 <? retryCount then EventLog.failed else EventLog.processing) ->
      EventLog.error_code doc = EventLog.Present errorCode ->
      P (EvUpdateOne doc)) ->
  emits P (logFailure w eventId errorCode errorMessage retryCount correlationId responseStatus).
Proof.
  intros Hks Hdoc. unfold logFailure.
  apply emits_bind; [emits_auto |]. intros t.
  apply emits_bind; [| emits_auto].
  apply emits_log; [by_kind |]. apply Hdoc; reflexivity.
Qed.

Lemma emits_logSuccess eventId correlationId responseStatus :
  closed_under [KClock; KLog] P ->
  (forall doc,
      EventLog.event_id doc = eventId ->
      EventLog.retry_count doc = 0 ->
      EventLog.status doc = EventLog.success ->
      EventLog.error_code doc = EventLog.Absent ->
      P (EvUpdateOne doc)) ->
  emits P (logSuccess w eventId correlationId responseStatus).
Proof.
  intros Hks Hdoc. unfold logSuccess.
  apply emits_bind; [emits_auto |]. intros t.
  apply emits_log; [by_kind |]. apply Hdoc; reflexivity.
Qed.
End EffectsOfFunctions.

(** ** Which functions never throw *)

Section Totality.
Variable w : World.

Lemma total_Date_now : total Date_now.
Proof. intros s. eexists. reflexivity. Qed.

Lemma total_logger level msg : total (logger level msg).
Proof. apply total_effect. Qed.

Lemma total_createHmac secret msg : total (createHmac_sha256_hex w secret msg).
Proof. intros s. eexists. reflexivity. Qed.

Lemma total_jitterDelay arg : total (jitterDelay w arg).
Proof. intros s. eexists. reflexivity. Qed.

Lemma total_sleep delay : total (sleep delay).
Proof. apply total_effect. Qed.

Lemma total_respond code json : total (respond code json).
Proof. apply total_effect. Qed.

Lemma total_forward_attempt url payload headers maxRetries attempt :
  total (forward_attempt w url payload headers maxRetries attempt).
Proof.
  intros s.
  destruct (forward_attempt_spec w url payload headers maxRetries attempt s) as (s' & Hrun & _).
  rewrite Hrun. eexists. reflexivity.
Qed.

Lemma total_forward_loop url payload headers maxRetries remaining :
  forall attempt lastError,
    total (forward_loop w url payload headers maxRetries remaining attempt lastError).
Proof.
  induction remaining as [| remaining IH]; intros attempt lastError; cbn [forward_loop].
  - apply total_bind; [apply total_logger | intros _; apply total_ret].
  - apply total_bind; [apply total_forward_attempt |].
    intros [result | err]; [apply total_ret | apply IH].
Qed.

(** The ForwardingClient never throws: every failure is in the result. *)
Lemma total_forwardWithRetry url payload headers maxRetries :
  total (forwardWithRetry w url payload headers maxRetries).
Proof. apply total_forward_loop. Qed.

Lemma total_generateMicroBackendSignature payload secret :
  total (generateMicroBackendSignature w payload secret).
Proof.
  unfold generateMicroBackendSignature.
  apply total_bind; [apply total_Date_now |]. intros t.
  apply total_bind; [apply total_createHmac |]. intros sig. apply total_ret.
Qed.

Lemma truthy_not_nullish (v : jsval) : truthy v = true -> v <> JNull /\ v <> JUndefined.
Proof. destruct v; simpl; intros H; split; congruence. Qed.

Lemma total_adapt payload internalEventId correlationId :
  payload <> JNull -> payload <> JUndefined ->
  total (adapt payload internalEventId correlationId).
Proof.
  intros Hnull Hundef s. unfold adapt, adaptPayloadForMicroBackend.
  rewrite !get_prop_body_field by assumption. eexists. reflexivity.
Qed.

Lemma total_forwardToMicroBackend params :
  params_payload params <> JNull -> params_payload params <> JUndefined ->
  total (forwardToMicroBackend w params).
Proof.
  intros Hnull Hundef. unfold forwardToMicroBackend.
  destruct (negb (truthy_opt_string (MICRO_BACKEND_URL (env w)))).
  { apply total_bind; [apply total_logger | intros _; apply total_ret]. }
  destruct (negb (truthy_opt_string (MICRO_BACKEND_HMAC_SECRET (env w)))).
  { apply total_bind; [apply total_logger | intros _; apply total_ret]. }
  apply total_bind; [apply total_adapt; assumption |]. intros adapted.
  apply total_bind; [apply total_generateMicroBackendSignature |].
  intros [signature timestamp].
  apply total_bind; [apply total_logger |]. intros _.
  apply total_bind; [apply total_forwardWithRetry |]. intros result.
  apply total_bind; [apply total_when, total_logger |]. intros _. apply total_ret.
Qed.

Lemma total_ensureCollection : total (ensureCollection w).
Proof. apply total_try_catch. intros e. apply total_logger. Qed.

Lemma total_log event : total (log w event).
Proof. apply total_try_catch. intros e. apply total_logger. Qed.

Lemma total_logFailure eventId errorCode errorMessage retryCount correlationId responseStatus :
  total (logFailure w eventId errorCode errorMessage retryCount correlationId responseStatus).
Proof.
  unfold logFailure.
  apply total_bind; [apply total_Date_now |]. intros t.
  apply total_bind; [apply total_log |]. intros _.
  apply total_bind; [apply total_Date_now |]. intros t'. apply total_logger.
Qed.

Lemma total_logSuccess eventId correlationId responseStatus :
  total (logSuccess w eventId correlationId responseStatus).
Proof.
  unfold logSuccess.
  apply total_bind; [apply total_Date_now |]. intros t. apply total_log.
Qed.
End Totality.

(** C3: when the attempts before attempt [k + 1] were rejected in a way the
    client retries and attempt [k + 1] is rejected with a status in
    [400, 500) other than 429, the run ends there: [k + 1] calls of
    [http.post] have been made (exactly one when [k = 0]) and the result is
    [ok = false] with that status. *)
Theorem terminal_4xx_is_not_retried :
  forall (w : World) (url : string) (payload : AdaptedEnvelope)
         (headers : gmap string string) (maxRetries k : nat) (s : State)
         (err : JsError) (resp : HttpResponse),
    (k < maxRetries)%nat ->
    (forall i, (i < k)%nat ->
       exists e, http_post w (http_calls s + i) (mkRequest url payload headers) = Thrown e
                 /\ retryable e) ->
    http_post w (http_calls s + k) (mkRequest url payload headers) = Thrown err ->
    response err = Some resp ->
    400 <= status resp < 500 ->
    status resp <> 429 ->
    exists s',
      forwardWithRetry w url payload headers maxRetries s
      = (Returned (mkResult false (status resp) (data resp)), s')
      /\ http_calls s' = (http_calls s + k + 1)%nat
      /\ posts (trace s') = posts (trace s) ++ replicate (k + 1) (mkRequest url payload headers).
Proof.
  intros w url payload headers maxRetries k s err resp Hk Hrej Hlast Hresp Hrange Hnot429.
  destruct (forward_loop_decided w url payload headers maxRetries k s
              (mkResult false (status resp) (data resp)) Hk Hrej)
    as (s' & Hrun & Hcalls & Hposts & _).
  - rewrite Hlast. unfold attempt_result. rewrite Hresp. simpl.
    assert (Hterminal :
              negb (status resp =? 0) && (400 <=? status resp) && (status resp <? 500)
              && negb (status resp =? 429) = true).
    { rewrite !andb_true_iff, !negb_true_iff. repeat split; lia. }
    rewrite Hterminal. reflexivity.
  - exists s'. auto.
Qed.

Lemma terminal_4xx_is_not_retried_witness :
  exists s',
    forwardWithRetry (Samples.scripted [Samples.reject 400 "Bad Request"] None)
      "http://localhost:3000/api/v1/flow/create"
      (mkEnvelope "webhook-gateway" (JStr "user.created") (JStr "evt_123") Samples.testPayload
                  "2025-12-31T12:00:00.123Z" JUndefined "evt_789")
      ∅ 3 (Samples.start 0)
    = (Returned (mkResult false 400 (JObj [("error"%string, JStr "Bad Request")])), s')
    /\ http_calls s' = 1%nat
    /\ length (posts (trace s')) = 1%nat.
Proof.
  destruct (terminal_4xx_is_not_retried
              (Samples.scripted [Samples.reject 400 "Bad Request"] None)
              "http://localhost:3000/api/v1/flow/create"
              (mkEnvelope "webhook-gateway" (JStr "user.created") (JStr "evt_123")
                          Samples.testPayload "2025-12-31T12:00:00.123Z" JUndefined "evt_789")
              ∅ 3 0 (Samples.start 0)
              (mkError "Bad Request"
                 (Some (mkResponse 400 (JObj [("error"%string, JStr "Bad Request")]))))
              (mkResponse 400 (JObj [("error"%string, JStr "Bad Request")])))
    as (s' & Hrun & Hcalls & Hposts).
  - lia.
  - intros i Hi. lia.
  - reflexivity.
  - reflexivity.
  - simpl. lia.
  - simpl. lia.
  - exists s'. split; [exact Hrun |]. split; [exact Hcalls |].
    rewrite Hposts. reflexivity.
Defined.

(** ** OutcomeRecorder *)

Lemma elem_of_updates (doc : EventLog.t) (evs : list Event) :
  doc ∈ updates evs <-> EvUpdateOne doc ∈ evs.
Proof.
  unfold updates. rewrite list_elem_of_omap. split.
  - intros (ev & Hin & Hev). destruct ev; try discriminate. injection Hev as ->. assumption.
  - intros Hin. exists (EvUpdateOne doc). auto.
Qed.

Section Handler.
Variable w : World.
Variable P : Event -> Prop.
Variable req : Request.

Lemma emits_handleWebhookEntry :
  closed_under [KClock; KHmac; KHttpPost; KJitter; KSleep; KLog; KConnect;
                KEnsureIndexes; KCreateIndex; KForwardN8n; KRespond] P ->
  (forall doc, first_pass_record (req_internal_event_id req) doc -> P (EvUpdateOne doc)) ->
  emits P (handleWebhookEntry w req).
Proof.
  intros Hks Hdoc. unfold handleWebhookEntry.
  assert (Hfailure : forall code msg corr rs,
             emits P (logFailure w (req_internal_event_id req) code msg 0 corr rs)).
  { intros code msg corr rs. apply emits_logFailure; [by_kind |].
    intros doc Hid Hcount Hstatus Hcode. apply Hdoc.
    split; [assumption |]. split; [assumption |]. left. split; [exact Hstatus | eauto]. }
  apply emits_try_catch.
  - apply emits_bind; [apply emits_getDb; by_kind |]. intros _.
    apply emits_bind; [apply emits_ensureCollection; by_kind |]. intros _.
    apply emits_bind; [apply emits_forwardToDestination; by_kind |]. intros result.
    apply emits_bind; [| emits_auto].
    destruct (negb (ok result)).
    + apply emits_bind; [emits_auto | intros _; apply Hfailure].
    + apply emits_logSuccess; [by_kind |].
      intros doc Hid Hcount Hstatus Hcode. apply Hdoc.
      split; [assumption |]. split; [assumption |]. right. auto.
  - intros err.
    apply emits_bind; [emits_auto |]. intros _.
    apply emits_bind; [| emits_auto].
    apply emits_try_catch; [| emits_auto].
    apply emits_bind; [apply emits_getDb; by_kind | intros _; apply Hfailure].
Qed.
End Handler.

(** A failing upsert leaves the collection as it was and is reported on the
    log only. *)
Lemma log_absorbs_fault (w : World) (event : EventLog.t) (s : State) (msg : string) :
  mongo_fault w (mongo_calls s) = Some msg ->
  log w event s
  = (Returned tt,
     emit (EvLog Warn ("Failed to log webhook event "
                       +:+ EventLog.event_id event +:+ ": " +:+ msg))
          (count_mongo (emit (EvUpdateOne event) s))).
Proof.
  intros Hfault. unfold log, try_catch, updateOne_upsert. rewrite Hfault. reflexivity.
Qed.

(** C9: [logSuccess], [logFailure] and the [log] they share return normally
    in every world and from every state, whatever the database does: an
    error raised by the upsert is caught inside the recorder, which then
    leaves the collection as it was and writes a warning to the log. *)
Theorem recording_never_throws :
  forall (w : World) (s : State) (eventId errorCode errorMessage : string)
         (retryCount : Z) (correlationId : option string) (responseStatus : option Z)
         (successStatus : Z) (event : EventLog.t),
    (logSuccess w eventId correlationId successStatus s).1 = Returned tt
    /\ (logFailure w eventId errorCode errorMessage retryCount correlationId responseStatus s).1
       = Returned tt
    /\ (log w event s).1 = Returned tt
    /\ (forall msg,
          mongo_fault w (mongo_calls s) = Some msg ->
          webhook_events (log w event s).2 = webhook_events s
          /\ trace (log w event s).2
             = trace s ++ [EvUpdateOne event;
                           EvLog Warn ("Failed to log webhook event "
                                       +:+ EventLog.event_id event +:+ ": " +:+ msg)]).
Proof.
  intros w s eventId errorCode errorMessage retryCount correlationId responseStatus
         successStatus event.
  split; [| split; [| split]].
  - destruct (total_logSuccess w eventId correlationId successStatus s) as ([] & H). exact H.
  - destruct (total_logFailure w eventId errorCode errorMessage retryCount correlationId
                responseStatus s) as ([] & H). exact H.
  - destruct (total_log w event s) as ([] & H). exact H.
  - intros msg Hfault. rewrite (log_absorbs_fault w event s msg Hfault). simpl.
    rewrite <- app_assoc. split; reflexivity.
Qed.

(** A successful upsert stores the status and retry count of the event. *)
Lemma log_stores (w : World) (event : EventLog.t) (s : State) :
  mongo_fault w (mongo_calls s) = None ->
  exists s' doc,
    log w event s = (Returned tt, s')
    /\ webhook_events s' !! EventLog.event_id event = Some doc
    /\ EventLog.status doc = EventLog.status event
    /\ EventLog.retry_count doc = EventLog.retry_count event
    /\ http_calls s' = http_calls s
    /\ trace s' = trace s ++ [EvUpdateOne event].
Proof.
  intros Hok. unfold log, try_catch, updateOne_upsert. rewrite Hok. simpl.
  eexists. eexists. split; [reflexivity |]. simpl. rewrite lookup_insert_eq.
  split; [reflexivity |]. destruct (webhook_events s !! EventLog.event_id event); auto.
Qed.

(** C10: the record [logFailure] hands to the store has status [failed]
    exactly when [retryCount] exceeds 5, and [processing] otherwise; the
    handler passes 0, so every record it writes has [retry_count] 0 and a
    status other than [failed]: [processing] for a failure record.  Every
    document of the collection after a run of the handler was there before
    or has these properties, and a failed forwarding result whose upsert
    succeeds leaves a [processing] record with retry count 0 for the
    event. *)
Theorem failures_are_stored_as_processing :
  (forall (w : World) (eventId errorCode errorMessage : string) (retryCount : Z)
          (correlationId : option string) (responseStatus : option Z) (s : State),
      exists evs,
        trace (logFailure w eventId errorCode errorMessage retryCount correlationId
                          responseStatus s).2 = trace s ++ evs
        /\ (forall doc, doc ∈ updates evs ->
              (EventLog.status doc = EventLog.failed <-> 5 < retryCount)
              /\ (EventLog.status doc = EventLog.processing <-> retryCount <= 5)
              /\ EventLog.retry_count doc = retryCount)
        /\ (forall id doc,
              webhook_events (logFailure w eventId errorCode errorMessage retryCount
                                         correlationId responseStatus s).2 !! id = Some doc ->
              webhook_events s !! id = Some doc
              \/ ((EventLog.status doc = EventLog.failed <-> 5 < retryCount)
                  /\ EventLog.retry_count doc = retryCount)))
  /\ (forall (w : World) (req : Request) (s : State),
        exists evs,
          trace (handleWebhookEntry w req s).2 = trace s ++ evs
          /\ (forall doc, doc ∈ updates evs ->
                EventLog.retry_count doc = 0
                /\ EventLog.status doc <> EventLog.failed
                /\ ((exists code, EventLog.error_code doc = EventLog.Present code) ->
                    EventLog.status doc = EventLog.processing))
          /\ (forall id doc,
                webhook_events (handleWebhookEntry w req s).2 !! id = Some doc ->
                webhook_events s !! id = Some doc
                \/ (EventLog.retry_count doc = 0 /\ EventLog.status doc <> EventLog.failed)))
  /\ (forall (w : World) (req : Request) (result : ForwardResult) (s : State),
        ok result = false ->
        mongo_fault w (mongo_calls s) = None ->
        exists doc,
          webhook_events (record_outcome w req result s).2 !! req_internal_event_id req
          = Some doc
          /\ EventLog.status doc = EventLog.processing
          /\ EventLog.retry_count doc = 0).
Proof.
  split; [| split].
  - intros w eventId errorCode errorMessage retryCount correlationId responseStatus s.
    destruct (emits_logFailure w
                (fun ev => forall doc, ev = EvUpdateOne doc ->
                   (EventLog.status doc = EventLog.failed <-> 5 < retryCount)
                   /\ (EventLog.status doc = EventLog.processing <-> retryCount <= 5)
                   /\ EventLog.retry_count doc = retryCount)
                eventId errorCode errorMessage retryCount correlationId responseStatus)
      with (s := s) as (evs & Htr & Hall & Hdocs).
    + intros ev Hkind doc ->. discriminate.
    + intros doc _ Hcount Hstatus _ doc' [= <-]. rewrite Hstatus.
      destruct (Z.ltb_spec 5 retryCount); repeat split; (congruence || lia).
    + rewrite Forall_forall in Hall.
      exists evs. split; [assumption |]. split.
      * intros doc Hdoc. apply elem_of_updates in Hdoc.
        apply (Hall _ Hdoc). reflexivity.
      * intros id doc Hdoc.
        destruct (Hdocs id doc Hdoc) as [Hold | (update & Hin & Hshape)]; [left; assumption |].
        right. destruct (Hall _ Hin update eq_refl) as (Hfailed & _ & Hcount).
        assert (EventLog.retry_count doc = EventLog.retry_count update
                /\ EventLog.status doc = EventLog.status update) as [-> ->].
        { destruct Hshape as [-> | (stored & ->)]; auto. }
        split; assumption.
  - intros w req s.
    destruct (emits_handleWebhookEntry w
                (fun ev => forall doc, ev = EvUpdateOne doc ->
                   first_pass_record (req_internal_event_id req) doc) req)
      with (s := s) as (evs & Htr & Hall & Hdocs).
    + intros ev Hkind doc ->. discriminate.
    + intros doc Hrec doc' [= <-]. assumption.
    + rewrite Forall_forall in Hall.
      exists evs. split; [assumption |]. split.
      * intros doc Hdoc. apply elem_of_updates in Hdoc.
        destruct (Hall _ Hdoc doc eq_refl) as (_ & Hcount & [[Hst _] | [Hst Hcode]]).
        -- rewrite Hst. repeat split; [assumption | discriminate].
        -- rewrite Hst. repeat split; [assumption | discriminate |].
           intros (code & Hpresent). congruence.
      * intros id doc Hdoc.
        destruct (Hdocs id doc Hdoc) as [Hold | (update & Hin & Hshape)]; [left; assumption |].
        right. destruct (Hall _ Hin update eq_refl) as (_ & Hcount & Hstatus).
        assert (EventLog.retry_count doc = EventLog.retry_count update
                /\ EventLog.status doc = EventLog.status update) as [-> ->].
        { destruct Hshape as [-> | (stored & ->)]; auto. }
        split; [assumption |].
        destruct Hstatus as [[-> _] | [-> _]]; discriminate.
  - intros w req result s Hfail Hmongo.
    unfold record_outcome. rewrite Hfail. cbn [negb].
    erewrite bind_returned by (cbv [logger effect]; reflexivity).
    unfold logFailure.
    erewrite bind_returned by (cbv [Date_now]; reflexivity).
    match goal with
    | |- context [bind (log w ?event) _ ?st] =>
        destruct (log_stores w event st Hmongo)
          as (s' & doc & Hlog & Hlookup & Hstatus & Hcount & _)
    end.
    erewrite bind_returned by exact Hlog.
    exists doc. split; [exact Hlookup |]. split; [exact Hstatus | exact Hcount].
Qed.

(** A run whose first attempt is rejected with 400: one call, and a record
    in state [processing] with retry count 0 for the event. *)
Lemma terminal_failure_sample :
  exists doc,
    webhook_events
      (handleWebhookEntry Samples.rejecting Samples.request (Samples.start 1767182400123)).2
      !! "evt_789"%string = Some doc
    /\ EventLog.status doc = EventLog.processing
    /\ EventLog.retry_count doc = 0
    /\ EventLog.response_status doc = EventLog.Present 400
    /\ length (posts (trace (handleWebhookEntry Samples.rejecting Samples.request
                                                (Samples.start 1767182400123)).2)) = 1%nat.
Proof. eexists. split; [vm_compute; reflexivity |]. repeat split. Qed.

(** A run against a store whose every operation fails: the event is
    forwarded and acknowledged all the same, and nothing is stored. *)
Lemma unreachable_store_sample :
  responses
    (trace (handleWebhookEntry (Samples.unreachable_store Samples.flaky) Samples.request
                               (Samples.start 1767182400123)).2)
  = [(202, accepted_json Samples.request)]
  /\ length (posts (trace (handleWebhookEntry (Samples.unreachable_store Samples.flaky)
                                              Samples.request
                                              (Samples.start 1767182400123)).2)) = 3%nat
  /\ webhook_events
       (handleWebhookEntry (Samples.unreachable_store Samples.flaky) Samples.request
                           (Samples.start 1767182400123)).2 = ∅.
Proof. repeat split; vm_compute; reflexivity. Qed.

(** ** OutboundSigner and the requests of one forwarding run *)




Section Run.
Variable w : World.
Variable params : ForwardParams.

Lemma forward_loop_posts url payload headers maxRetries remaining :
  forall attempt lastError s,
    exists n,
      (n <= remaining)%nat
      /\ posts (trace (forward_loop w url payload headers maxRetries remaining
                                    attempt lastError s).2)
         = posts (trace s) ++ replicate n (mkRequest url payload headers).
Proof.
  induction remaining as [| remaining IH]; intros attempt lastError s.
  - exists 0%nat. split; [lia |]. simpl. rewrite posts_app. reflexivity.
  - destruct (forward_loop_step w url payload headers maxRetries remaining attempt lastError s)
      as (s1 & _ & Hposts & _ & Hrun).
    rewrite Hrun. destruct (attempt_result _) as [result | err].
    + exists 1%nat. split; [lia |]. simpl. assumption.
    + destruct (IH (S attempt) (Some err) s1) as (n & Hn & Hposts').
      exists (S n). split; [lia |]. rewrite Hposts', Hposts, <- app_assoc. reflexivity.
Qed.

(** A loop with an iteration left makes at least one call. *)
Lemma forward_loop_posts_some url payload headers maxRetries remaining :
  forall attempt lastError s,
    exists n,
      (1 <= n <= S remaining)%nat
      /\ posts (trace (forward_loop w url payload headers maxRetries (S remaining)
                                    attempt lastError s).2)
         = posts (trace s) ++ replicate n (mkRequest url payload headers).
Proof.
  intros attempt lastError s.
  destruct (forward_loop_step w url payload headers maxRetries remaining attempt lastError s)
    as (s1 & _ & Hposts & _ & Hrun).
  rewrite Hrun. destruct (attempt_result _) as [result | err].
  - exists 1%nat. split; [lia |]. simpl. assumption.
  - destruct (forward_loop_posts url payload headers maxRetries remaining
                (S attempt) (Some err) s1) as (n & Hn & Hposts').
    exists (S n). split; [lia |]. rewrite Hposts', Hposts, <- app_assoc. reflexivity.
Qed.

(** With the URL and the secret configured and a payload that can be read,
    the run is: read the clock twice, sign once, log, then the retry loop
    on one fixed request. *)
Lemma forwardToMicroBackend_configured (s : State) :
  truthy_opt_string (MICRO_BACKEND_URL (env w)) = true ->
  truthy_opt_string (MICRO_BACKEND_HMAC_SECRET (env w)) = true ->
  params_payload params <> JNull ->
  params_payload params <> JUndefined ->
  exists adapted s1,
    adaptPayloadForMicroBackend (now s) (params_payload params)
      (params_internalEventId params) (params_correlationId params) = Returned adapted
    /\ now s1 = now s
    /\ http_calls s1 = http_calls s
    /\ webhook_events s1 = webhook_events s
    /\ trace s1
       = trace s ++
         [ EvClock (now s); EvClock (now s);
           EvHmac (default EmptyString (MICRO_BACKEND_HMAC_SECRET (env w)))
                  (canonical_message w (Z_toString (now s / 1000)) adapted);
           EvLog Info ("Forwarding to micro-backend: url="
                       +:+ url (outbound_request w params (now s) adapted)
                       +:+ " internalEventId=" +:+ params_internalEventId params
                       +:+ " correlationId=" +:+ interpolate (params_correlationId params)) ]
    /\ forwardToMicroBackend w params s
       = bind (forwardWithRetry w (url (outbound_request w params (now s) adapted)) adapted
                 (headers (outbound_request w params (now s) adapted))
                 MAX_MICRO_BACKEND_RETRIES)
              (fun result =>
                 bind (when (negb (ok result))
                         (logger Error ("Failed to forward to micro-backend: "
                                        +:+ Z_toString (result_status result) +:+ " "
                                        +:+ interpolate_json (Number_toString w) (body result))))
                      (fun _ => ret result))
              s1.
Proof.
  intros Hurl Hsecret Hnull Hundef.
  destruct (adapt_total_on_payload (now s) (params_payload params)
              (params_internalEventId params) (params_correlationId params) Hnull Hundef)
    as (adapted & Hadapt).
  exists adapted.
  exists (emit (EvLog Info ("Forwarding to micro-backend: url="
                       +:+ url (outbound_request w params (now s) adapted)
                       +:+ " internalEventId=" +:+ params_internalEventId params
                       +:+ " correlationId=" +:+ interpolate (params_correlationId params)))
            (emit (EvHmac (default EmptyString (MICRO_BACKEND_HMAC_SECRET (env w)))
                          (canonical_message w (Z_toString (now s / 1000)) adapted))
               (emit (EvClock (now s)) (emit (EvClock (now s)) s)))).
  split; [exact Hadapt |].
  split; [reflexivity |]. split; [reflexivity |]. split; [reflexivity |].
  split; [simpl; rewrite <- !app_assoc; reflexivity |].
  unfold forwardToMicroBackend. rewrite Hurl, Hsecret. cbn [negb].
  rewrite (bind_returned _ _ s adapted (emit (EvClock (now s)) s))
    by (unfold adapt; rewrite Hadapt; reflexivity).
  erewrite bind_returned
    by (cbv [generateMicroBackendSignature bind Date_now createHmac_sha256_hex ret];
        reflexivity).
  cbv beta iota.
  erewrite bind_returned by (cbv [logger effect]; reflexivity).
  reflexivity.
Qed.
End Run.

Lemma nullish_or_readable (v : jsval) :
  v = JNull \/ v = JUndefined \/ (v <> JNull /\ v <> JUndefined).
Proof. destruct v; auto; right; right; split; discriminate. Qed.


(** The same split of the trace, with what is computed before the first
    attempt: a run that sends anything has read the clock for the envelope
    and for the timestamp, computed one HMAC and logged one line before it,
    and a run with URL, secret and a readable payload does send. *)
Lemma forwardToMicroBackend_signed_run (w : World) (params : ForwardParams) (s : State) :
  exists pre sends adapted n,
    trace (forwardToMicroBackend w params s).2 = trace s ++ pre ++ sends
    /\ Forall (of_kinds [KClock; KHmac; KLog]) pre
    /\ (length (hmacs pre) <= 1)%nat
    /\ Forall (send_event (outbound_request w params (now s) adapted)) sends
    /\ posts sends = replicate n (outbound_request w params (now s) adapted)
    /\ (n <= MAX_MICRO_BACKEND_RETRIES)%nat
    /\ ((1 <= n)%nat ->
        adaptPayloadForMicroBackend (now s) (params_payload params)
          (params_internalEventId params) (params_correlationId params) = Returned adapted
        /\ exists line,
             pre = [ EvClock (now s); EvClock (now s);
                     EvHmac (default EmptyString (MICRO_BACKEND_HMAC_SECRET (env w)))
                            (canonical_message w (Z_toString (now s / 1000)) adapted);
                     EvLog Info line ])
    /\ (truthy_opt_string (MICRO_BACKEND_URL (env w)) = true ->
        truthy_opt_string (MICRO_BACKEND_HMAC_SECRET (env w)) = true ->
        params_payload params <> JNull ->
        params_payload params <> JUndefined ->
        (1 <= n)%nat).
Proof.
  pose (blank := mkEnvelope EmptyString JUndefined JUndefined JUndefined EmptyString
                            JUndefined EmptyString).
  destruct (truthy_opt_string (MICRO_BACKEND_URL (env w))) eqn:Hurl.
  2:{ eexists [_], [], blank, 0%nat. unfold forwardToMicroBackend. rewrite Hurl. simpl.
      split; [reflexivity |]. split; [repeat constructor |]. split; [simpl; lia |].
      split; [constructor |]. split; [reflexivity |]. split; [lia |].
      split; [lia | discriminate]. }
  destruct (truthy_opt_string (MICRO_BACKEND_HMAC_SECRET (env w))) eqn:Hsecret.
  2:{ eexists [_], [], blank, 0%nat. unfold forwardToMicroBackend. rewrite Hurl, Hsecret. simpl.
      split; [reflexivity |]. split; [repeat constructor |]. split; [simpl; lia |].
      split; [constructor |]. split; [reflexivity |]. split; [lia |].
      split; [lia | discriminate]. }
  destruct (nullish_or_readable (params_payload params)) as [Hp | [Hp | [Hnull Hundef]]].
  1,2: exists [], [], blank, 0%nat; unfold forwardToMicroBackend;
       rewrite Hurl, Hsecret; cbn [negb]; unfold bind at 1, adapt; rewrite Hp; simpl;
       rewrite app_nil_r;
       (split; [reflexivity |]); (split; [constructor |]); (split; [simpl; lia |]);
       (split; [constructor |]); (split; [reflexivity |]); (split; [lia |]);
       (split; [lia | intros _ _ Hn Hu; congruence]).
  destruct (forwardToMicroBackend_configured w params s Hurl Hsecret Hnull Hundef)
    as (adapted & s1 & Hadapt & _ & _ & _ & Htr1 & Hrun).
  set (req := outbound_request w params (now s) adapted) in *.
  rewrite Hrun.
  destruct (total_returns (forwardWithRetry w (url req) adapted (headers req)
                             MAX_MICRO_BACKEND_RETRIES) s1)
    as (result & s2 & Hloop); [apply total_forwardWithRetry |].
  destruct (emits_forward_loop w (send_event req) (url req) adapted (headers req)
              MAX_MICRO_BACKEND_RETRIES MAX_MICRO_BACKEND_RETRIES)
    with (attempt := 1%nat) (lastError := @None JsError) (s := s1)
    as (evs & Htr2 & Hall & _).
  { intros ev Hkind. right. exact Hkind. }
  { left. reflexivity. }
  destruct (forward_loop_posts_some w (url req) adapted (headers req)
              MAX_MICRO_BACKEND_RETRIES 2 1%nat None s1)
    as (n & Hn & Hposts).
  change (forward_loop w (url req) adapted (headers req) MAX_MICRO_BACKEND_RETRIES 3 1 None)
    with (forwardWithRetry w (url req) adapted (headers req) MAX_MICRO_BACKEND_RETRIES)
    in Hposts.
  fold (forwardWithRetry w (url req) adapted (headers req) MAX_MICRO_BACKEND_RETRIES)
    in Htr2.
  rewrite Hloop in Htr2, Hposts. simpl in Htr2, Hposts.
  rewrite Htr2, posts_app in Hposts. apply app_inv_head in Hposts.
  rewrite (bind_returned _ _ _ _ _ Hloop).
  exists [ EvClock (now s); EvClock (now s);
           EvHmac (default EmptyString (MICRO_BACKEND_HMAC_SECRET (env w)))
                  (canonical_message w (Z_toString (now s / 1000)) adapted);
           EvLog Info ("Forwarding to micro-backend: url=" +:+ url req
                       +:+ " internalEventId=" +:+ params_internalEventId params
                       +:+ " correlationId=" +:+ interpolate (params_correlationId params)) ].
  exists (evs ++ if negb (ok result)
                 then [EvLog Error ("Failed to forward to micro-backend: "
                                    +:+ Z_toString (result_status result) +:+ " "
                                    +:+ interpolate_json (Number_toString w) (body result))]
                 else []).
  exists adapted, n.
  split.
  { destruct (negb (ok result)); simpl; rewrite Htr2, Htr1, <- ?app_assoc;
      [reflexivity | rewrite app_nil_r; reflexivity]. }
  split; [repeat constructor |].
  split; [simpl; lia |].
  split.
  { apply Forall_app. split; [exact Hall |].
    destruct (negb (ok result));
      [constructor; [right; reflexivity | constructor] | constructor]. }
  split.
  { rewrite posts_app, Hposts. destruct (negb (ok result)); simpl; apply app_nil_r. }
  split; [unfold MAX_MICRO_BACKEND_RETRIES; lia |].
  split; [| intros _ _ _ _; lia].
  intros _. split; [exact Hadapt |]. eexists. reflexivity.
Qed.





(** ** Pipeline *)

Lemma handleWebhookEntry_halves (w : World) (req : Request) :
  handleWebhookEntry w req = try_catch (handler_try w req) (handler_catch w req).
Proof. reflexivity. Qed.

Lemma replies_respond code json : replies code json (respond code json).
Proof. intros s. exists []. split; [constructor | reflexivity]. Qed.

Lemma replies_bind {A B} code json (m : M A) (k : A -> M B) :
  emits (of_kinds before_response) m ->
  (forall a, replies code json (k a)) ->
  replies code json (bind m k).
Proof.
  intros Hm Hk s. unfold bind.
  destruct (Hm s) as (evs & Htr & Hall & _).
  destruct (m s) as [[a | e] s1]; simpl in *.
  - destruct (Hk a s1) as (evs' & Hall' & Htr').
    exists (evs ++ evs'). split; [apply Forall_app; auto |].
    rewrite Htr', Htr, <- !app_assoc. reflexivity.
  - exists evs. split; [assumption |]. rewrite app_nil_r. assumption.
Qed.

Lemma responses_before_response (evs : list Event) :
  Forall (of_kinds before_response) evs -> responses evs = [].
Proof.
  induction 1 as [| ev evs Hev _ IH]; [reflexivity |].
  destruct ev; try discriminate Hev; exact IH.
Qed.

Section HandlerRuns.
Variable w : World.
Variable req : Request.

Lemma forward_params_readable :
  params_payload (forward_params req) <> JNull
  /\ params_payload (forward_params req) <> JUndefined.
Proof.
  apply truthy_not_nullish. unfold forward_params, js_or. simpl.
  destruct (truthy (req_normalizedPayload req)) eqn:H; [exact H | reflexivity].
Qed.

Lemma emits_record_outcome result :
  emits (of_kinds before_response) (record_outcome w req result).
Proof.
  unfold record_outcome. destruct (negb (ok result)).
  - apply emits_bind; [apply emits_logger; reflexivity |]. intros _.
    apply emits_logFailure; [intros ev H; revert H; apply kind_among_sub; reflexivity |].
    reflexivity.
  - apply emits_logSuccess; [intros ev H; revert H; apply kind_among_sub; reflexivity |].
    reflexivity.
Qed.

Lemma total_record_outcome result : total (record_outcome w req result).
Proof.
  unfold record_outcome. destruct (negb (ok result)).
  - apply total_bind; [apply total_logger | intros _; apply total_logFailure].
  - apply total_logSuccess.
Qed.

Lemma replies_handler_try : replies 202 (accepted_json req) (handler_try w req).
Proof.
  unfold handler_try.
  apply replies_bind.
  { apply emits_getDb. intros ev H. revert H. apply kind_among_sub. reflexivity. }
  intros _. apply replies_bind.
  { apply emits_ensureCollection. intros ev H. revert H. apply kind_among_sub. reflexivity. }
  intros _. apply replies_bind.
  { apply emits_forwardToDestination. intros ev H. revert H. apply kind_among_sub.
    reflexivity. }
  intros result. apply replies_bind; [apply emits_record_outcome |].
  intros _. apply replies_respond.
Qed.

Lemma replies_handler_catch err :
  replies 500 (internal_error_json req) (handler_catch w req err).
Proof.
  unfold handler_catch.
  apply replies_bind; [apply emits_logger; reflexivity |].
  intros _. apply replies_bind; [| intros _; apply replies_respond].
  apply emits_try_catch; [| intros logErr; apply emits_logger; reflexivity].
  apply emits_bind.
  { apply emits_getDb. intros ev H. revert H. apply kind_among_sub. reflexivity. }
  intros _.
  apply emits_logFailure; [intros ev H; revert H; apply kind_among_sub; reflexivity |].
  reflexivity.
Qed.

Lemma total_handler_catch err : total (handler_catch w req err).
Proof.
  unfold handler_catch.
  apply total_bind; [apply total_logger |]. intros _.
  apply total_bind; [| intros _; apply total_respond].
  apply total_try_catch. intros logErr. apply total_logger.
Qed.

Lemma handler_try_returns (s : State) :
  match (handler_try w req s).1 with
  | Returned _ => try_returns w req s = true
  | Thrown _ => try_returns w req s = false
  end.
Proof.
  unfold handler_try, try_returns.
  destruct (getDb w s) as [[[] | e] s1] eqn:Hdb; simpl.
  2:{ rewrite (bind_thrown _ _ _ _ _ Hdb). reflexivity. }
  rewrite (bind_returned _ _ _ _ _ Hdb).
  destruct (total_returns (ensureCollection w) s1 (total_ensureCollection w))
    as ([] & s2 & Hens).
  rewrite (bind_returned _ _ _ _ _ Hens).
  assert (Hrest : forall result s3,
             (bind (record_outcome w req result)
                   (fun _ => respond 202 (accepted_json req)) s3).1 = Returned tt).
  { intros result s3.
    destruct (total_returns (record_outcome w req result) s3 (total_record_outcome result))
      as ([] & s4 & Hrec).
    rewrite (bind_returned _ _ _ _ _ Hrec). reflexivity. }
  unfold forwardToDestination.
  destruct (FORWARD_TO_MICRO_BACKEND_ONLY (env w)).
  - destruct forward_params_readable as [Hnull Hundef].
    destruct (total_returns (forwardToMicroBackend w (forward_params req)) s2
                (total_forwardToMicroBackend w _ Hnull Hundef))
      as (result & s3 & Hfwd).
    rewrite (bind_returned _ _ _ _ _ Hfwd), Hrest. reflexivity.
  - unfold bind at 1, callForwardToN8n.
    destruct (forwardToN8n w (forward_params req)) as [result | e]; [| reflexivity].
    rewrite Hrest. reflexivity.
Qed.
End HandlerRuns.

(** One run of the handler: it returns normally, and its trace is a
    sequence of effects none of which is a response, followed by exactly
    one response, 202 when the [try] block returned and 500 otherwise. *)
Lemma handler_run (w : World) (req : Request) (s : State) :
  exists evs,
    (handleWebhookEntry w req s).1 = Returned tt
    /\ Forall (of_kinds before_response) evs
    /\ trace (handleWebhookEntry w req s).2
       = trace s ++ evs ++
         [if try_returns w req s then EvRespond 202 (accepted_json req)
          else EvRespond 500 (internal_error_json req)].
Proof.
  rewrite handleWebhookEntry_halves. unfold try_catch.
  destruct (replies_handler_try w req s) as (evs & Hall & Htr).
  pose proof (handler_try_returns w req s) as Hret.
  destruct (handler_try w req s) as [[[] | e] s1]; simpl in *.
  - exists evs. rewrite Hret. auto.
  - rewrite app_nil_r in Htr.
    destruct (replies_handler_catch w req e s1) as (evs' & Hall' & Htr').
    destruct (total_handler_catch w req e s1) as ([] & Hcatch).
    rewrite Hcatch in Htr'. rewrite Hret.
    exists (evs ++ evs'). split; [exact Hcatch |]. split; [apply Forall_app; auto |].
    rewrite Htr', Htr, <- !app_assoc. reflexivity.
Qed.

(** C1, as the code has it: the handler awaits the forwarder and the
    recorder before it answers.  Its single response, 202 or 500, is the
    last effect of the unit of work: every call of [http.post], every wait
    between retries, the call of the legacy forwarder and every upsert of
    the outcome come before it. *)
Theorem acknowledgement_follows_forwarding :
  forall (w : World) (req : Request) (s : State),
    exists (evs : list Event) (code : Z) (json : jsval),
      (handleWebhookEntry w req s).1 = Returned tt
      /\ trace (handleWebhookEntry w req s).2 = trace s ++ evs ++ [EvRespond code json]
      /\ Forall (fun ev => kind ev <> KRespond) evs
      /\ posts (trace (handleWebhookEntry w req s).2) = posts (trace s) ++ posts evs
      /\ (code = 202 \/ code = 500).
Proof.
  intros w req s. destruct (handler_run w req s) as (evs & Hret & Hall & Htr).
  exists evs.
  exists (if try_returns w req s then 202 else 500).
  exists (if try_returns w req s then accepted_json req else internal_error_json req).
  split; [exact Hret |].
  split; [rewrite Htr; destruct (try_returns w req s); reflexivity |].
  split.
  { eapply Forall_impl; [exact Hall |]. intros ev Hkind Heq.
    unfold of_kinds in Hkind. rewrite Heq in Hkind. discriminate. }
  split.
  { rewrite Htr, !posts_app. destruct (try_returns w req s); simpl; rewrite app_nil_r;
      reflexivity. }
  destruct (try_returns w req s); auto.
Qed.

(** C1 as stated fails: in a run where the first attempt succeeds at once,
    the call of [http.post] is in the trace before the 202 response, and no
    response precedes it. *)
Lemma forwarding_precedes_acknowledgement :
  exists before req between json,
    trace (handleWebhookEntry (Samples.scripted [] (Some "mongodb://localhost:27017"%string))
                              Samples.request (Samples.start 1767182400123)).2
    = before ++ [EvHttpPost req] ++ between ++ [EvRespond 202 json]
    /\ responses before = []
    /\ posts before = [].
Proof.
  match goal with |- context [trace ?x] => set (tr := trace x) end.
  exists (take 11 tr). eexists. exists (take 3 (drop 12 tr)). eexists.
  split; [vm_compute; reflexivity |].
  split; vm_compute; reflexivity.
Qed.



(** A run where [getDb] throws: with [MONGO_URI] unset the request is
    answered 500 and no call of [http.post] has been made. *)
Lemma validated_request_answered_500 :
  responses
    (trace (handleWebhookEntry (Samples.scripted [] None) Samples.request
                               (Samples.start 1767182400123)).2)
  = [(500, internal_error_json Samples.request)]
  /\ posts
       (trace (handleWebhookEntry (Samples.scripted [] None) Samples.request
                                  (Samples.start 1767182400123)).2)
     = [].
Proof. split; vm_compute; reflexivity. Qed.

(** ** The scenario: two 500s, then 201 *)

Section HttpView.
Variable w : World.

Lemma keeps_http_view_logger level msg : keeps http_view (logger level msg).
Proof.
  intros s. unfold http_view. simpl. rewrite posts_app. simpl. rewrite app_nil_r. reflexivity.
Qed.

Lemma keeps_http_view_fault (fault : State -> option string) (f : State -> State) :
  (forall s, http_view (f s) = http_view s) ->
  keeps http_view (fun s => fault_or_unit (fault s) (f s)).
Proof. intros Hf s. unfold fault_or_unit. destruct (fault s); simpl; apply Hf. Qed.

Lemma keeps_http_view_getDb : keeps http_view (getDb w).
Proof.
  unfold getDb.
  apply keeps_bind; [apply keeps_when, keeps_http_view_logger |]. intros _.
  apply keeps_bind; [apply keeps_read |]. intros opened.
  destruct opened; [apply keeps_ret |].
  destruct (negb (truthy_opt_string (MONGO_URI w))); [apply keeps_throw |].
  apply keeps_bind.
  { apply (keeps_http_view_fault (fun s => connect_fault w (connect_calls s))).
    intros s. unfold http_view. simpl. rewrite posts_app. simpl. rewrite app_nil_r.
    reflexivity. }
  intros _. apply keeps_bind; [intros s; reflexivity |].
  intros _. apply keeps_bind.
  { apply (keeps_http_view_fault (fun s => ensureIndexes_fault w (connect_calls s))).
    intros s. unfold http_view. simpl. rewrite posts_app. simpl. rewrite app_nil_r.
    reflexivity. }
  intros _. apply keeps_bind; [apply keeps_http_view_logger | intros _; apply keeps_ret].
Qed.

Lemma keeps_http_view_createIndex : keeps http_view (createIndex w).
Proof.
  apply (keeps_http_view_fault (fun s => mongo_fault w (mongo_calls s))).
  intros s. unfold http_view. simpl. rewrite posts_app. simpl. rewrite app_nil_r.
  reflexivity.
Qed.

Lemma keeps_http_view_ensureCollection : keeps http_view (ensureCollection w).
Proof.
  unfold ensureCollection. apply keeps_try_catch.
  - repeat (apply keeps_bind; [apply keeps_http_view_createIndex | intros _]).
    apply keeps_http_view_createIndex.
  - intros e. apply keeps_http_view_logger.
Qed.
End HttpView.

(** C4: with the default policy of three attempts, when the first two calls
    of [http.post] are rejected with status 500 and the third resolves with
    201, the client makes exactly three calls and returns [ok = true] with
    status 201; the handler, given a reachable database, then leaves a
    record with status [success] for the event. *)
Theorem two_500s_then_201_is_stored_as_success :
  forall (w : World) (req : Request) (s : State),
    (forall r, exists e resp,
        http_post w (http_calls s) r = Thrown e
        /\ response e = Some resp /\ status resp = 500) ->
    (forall r, exists e resp,
        http_post w (S (http_calls s)) r = Thrown e
        /\ response e = Some resp /\ status resp = 500) ->
    (forall r, exists d, http_post w (S (S (http_calls s))) r = Returned (mkResponse 201 d)) ->
    FORWARD_TO_MICRO_BACKEND_ONLY (env w) = true ->
    truthy_opt_string (MICRO_BACKEND_URL (env w)) = true ->
    truthy_opt_string (MICRO_BACKEND_HMAC_SECRET (env w)) = true ->
    (getDb w s).1 = Returned tt ->
    (forall n, mongo_fault w n = None) ->
    (forall url payload headers s0,
        http_calls s0 = http_calls s ->
        exists d s0',
          forwardWithRetry w url payload headers MAX_MICRO_BACKEND_RETRIES s0
          = (Returned (mkResult true 201 d), s0')
          /\ http_calls s0' = (http_calls s0 + 3)%nat
          /\ posts (trace s0') = posts (trace s0) ++ replicate 3 (mkRequest url payload headers))
    /\ exists doc,
         (handleWebhookEntry w req s).1 = Returned tt
         /\ webhook_events (handleWebhookEntry w req s).2 !! req_internal_event_id req
            = Some doc
         /\ EventLog.status doc = EventLog.success
         /\ length (posts (trace (handleWebhookEntry w req s).2))
            = (length (posts (trace s)) + 3)%nat
         /\ responses (trace (handleWebhookEntry w req s).2)
            = responses (trace s) ++ [(202, accepted_json req)].
Proof.
  intros w req s H1 H2 H3 Hflag Hurl Hsecret Hdb Hmongo.
  assert (Hclient : forall url payload headers s0,
             http_calls s0 = http_calls s ->
             exists d s0',
               forwardWithRetry w url payload headers MAX_MICRO_BACKEND_RETRIES s0
               = (Returned (mkResult true 201 d), s0')
               /\ http_calls s0' = (http_calls s0 + 3)%nat
               /\ posts (trace s0') = posts (trace s0)
                                      ++ replicate 3 (mkRequest url payload headers)
               /\ webhook_events s0' = webhook_events s0).
  { intros url payload headers s0 Hcalls.
    destruct (H3 (mkRequest url payload headers)) as (d & Hthird).
    destruct (forward_loop_decided w url payload headers MAX_MICRO_BACKEND_RETRIES 2 s0
                (mkResult true 201 d)) as (s0' & Hrun & Hcalls' & Hposts & Hdocs).
    - unfold MAX_MICRO_BACKEND_RETRIES. lia.
    - intros i Hi. rewrite Hcalls.
      assert (Hcase : i = 0%nat \/ i = 1%nat) by lia.
      destruct Hcase as [-> | ->].
      + destruct (H1 (mkRequest url payload headers)) as (e & resp & He & Hresp & Hst).
        exists e. rewrite Nat.add_0_r. split; [exact He |].
        unfold retryable. rewrite Hresp. simpl. rewrite Hst. reflexivity.
      + destruct (H2 (mkRequest url payload headers)) as (e & resp & He & Hresp & Hst).
        exists e. replace (http_calls s + 1)%nat with (S (http_calls s)) by lia.
        split; [exact He |].
        unfold retryable. rewrite Hresp. simpl. rewrite Hst. reflexivity.
    - rewrite Hcalls. replace (http_calls s + 2)%nat with (S (S (http_calls s))) by lia.
      rewrite Hthird. reflexivity.
    - exists d, s0'. rewrite Hrun, Hcalls', Hposts, Hdocs.
      repeat split; lia. }
  split.
  { intros url payload headers s0 Hcalls.
    destruct (Hclient url payload headers s0 Hcalls) as (d & s0' & Hrun & Hc & Hp & _).
    exists d, s0'. auto. }
  assert (Hresponses :
            responses (trace (handleWebhookEntry w req s).2)
            = responses (trace s) ++ [(202, accepted_json req)]).
  { destruct (handler_run w req s) as (evs & _ & Hall & Htr).
    unfold try_returns in Htr. rewrite Hdb, Hflag in Htr. rewrite Htr.
    unfold responses. rewrite !omap_app.
    fold (responses evs). rewrite (responses_before_response evs Hall). reflexivity. }
  (* the handler, stage by stage *)
  destruct (getDb w s) as [r1 s1] eqn:Hget. simpl in Hdb. subst r1.
  pose proof (keeps_http_view_getDb w s) as Hview1. rewrite Hget in Hview1. simpl in Hview1.
  destruct (total_returns (ensureCollection w) s1 (total_ensureCollection w))
    as ([] & s2 & Hens).
  pose proof (keeps_http_view_ensureCollection w s1) as Hview2.
  rewrite Hens in Hview2. simpl in Hview2.
  destruct (forward_params_readable req) as [Hnull Hundef].
  destruct (forwardToMicroBackend_configured w (forward_params req) s2
              Hurl Hsecret Hnull Hundef)
    as (adapted & s3 & _ & _ & Hcalls3 & Hdocs3 & Htr3 & Hrun3).
  set (out := outbound_request w (forward_params req) (now s2) adapted) in *.
  assert (Hcalls : http_calls s3 = http_calls s).
  { rewrite Hcalls3. unfold http_view in Hview1, Hview2. congruence. }
  destruct (Hclient (url out) adapted (headers out) s3 Hcalls)
    as (d & s4 & Hloop & Hcalls4 & Hposts4 & Hdocs4).
  assert (Hfwd : forwardToDestination w (forward_params req) s2
                 = (Returned (mkResult true 201 d), s4)).
  { unfold forwardToDestination. rewrite Hflag, Hrun3.
    rewrite (bind_returned _ _ _ _ _ Hloop). reflexivity. }
  destruct (log_stores w
              {| EventLog.event_id := req_internal_event_id req;
                 EventLog.env := APP_ENV (env w);
                 EventLog.service_role := SERVICE_ROLE (env w);
                 EventLog.source := "webhook";
                 EventLog.error_code := EventLog.Absent;
                 EventLog.error_message := EventLog.Absent;
                 EventLog.last_error := EventLog.Absent;
                 EventLog.retry_count := 0;
                 EventLog.status := EventLog.success;
                 EventLog.response_status := EventLog.Present 200;
                 EventLog.timestamp := now s4;
                 EventLog.correlation_id := EventLog.of_option (req_correlationId req);
                 EventLog.raw_payload := EventLog.Absent |}
              (emit (EvClock (now s4)) s4) (Hmongo _))
    as (s5 & doc & Hlog & Hlookup & Hstatus & _ & _ & Htr5).
  assert (Hrec : record_outcome w req (mkResult true 201 d) s4 = (Returned tt, s5)).
  { unfold record_outcome, logSuccess. cbn [ok negb].
    erewrite bind_returned by (cbv [Date_now]; reflexivity). exact Hlog. }
  assert (Htry : handler_try w req s
                 = (Returned tt, emit (EvRespond 202 (accepted_json req)) s5)).
  { unfold handler_try.
    rewrite (bind_returned _ _ _ _ _ Hget), (bind_returned _ _ _ _ _ Hens),
      (bind_returned _ _ _ _ _ Hfwd), (bind_returned _ _ _ _ _ Hrec).
    reflexivity. }
  exists doc. split; [| split; [| split; [| split; [| exact Hresponses]]]];
    rewrite ?handleWebhookEntry_halves, ?(try_catch_returned _ _ _ _ _ Htry); simpl.
  - reflexivity.
  - exact Hlookup.
  - exact Hstatus.
  - rewrite Htr5. simpl. rewrite !posts_app, Hposts4, Htr3, posts_app. simpl.
    rewrite !app_nil_r, length_app.
    unfold http_view in Hview1, Hview2.
    assert (Hp : posts (trace s2) = posts (trace s)) by congruence.
    rewrite Hp. reflexivity.
Qed.

Lemma two_500s_then_201_is_stored_as_success_witness :
  (exists d s',
      forwardWithRetry Samples.flaky "http://localhost:3000/api/v1/flow/create"
        (mkEnvelope "webhook-gateway" (JStr "user.created") (JStr "evt_123")
                    Samples.testPayload "2025-12-31T12:00:00.123Z" JUndefined "evt_789")
        ∅ MAX_MICRO_BACKEND_RETRIES (Samples.start 1767182400123)
      = (Returned (mkResult true 201 d), s')
      /\ http_calls s' = 3%nat)
  /\ exists doc,
       webhook_events
         (handleWebhookEntry Samples.flaky Samples.request (Samples.start 1767182400123)).2
         !! "evt_789"%string = Some doc
       /\ EventLog.status doc = EventLog.success
       /\ length (posts (trace (handleWebhookEntry Samples.flaky Samples.request
                                                   (Samples.start 1767182400123)).2))
          = 3%nat.
Proof.
  destruct (two_500s_then_201_is_stored_as_success
              Samples.flaky Samples.request (Samples.start 1767182400123))
    as (Hclient & doc & _ & Hdoc & Hstatus & Hposts & _).
  - intros r. eexists. eexists. split; [reflexivity |]. split; reflexivity.
  - intros r. eexists. eexists. split; [reflexivity |]. split; reflexivity.
  - intros r. eexists. reflexivity.
  - reflexivity.
  - reflexivity.
  - reflexivity.
  - vm_compute. reflexivity.
  - intros n. reflexivity.
  - split.
    + destruct (Hclient "http://localhost:3000/api/v1/flow/create"%string
                  (mkEnvelope "webhook-gateway" (JStr "user.created") (JStr "evt_123")
                     Samples.testPayload "2025-12-31T12:00:00.123Z" JUndefined "evt_789")
                  ∅ (Samples.start 1767182400123) eq_refl) as (d & s' & Hrun & Hcalls & _).
      exists d, s'. split; [exact Hrun | exact Hcalls].
    + exists doc. split; [exact Hdoc |]. split; [exact Hstatus | exact Hposts].
Defined.

(** * Further properties of the code *)

(** ** The two retry classifications *)

(** The retry loop of [forwardWithRetry] and [isRetryableError] classify a
    rejection alike exactly when it carries no status or a status from 400
    on other than 408: the loop gives up on 408, which the policy would
    retry, and retries a rejection with a status below 400, which the
    policy would not. *)
Theorem retry_classifications_agree :
  forall status : option Z,
    negb (non_retryable status) = Retry.isRetryableError status
    <-> (status = None \/ exists st, status = Some st /\ 400 <= st /\ st <> 408).
Proof.
  intros [st |]; unfold non_retryable, Retry.isRetryableError.
  2:{ split; [left; reflexivity | reflexivity]. }
  destruct (Z.eqb_spec st 0), (Z.leb_spec 400 st), (Z.ltb_spec st 500),
    (Z.eqb_spec st 429), (Z.leb_spec 500 st), (Z.eqb_spec st 408),
    (Z.leb_spec 200 st), (Z.ltb_spec st 300); simpl;
    (split;
     [ intros Hagree; try discriminate Hagree; try lia; right; exists st; repeat split; lia
     | intros [Hnone | (st' & [= <-] & Hfrom & Hnot)];
       try discriminate Hnone; try reflexivity; lia ]).
Qed.

(** A failure record is [failed] only when the retry policy allows no
    further attempt, but not conversely: with retry count 5 the policy
    allows no further attempt and the record still reads [processing]. *)
Theorem failed_status_lags_the_retry_policy :
  forall (w : World) (eventId errorCode errorMessage : string) (retryCount : Z)
         (correlationId : option string) (responseStatus : option Z) (s : State),
    exists evs,
      trace (logFailure w eventId errorCode errorMessage retryCount correlationId
                        responseStatus s).2 = trace s ++ evs
      /\ updates evs <> []
      /\ forall doc, doc ∈ updates evs ->
           (EventLog.status doc = EventLog.failed ->
            Retry.canRetry retryCount Retry.WEBHOOK_RETRY_POLICY = false)
           /\ (EventLog.status doc = EventLog.processing
               /\ Retry.canRetry retryCount Retry.WEBHOOK_RETRY_POLICY = false
               <-> retryCount = 5).
Proof.
  intros w eventId errorCode errorMessage retryCount correlationId responseStatus s.
  exists (drop (length (trace s))
               (trace (logFailure w eventId errorCode errorMessage retryCount correlationId
                                  responseStatus s).2)).
  unfold logFailure, bind, Date_now, log, try_catch, updateOne_upsert, logger, effect.
  destruct (mongo_fault w (mongo_calls (emit (EvClock (now s)) s))) eqn:Hfault;
    simpl; rewrite <- ?app_assoc, drop_app_length; simpl;
    (split; [reflexivity |]); (split; [discriminate |]);
    intros doc Hdoc; apply list_elem_of_singleton in Hdoc; subst doc; simpl;
    unfold Retry.canRetry; simpl;
    destruct (Z.ltb_spec 5 retryCount), (Z.ltb_spec retryCount 5);
    (split; [intros Hfailed | split; [intros [Hproc Hno] | intros Hfive]]);
    try discriminate; try lia; try reflexivity; try (split; (reflexivity || lia)).
Qed.

(** ** Every run of the retry loop *)

Lemma sleeps_app (tr tr' : list Event) : sleeps (tr ++ tr') = sleeps tr ++ sleeps tr'.
Proof. apply omap_app. Qed.

Section RetryRuns.
Variable w : World.
Variables (url : string) (payload : AdaptedEnvelope) (headers : gmap string string).
Variable maxRetries : nat.

Let req := mkRequest url payload headers.

(** One attempt: its result, the call it makes and, when the rejection is
    one the loop retries and an attempt is left, the jitter it draws and
    the wait it makes. *)
Lemma forward_attempt_full (attempt : nat) (s : State) :
  exists s',
    forward_attempt w url payload headers maxRetries attempt s
    = (Returned (attempt_result (http_post w (http_calls s) req)), s')
    /\ http_calls s' = S (http_calls s)
    /\ posts (trace s') = posts (trace s) ++ [req]
    /\ sleeps (trace s')
       = sleeps (trace s)
         ++ match attempt_result (http_post w (http_calls s) req) with
            | inr _ => if (attempt <? maxRetries)%nat
                       then [backoff_delay w attempt (jitter_calls s)] else []
            | inl _ => []
            end
    /\ jitter_calls s'
       = (jitter_calls s
          + match attempt_result (http_post w (http_calls s) req) with
            | inr _ => if (attempt <? maxRetries)%nat then 1 else 0
            | inl _ => 0
            end)%nat.
Proof.
  unfold forward_attempt, try_catch, bind, post. fold req. simpl.
  destruct (http_post w (http_calls s) req) as [res | err]; simpl.
  - eexists. split; [reflexivity |]. simpl.
    rewrite !posts_app, !sleeps_app. simpl. rewrite !app_nil_r. auto.
  - destruct (non_retryable (option_map status (response err))); simpl.
    + eexists. split; [reflexivity |]. simpl.
      rewrite !posts_app, !sleeps_app. simpl. rewrite !app_nil_r. auto.
    + destruct (attempt <? maxRetries)%nat; simpl.
      * eexists. split; [reflexivity |]. simpl.
        rewrite !posts_app, !sleeps_app. simpl. rewrite !app_nil_r.
        repeat split; lia.
      * eexists. split; [reflexivity |]. simpl.
        rewrite !posts_app, !sleeps_app. simpl. rewrite !app_nil_r. auto.
Qed.

(** The loop from attempt number [attempt] on, when [remaining] iterations
    are left of [maxRetries]: it makes [n] calls, waits before each call
    but the first, and ends in one of three ways. *)
Lemma forward_loop_run (remaining : nat) :
  forall (attempt : nat) (lastError : option JsError) (s : State),
    (attempt + remaining = S maxRetries)%nat ->
    exists (n : nat) (r : ForwardResult) (s' : State),
      forward_loop w url payload headers maxRetries remaining attempt lastError s
      = (Returned r, s')
      /\ (n <= remaining)%nat
      /\ (0 < remaining -> 0 < n)%nat
      /\ http_calls s' = (http_calls s + n)%nat
      /\ posts (trace s') = posts (trace s) ++ replicate n req
      /\ sleeps (trace s')
         = sleeps (trace s)
           ++ List.map (fun i => backoff_delay w (attempt + i) (jitter_calls s + i))
                       (seq 0 (n - 1))
      /\ (forall i, (S i < n)%nat ->
            exists err, http_post w (http_calls s + i) req = Thrown err /\ retryable err)
      /\ ((exists res,
              (0 < n)%nat
              /\ http_post w (http_calls s + (n - 1)) req = Returned res
              /\ r = mkResult true (status res) (data res))
          \/ (exists err resp,
                 (0 < n)%nat
                 /\ http_post w (http_calls s + (n - 1)) req = Thrown err
                 /\ response err = Some resp
                 /\ non_retryable (Some (status resp)) = true
                 /\ r = mkResult false (status resp) (data resp))
          \/ (exists last,
                 n = remaining
                 /\ r = mkResult false 0
                          (JObj [("error"%string, of_opt_string (option_map message last))])
                 /\ ((n = 0%nat /\ last = lastError)
                     \/ exists err,
                          (0 < n)%nat
                          /\ http_post w (http_calls s + (n - 1)) req = Thrown err
                          /\ retryable err
                          /\ last = Some err))).
Proof.
  induction remaining as [| remaining IH]; intros attempt lastError s Hsum.
  - exists 0%nat. eexists. eexists. split; [reflexivity |]. simpl.
    rewrite posts_app, sleeps_app. simpl. rewrite !app_nil_r, Nat.add_0_r.
    repeat split; try lia.
    right. right. exists lastError. split; [reflexivity |]. split; [reflexivity |].
    left. auto.
  - destruct (forward_attempt_full attempt s) as (s1 & Hrun & Hcalls & Hposts & Hsleeps & Hjit).
    cbn [forward_loop]. rewrite (bind_returned _ _ _ _ _ Hrun).
    destruct (http_post w (http_calls s) req) as [res | err] eqn:Hanswer.
    + (* the call resolves *)
      simpl in *. exists 1%nat, (mkResult true (status res) (data res)), s1.
      split; [reflexivity |]. rewrite Hcalls, Hposts, Hsleeps. simpl. rewrite app_nil_r.
      repeat split; try lia.
      left. exists res. rewrite Nat.add_0_r. auto with lia.
    + unfold attempt_result in *.
      destruct (non_retryable (option_map status (response err))) eqn:Hclass.
      * (* a rejection the loop does not retry *)
        destruct (response err) as [resp |] eqn:Hresp; [| discriminate Hclass].
        simpl in *. exists 1%nat, (mkResult false (status resp) (data resp)), s1.
        split; [reflexivity |]. rewrite Hcalls, Hposts, Hsleeps. simpl. rewrite app_nil_r.
        repeat split; try lia.
        right. left. exists err, resp. rewrite Nat.add_0_r. auto with lia.
      * (* a rejection the loop retries *)
        destruct (IH (S attempt) (Some err) s1) as (n & r & s' & Hloop & Hle & Hpos & Hc & Hp & Hs & Hall & Hend);
          [lia |].
        exists (S n), r, s'. split; [exact Hloop |].
        split; [lia |]. split; [lia |].
        split; [rewrite Hc, Hcalls; lia |].
        split; [rewrite Hp, Hposts, <- app_assoc; reflexivity |].
        split.
        { rewrite Hs, Hsleeps, <- app_assoc. f_equal.
          replace (S n - 1)%nat with n by lia.
          destruct remaining as [| remaining'].
          - assert (n = 0%nat) by lia. subst n.
            assert (Hlast : (attempt <? maxRetries)%nat = false) by (apply Nat.ltb_ge; lia).
            rewrite Hlast. reflexivity.
          - assert (Hleft : (attempt <? maxRetries)%nat = true) by (apply Nat.ltb_lt; lia).
            rewrite Hleft in Hjit |- *.
            destruct n as [| m]; [lia |].
            replace (S m - 1)%nat with m by lia.
            rewrite Hjit. cbn [seq List.map app]. rewrite !Nat.add_0_r. f_equal.
            rewrite <- seq_shift, List.map_map.
            apply List.map_ext. intros i. f_equal; lia. }
        split.
        { intros i Hi. destruct i as [| i].
          - exists err. rewrite Nat.add_0_r. split; [exact Hanswer | exact Hclass].
          - destruct (Hall i) as (e & He & Hr); [lia |].
            exists e. split; [| exact Hr]. rewrite Hcalls in He.
            replace (http_calls s + S i)%nat with (S (http_calls s) + i)%nat by lia. exact He. }
        assert (Hshift : forall m, (0 < m)%nat ->
                   (http_calls s + (S m - 1) = http_calls s1 + (m - 1))%nat)
          by (intros m Hm; rewrite Hcalls; lia).
        destruct Hend as [(res & Hn & Hres & ->) | [(e & resp & Hn & He & Hresp & Hcl & ->) | (last & Hn & -> & Hlast)]].
        -- left. exists res. rewrite (Hshift n Hn). auto with lia.
        -- right. left. exists e, resp. rewrite (Hshift n Hn). auto with lia.
        -- right. right.
           exists last. split; [lia |]. split; [reflexivity |]. right.
           destruct Hlast as [[Hzero Heq] | (e & Hpos' & He & Hr & Heq)].
           ++ exists err. replace (S n - 1)%nat with 0%nat by lia.
              rewrite Nat.add_0_r. subst last. auto with lia.
           ++ exists e. rewrite (Hshift n Hpos'). auto with lia.
Qed.
End RetryRuns.

Lemma non_retryable_range (st : Z) :
  non_retryable (Some st) = true -> 400 <= st < 500 /\ st <> 429 /\ st <> 0.
Proof.
  unfold non_retryable. intros H.
  apply andb_true_iff in H as [H H429]. apply andb_true_iff in H as [H H500].
  apply andb_true_iff in H as [H0 H400].
  apply negb_true_iff in H429, H0.
  apply Z.eqb_neq in H429, H0. apply Z.leb_le in H400. apply Z.ltb_lt in H500. lia.
Qed.

Lemma forwardWithRetry_exhausted :
  forall (w : World) (url : string) (payload : AdaptedEnvelope)
         (headers : gmap string string) (maxRetries : nat) (s : State),
    (0 < maxRetries)%nat ->
    (forall i, (i < maxRetries)%nat ->
       exists err,
         http_post w (http_calls s + i) (mkRequest url payload headers) = Thrown err
         /\ retryable err) ->
    exists err s',
      http_post w (http_calls s + (maxRetries - 1)) (mkRequest url payload headers)
      = Thrown err
      /\ forwardWithRetry w url payload headers maxRetries s
         = (Returned (mkResult false 0 (JObj [("error"%string, JStr (message err))])), s')
      /\ posts (trace s')
         = posts (trace s) ++ replicate maxRetries (mkRequest url payload headers)
      /\ length (sleeps (trace s')) = (length (sleeps (trace s)) + (maxRetries - 1))%nat.
Proof.
  intros w url payload headers maxRetries s Hpos Hall.
  destruct (forward_loop_run w url payload headers maxRetries maxRetries 1 None s)
    as (n & r & s' & Hrun & Hle & _ & _ & Hposts & Hsleeps & _ & Hend); [lia |].
  destruct Hend as [(res & Hn & Hres & _) | [(e & resp & Hn & He & Hresp & Hcl & _) | (last & Hn & Hr & Hlast)]].
  - destruct (Hall (n - 1)%nat) as (err & Herr & _); [lia |]. congruence.
  - destruct (Hall (n - 1)%nat) as (err & Herr & Hretry); [lia |].
    assert (err = e) by congruence. subst err.
    unfold retryable in Hretry. rewrite Hresp in Hretry. cbn [option_map] in Hretry.
    congruence.
  - destruct Hlast as [[Hzero _] | (err & _ & Herr & _ & ->)]; [lia |].
    subst n r. exists err, s'.
    split; [exact Herr |]. split; [exact Hrun |]. split; [exact Hposts |].
    rewrite Hsleeps, length_app, length_map, length_seq. reflexivity.
Qed.

(** When each of the [maxRetries] calls is rejected in a way the client
    retries (no response, a 5xx, a 429), [forwardWithRetry] makes exactly
    [maxRetries] calls with [maxRetries - 1] waits between them and returns
    [ok = false] with status 0 and the message of the last rejection: the
    HTTP status of the rejections is not reported. *)
Theorem exhausted_retries_report_status_zero :
  forall (w : World) (url : string) (payload : AdaptedEnvelope)
         (headers : gmap string string) (maxRetries : nat) (s : State),
    (0 < maxRetries)%nat ->
    (forall i, (i < maxRetries)%nat ->
       exists err,
         http_post w (http_calls s + i) (mkRequest url payload headers) = Thrown err
         /\ retryable err) ->
    exists err s',
      http_post w (http_calls s + (maxRetries - 1)) (mkRequest url payload headers)
      = Thrown err
      /\ forwardWithRetry w url payload headers maxRetries s
         = (Returned (mkResult false 0 (JObj [("error"%string, JStr (message err))])), s')
      /\ posts (trace s')
         = posts (trace s) ++ replicate maxRetries (mkRequest url payload headers)
      /\ length (sleeps (trace s')) = (length (sleeps (trace s)) + (maxRetries - 1))%nat.
Proof.
  intros w url payload headers maxRetries s Hpos Hall.
  destruct (forward_loop_run w url payload headers maxRetries maxRetries 1 None s)
    as (n & r & s' & Hrun & Hle & _ & _ & Hposts & Hsleeps & _ & Hend); [lia |].
  destruct Hend as [(res & Hn & Hres & _) | [(e & resp & Hn & He & Hresp & Hcl & _) | (last & Hn & Hr & Hlast)]].
  - destruct (Hall (n - 1)%nat) as (err & Herr & _); [lia |]. congruence.
  - destruct (Hall (n - 1)%nat) as (err & Herr & Hretry); [lia |].
    assert (err = e) by congruence. subst err.
    unfold retryable in Hretry. rewrite Hresp in Hretry. cbn [option_map] in Hretry.
    congruence.
  - destruct Hlast as [[Hzero _] | (err & _ & Herr & _ & ->)]; [lia |].
    subst n r. exists err, s'.
    split; [exact Herr |]. split; [exact Hrun |]. split; [exact Hposts |].
    rewrite Hsleeps, length_app, length_map, length_seq. reflexivity.
Qed.

Lemma exhausted_retries_report_status_zero_witness :
  exists s',
    forwardWithRetry
      (Samples.scripted [Samples.reject 503 "Service Unavailable";
                         Samples.reject 503 "Service Unavailable";
                         Samples.reject 503 "Service Unavailable"] None)
      "http://localhost:3000/api/v1/flow/create"
      (mkEnvelope "webhook-gateway" (JStr "user.created") (JStr "evt_123")
                  Samples.testPayload "2025-12-31T12:00:00.123Z" JUndefined "evt_789")
      ∅ 3 (Samples.start 1767182400123)
    = (Returned (mkResult false 0 (JObj [("error"%string, JStr "Service Unavailable")])), s')
    /\ length (posts (trace s')) = 3%nat
    /\ length (sleeps (trace s')) = 2%nat.
Proof.
  destruct (exhausted_retries_report_status_zero
              (Samples.scripted [Samples.reject 503 "Service Unavailable";
                                 Samples.reject 503 "Service Unavailable";
                                 Samples.reject 503 "Service Unavailable"] None)
              "http://localhost:3000/api/v1/flow/create"
              (mkEnvelope "webhook-gateway" (JStr "user.created") (JStr "evt_123")
                          Samples.testPayload "2025-12-31T12:00:00.123Z" JUndefined "evt_789")
              ∅ 3%nat (Samples.start 1767182400123))
    as (err & s' & Herr & Hrun & Hposts & Hsleeps).
  - lia.
  - intros i Hi. exists (mkError "Service Unavailable"
                           (Some (mkResponse 503 (JObj [("error"%string,
                                                         JStr "Service Unavailable")])))).
    destruct i as [| [| [| i]]]; [split; reflexivity .. | lia].
  - exists s'. simpl in Herr. injection Herr as <-.
    split; [exact Hrun |]. rewrite Hposts, Hsleeps. split; reflexivity.
Defined.

(** The waits of the retry loop: a run that makes [n] calls waits [n - 1]
    times, after each call but the last; the wait after attempt number [i]
    (from 1) is [2 ^ i * 1000] milliseconds plus the jitter drawn for it, so
    2 s, 4 s, 8 s ... plus jitter. *)
Theorem backoff_waits_between_attempts :
  forall (w : World) (url : string) (payload : AdaptedEnvelope)
         (headers : gmap string string) (maxRetries : nat) (s : State),
    exists n : nat,
      (n <= maxRetries)%nat
      /\ posts (trace (forwardWithRetry w url payload headers maxRetries s).2)
         = posts (trace s) ++ replicate n (mkRequest url payload headers)
      /\ sleeps (trace (forwardWithRetry w url payload headers maxRetries s).2)
         = sleeps (trace s)
           ++ List.map (fun i => backoff_delay w (1 + i) (jitter_calls s + i))
                       (seq 0 (n - 1)).
Proof.
  intros w url payload headers maxRetries s.
  destruct (forward_loop_run w url payload headers maxRetries maxRetries 1 None s)
    as (n & r & s' & Hrun & Hle & _ & _ & Hposts & Hsleeps & _); [lia |].
  exists n. unfold forwardWithRetry. rewrite Hrun. simpl. auto.
Qed.

(** [forwardWithRetry] never throws and makes at most [maxRetries] calls.
    Its result is [ok = true] exactly when its last call resolved, with the
    status and body of that response; a failed result carries a 4xx status
    other than 429, or status 0, which it has only when all [maxRetries]
    attempts were used: a 5xx or 429 status is never reported. *)
Theorem forwardWithRetry_outcomes :
  forall (w : World) (url : string) (payload : AdaptedEnvelope)
         (headers : gmap string string) (maxRetries : nat) (s : State),
    exists (n : nat) (r : ForwardResult) (s' : State),
      forwardWithRetry w url payload headers maxRetries s = (Returned r, s')
      /\ (n <= maxRetries)%nat
      /\ http_calls s' = (http_calls s + n)%nat
      /\ (ok r = true <->
          (0 < n)%nat
          /\ exists res,
               http_post w (http_calls s + (n - 1)) (mkRequest url payload headers)
               = Returned res
               /\ r = mkResult true (status res) (data res))
      /\ (ok r = false ->
          (400 <= result_status r < 500 /\ result_status r <> 429)
          \/ (result_status r = 0 /\ n = maxRetries)).
Proof.
  intros w url payload headers maxRetries s.
  destruct (forward_loop_run w url payload headers maxRetries maxRetries 1 None s)
    as (n & r & s' & Hrun & Hle & _ & Hcalls & _ & _ & _ & Hend); [lia |].
  exists n, r, s'. split; [exact Hrun |]. split; [exact Hle |]. split; [exact Hcalls |].
  destruct Hend as [(res & Hn & Hres & ->) | [(e & resp & Hn & He & Hresp & Hcl & ->) | (last & Hn & -> & Hlast)]].
  - split; [| discriminate]. split; [intros _ | reflexivity].
    split; [exact Hn |]. exists res. auto.
  - split.
    + split; [discriminate |]. intros (_ & res & Hres & _). congruence.
    + intros _. left. simpl. apply non_retryable_range in Hcl. lia.
  - split.
    + split; [discriminate |]. intros (Hpos & res & Hres & _).
      destruct Hlast as [[Hzero _] | (err & _ & Herr & _)]; [lia | congruence].
    + intros _. right. simpl. auto.
Qed.

(** ** Every run of [forwardToMicroBackend] *)

(** [forwardToMicroBackend] throws in one case only: the URL and the secret
    are configured and the payload is [null] or [undefined], so that reading
    its [type] raises a [TypeError]; nothing has been logged, signed or sent
    by then.  With the URL or the secret missing even such a payload gives a
    result. *)
Theorem forwardToMicroBackend_throws_only_on_nullish_payload :
  forall (w : World) (params : ForwardParams) (s : State),
    ((exists e, (forwardToMicroBackend w params s).1 = Thrown e)
     <-> truthy_opt_string (MICRO_BACKEND_URL (env w)) = true
         /\ truthy_opt_string (MICRO_BACKEND_HMAC_SECRET (env w)) = true
         /\ (params_payload params = JNull \/ params_payload params = JUndefined))
    /\ (forall e, (forwardToMicroBackend w params s).1 = Thrown e ->
          (forwardToMicroBackend w params s).2 = s).
Proof.
  intros w params s.
  destruct (truthy_opt_string (MICRO_BACKEND_URL (env w))) eqn:Hurl.
  2:{ unfold forwardToMicroBackend. rewrite Hurl. simpl.
      split; [split; [intros [e He]; discriminate He | intros (H & _); discriminate H] |].
      intros e He. discriminate He. }
  destruct (truthy_opt_string (MICRO_BACKEND_HMAC_SECRET (env w))) eqn:Hsecret.
  2:{ unfold forwardToMicroBackend. rewrite Hurl, Hsecret. simpl.
      split; [split; [intros [e He]; discriminate He | intros (_ & H & _); discriminate H] |].
      intros e He. discriminate He. }
  destruct (nullish_or_readable (params_payload params)) as [Hp | [Hp | [Hnull Hundef]]].
  1,2: unfold forwardToMicroBackend; rewrite Hurl, Hsecret; cbn [negb];
       unfold bind at 1, adapt; rewrite Hp; simpl;
       (split; [split; [auto | intros _; eexists; reflexivity] | reflexivity]).
  destruct (total_forwardToMicroBackend w params Hnull Hundef s) as (r & Hr).
  rewrite Hr. split; [split; [intros [e He]; discriminate He |] |].
  - intros (_ & _ & [Hp | Hp]); contradiction.
  - intros e He. discriminate He.
Qed.

Lemma posts_silent (evs : list Event) :
  Forall (of_kinds [KClock; KHmac; KLog]) evs -> posts evs = [].
Proof.
  induction 1 as [| ev evs Hev _ IH]; [reflexivity |].
  destruct ev; try discriminate Hev; exact IH.
Qed.

(** The requests of one forwarding run: none unless the URL and the secret
    are configured, and then copies of the request built from the adapted
    payload. *)
Lemma forwardToMicroBackend_posts (w : World) (params : ForwardParams) (s : State) :
  exists reqs,
    posts (trace (forwardToMicroBackend w params s).2) = posts (trace s) ++ reqs
    /\ (length reqs <= MAX_MICRO_BACKEND_RETRIES)%nat
    /\ forall req, req ∈ reqs ->
         truthy_opt_string (MICRO_BACKEND_URL (env w)) = true
         /\ truthy_opt_string (MICRO_BACKEND_HMAC_SECRET (env w)) = true
         /\ exists adapted,
              adaptPayloadForMicroBackend (now s) (params_payload params)
                (params_internalEventId params) (params_correlationId params)
              = Returned adapted
              /\ req = outbound_request w params (now s) adapted.
Proof.
  assert (Hnone : posts (trace (forwardToMicroBackend w params s).2) = posts (trace s) ->
                  exists reqs,
                    posts (trace (forwardToMicroBackend w params s).2) = posts (trace s) ++ reqs
                    /\ (length reqs <= MAX_MICRO_BACKEND_RETRIES)%nat
                    /\ forall req, req ∈ reqs ->
                         truthy_opt_string (MICRO_BACKEND_URL (env w)) = true
                         /\ truthy_opt_string (MICRO_BACKEND_HMAC_SECRET (env w)) = true
                         /\ exists adapted,
                              adaptPayloadForMicroBackend (now s) (params_payload params)
                                (params_internalEventId params) (params_correlationId params)
                              = Returned adapted
                              /\ req = outbound_request w params (now s) adapted).
  { intros H. exists []. rewrite app_nil_r. split; [exact H |].
    split; [simpl; lia |]. intros req Hreq. inversion Hreq. }
  destruct (truthy_opt_string (MICRO_BACKEND_URL (env w))) eqn:Hurl.
  2:{ apply Hnone. unfold forwardToMicroBackend. rewrite Hurl. simpl.
      rewrite posts_app. apply app_nil_r. }
  destruct (truthy_opt_string (MICRO_BACKEND_HMAC_SECRET (env w))) eqn:Hsecret.
  2:{ apply Hnone. unfold forwardToMicroBackend. rewrite Hurl, Hsecret. simpl.
      rewrite posts_app. apply app_nil_r. }
  destruct (nullish_or_readable (params_payload params)) as [Hp | [Hp | [Hnull Hundef]]].
  1,2: apply Hnone; unfold forwardToMicroBackend; rewrite Hurl, Hsecret; cbn [negb];
       unfold bind at 1, adapt; rewrite Hp; reflexivity.
  clear Hnone.
  destruct (forwardToMicroBackend_configured w params s Hurl Hsecret Hnull Hundef)
    as (adapted & s1 & Hadapt & _ & _ & _ & Htr1 & Hrun).
  set (req := outbound_request w params (now s) adapted) in *.
  destruct (total_returns (forwardWithRetry w (url req) adapted (headers req)
                             MAX_MICRO_BACKEND_RETRIES) s1)
    as (result & s2 & Hloop); [apply total_forwardWithRetry |].
  destruct (forward_loop_posts w (url req) adapted (headers req)
              MAX_MICRO_BACKEND_RETRIES MAX_MICRO_BACKEND_RETRIES 1%nat None s1)
    as (n & Hn & Hposts).
  fold (forwardWithRetry w (url req) adapted (headers req) MAX_MICRO_BACKEND_RETRIES)
    in Hposts.
  rewrite Hloop in Hposts. cbn [snd] in Hposts.
  assert (Hpre : posts (trace s1) = posts (trace s)).
  { rewrite Htr1, posts_app. simpl. apply app_nil_r. }
  rewrite Hpre in Hposts.
  exists (replicate n req). split; [| split].
  - rewrite Hrun, (bind_returned _ _ _ _ _ Hloop).
    destruct (negb (ok result)); simpl; rewrite ?posts_app, Hposts; simpl;
      rewrite ?app_nil_r; reflexivity.
  - rewrite length_replicate. exact Hn.
  - intros r Hr. apply elem_of_replicate in Hr as [-> _].
    split; [reflexivity |]. split; [reflexivity |]. exists adapted. auto.
Qed.

Lemma outbound_headers_lookup w correlationId signature timestamp :
  let h := outbound_headers w correlationId signature timestamp in
  h !! "Content-Type"%string = Some "application/json"%string
  /\ h !! "X-Device-ID"%string = Some (MICRO_BACKEND_DEVICE_ID (env w))
  /\ h !! "Authorization"%string
     = (if truthy_opt_string (MICRO_BACKEND_JWT (env w))
        then Some ("Bearer " +:+ default EmptyString (MICRO_BACKEND_JWT (env w)))
        else None)
  /\ h !! "X-Correlation-Id"%string
     = (if truthy_opt_string correlationId then correlationId else None)
  /\ forall name, is_Some (h !! name) ->
       name ∈ ["Content-Type"; "X-Signature"; "X-Timestamp"; "X-Device-ID";
               "Authorization"; "X-Correlation-Id"]%string.
Proof.
  unfold outbound_headers.
  destruct (truthy_opt_string (MICRO_BACKEND_JWT (env w)));
    (destruct correlationId as [c |];
     [destruct (truthy_opt_string (Some c)) | change (truthy_opt_string None) with false]);
    cbn [default];
    (split; [| split; [| split; [| split]]]);
    try (repeat (rewrite lookup_insert_ne by discriminate);
         first [apply lookup_insert_eq | apply lookup_empty]).
  all: try (intros name [v Hv];
    repeat (apply lookup_insert_Some in Hv as [[<- _] | [_ Hv]];
            [set_solver |]);
    rewrite lookup_empty in Hv; discriminate Hv).
Qed.

(** Every request [forwardToMicroBackend] hands to [http.post] goes to
    [MICRO_BACKEND_URL + "/api/v1/flow/create"], has the adapted payload as
    body and carries [Content-Type], [X-Signature], [X-Timestamp] and
    [X-Device-ID]; [Authorization: Bearer <jwt>] is present exactly when
    [MICRO_BACKEND_JWT] is a non-empty string, [X-Correlation-Id] exactly
    when the correlation id is one, and there is no other header. *)
Theorem outbound_request_shape :
  forall (w : World) (params : ForwardParams) (s : State),
    exists reqs,
      posts (trace (forwardToMicroBackend w params s).2) = posts (trace s) ++ reqs
      /\ forall req, req ∈ reqs ->
           url req = default EmptyString (MICRO_BACKEND_URL (env w)) +:+ "/api/v1/flow/create"
           /\ adaptPayloadForMicroBackend (now s) (params_payload params)
                (params_internalEventId params) (params_correlationId params)
              = Returned (body_sent req)
           /\ headers req !! "Content-Type"%string = Some "application/json"%string
           /\ headers req !! "X-Device-ID"%string = Some (MICRO_BACKEND_DEVICE_ID (env w))
           /\ headers req !! "Authorization"%string
              = (if truthy_opt_string (MICRO_BACKEND_JWT (env w))
                 then Some ("Bearer " +:+ default EmptyString (MICRO_BACKEND_JWT (env w)))
                 else None)
           /\ headers req !! "X-Correlation-Id"%string
              = (if truthy_opt_string (params_correlationId params)
                 then params_correlationId params else None)
           /\ forall name, is_Some (headers req !! name) ->
                name ∈ ["Content-Type"; "X-Signature"; "X-Timestamp"; "X-Device-ID";
                        "Authorization"; "X-Correlation-Id"]%string.
Proof.
  intros w params s.
  destruct (forwardToMicroBackend_posts w params s) as (reqs & Hposts & _ & Hall).
  exists reqs. split; [exact Hposts |].
  intros req Hreq. destruct (Hall req Hreq) as (_ & _ & adapted & Hadapt & ->).
  unfold outbound_request. cbn [url body_sent headers].
  split; [reflexivity |]. split; [exact Hadapt |].
  apply outbound_headers_lookup.
Qed.

(** ** The database handle *)

Lemma connects_app (tr tr' : list Event) :
  connects (tr ++ tr') = connects tr ++ connects tr'.
Proof. apply omap_app. Qed.

(** What [getDb] leaves alone: the clock, the HTTP client, the collection
    and the count of its operations; and what it appends to the trace. *)
Lemma getDb_run (w : World) (s : State) :
  exists evs,
    trace (getDb w s).2 = trace s ++ evs
    /\ Forall (of_kinds [KLog; KConnect; KEnsureIndexes]) evs
    /\ now (getDb w s).2 = now s
    /\ http_calls (getDb w s).2 = http_calls s
    /\ mongo_calls (getDb w s).2 = mongo_calls s
    /\ webhook_events (getDb w s).2 = webhook_events s
    /\ (db_open s = true -> (getDb w s).1 = Returned tt /\ connects evs = []).
Proof.
  unfold getDb, bind, when, read, logger, effect, ret, throw, connect, ensureIndexes,
    fault_or_unit.
  destruct (String.eqb (SERVICE_ROLE (env w)) "webhook-edge"); cbn [fst snd db_open emit];
    (destruct (db_open s) eqn:Hopen; cbn [fst snd];
     [| destruct (negb (truthy_opt_string (MONGO_URI w))); cbn [fst snd];
        [| destruct (connect_fault w _); cbn [fst snd];
           [| destruct (ensureIndexes_fault w _); cbn [fst snd]]]]);
    eexists; (split; [simpl; rewrite <- ?app_assoc; try reflexivity;
                      symmetry; apply app_nil_r |]);
    (split; [repeat constructor |]); simpl; repeat split; try discriminate; reflexivity.
Qed.

Lemma getDb_open_stays (w : World) (s : State) :
  db_open s = true -> (getDb w s).1 = Returned tt /\ db_open (getDb w s).2 = true.
Proof.
  intros Hopen. unfold getDb, bind, when, read, logger, effect, ret.
  destruct (String.eqb (SERVICE_ROLE (env w)) "webhook-edge"); cbn [fst snd db_open emit];
    rewrite Hopen; cbn [fst snd db_open emit]; auto.
Qed.

(** [getDb] connects at most once: once a call has returned the handle,
    the next call returns it without opening a connection and without
    running [ensureIndexes]. *)
Theorem getDb_connects_once :
  forall (w : World) (s : State),
    (getDb w s).1 = Returned tt ->
    exists evs,
      (getDb w (getDb w s).2).1 = Returned tt
      /\ trace (getDb w (getDb w s).2).2 = trace (getDb w s).2 ++ evs
      /\ Forall (of_kinds [KLog]) evs
      /\ connect_calls (getDb w (getDb w s).2).2 = connect_calls (getDb w s).2.
Proof.
  intros w s Hret.
  assert (Hopen : db_open (getDb w s).2 = true).
  { revert Hret.
    unfold getDb, bind, when, read, logger, effect, ret, throw, connect, ensureIndexes,
      fault_or_unit.
    destruct (String.eqb (SERVICE_ROLE (env w)) "webhook-edge"); cbn [fst snd db_open emit];
      (destruct (db_open s) eqn:Hopen; cbn [fst snd];
       [| destruct (negb (truthy_opt_string (MONGO_URI w))); cbn [fst snd];
          [| destruct (connect_fault w _); cbn [fst snd];
             [| destruct (ensureIndexes_fault w _); cbn [fst snd]]]]);
      simpl; congruence. }
  revert Hopen. generalize (getDb w s).2. intros s1 Hopen.
  unfold getDb, bind, when, read, logger, effect, ret.
  destruct (String.eqb (SERVICE_ROLE (env w)) "webhook-edge"); cbn [fst snd db_open emit];
    rewrite Hopen; cbn [fst snd];
    eexists; (split; [reflexivity |]);
    (split; [simpl; try reflexivity; symmetry; apply app_nil_r |]);
    (split; [repeat constructor | reflexivity]).
Qed.

Lemma getDb_connects_once_witness :
  exists evs,
    trace (getDb (Samples.scripted [] (Some "mongodb://localhost:27017"%string))
                 (getDb (Samples.scripted [] (Some "mongodb://localhost:27017"%string))
                        (Samples.start 0)).2).2
    = trace (getDb (Samples.scripted [] (Some "mongodb://localhost:27017"%string))
                   (Samples.start 0)).2 ++ evs
    /\ Forall (of_kinds [KLog]) evs.
Proof.
  destruct (getDb_connects_once (Samples.scripted [] (Some "mongodb://localhost:27017"%string))
              (Samples.start 0))
    as (evs & _ & Htr & Hall & _).
  - reflexivity.
  - exists evs. split; [exact Htr | exact Hall].
Defined.

(** When the connection is opened but [ensureIndexes] fails, [getDb] throws
    that failure, yet the handle stays assigned: the next call returns it
    without connecting and without running [ensureIndexes] again. *)
Theorem failed_ensureIndexes_leaves_the_handle :
  forall (w : World) (s : State) (msg : string),
    db_open s = false ->
    truthy_opt_string (MONGO_URI w) = true ->
    connect_fault w (connect_calls s) = None ->
    ensureIndexes_fault w (S (connect_calls s)) = Some msg ->
    (getDb w s).1 = Thrown (mkError msg None)
    /\ (getDb w (getDb w s).2).1 = Returned tt
    /\ exists evs,
         trace (getDb w (getDb w s).2).2 = trace (getDb w s).2 ++ evs
         /\ Forall (of_kinds [KLog]) evs.
Proof.
  intros w s msg Hopen Huri Hconnect Hindexes.
  unfold getDb, bind, when, read, logger, effect, ret, throw, connect, ensureIndexes,
    fault_or_unit.
  destruct (String.eqb (SERVICE_ROLE (env w)) "webhook-edge"); cbn [fst snd db_open emit];
    rewrite ?Hopen, ?Huri; cbn [negb fst snd connect_calls emit count_connect];
    rewrite ?Hconnect; cbn [fst snd connect_calls emit count_connect open_db];
    rewrite ?Hindexes; cbn [fst snd db_open emit open_db count_connect];
    (split; [reflexivity |]); (split; [reflexivity |]);
    eexists; (split; [simpl; try reflexivity; symmetry; apply app_nil_r |]);
    repeat constructor.
Qed.

Lemma failed_ensureIndexes_leaves_the_handle_witness :
  (getDb (Samples.failing_indexes "not authorized"
            (Samples.scripted [] (Some "mongodb://localhost:27017"%string)))
         (Samples.start 0)).1
  = Thrown (mkError "not authorized" None).
Proof.
  apply (failed_ensureIndexes_leaves_the_handle
           (Samples.failing_indexes "not authorized"
            (Samples.scripted [] (Some "mongodb://localhost:27017"%string)))
           (Samples.start 0) "not authorized"); reflexivity.
Defined.

(** [getDb] does not apply [guardDatabaseAccess]: in the role
    [webhook-edge], where the guard throws for every operation, [getDb]
    opens the database as in any other role and only writes a warning. *)
Theorem getDb_warns_where_the_guard_throws :
  forall (w : World) (s : State) (operationName : string),
    SERVICE_ROLE (env w) = "webhook-edge"%string ->
    db_open s = false ->
    truthy_opt_string (MONGO_URI w) = true ->
    connect_fault w (connect_calls s) = None ->
    ensureIndexes_fault w (S (connect_calls s)) = None ->
    (exists e, (guardDatabaseAccess w operationName s).1 = Thrown e)
    /\ (getDb w s).1 = Returned tt
    /\ db_open (getDb w s).2 = true
    /\ trace (getDb w s).2
       = trace s ++
         [ EvLog Warn
             "webhook-edge service accessing database; ensure operations are read-only or audit-only";
           EvConnect (default EmptyString (MONGO_URI w));
           EvEnsureIndexes;
           EvLog Info "MongoDB connected and indexes ensured" ].
Proof.
  intros w s operationName Hrole Hopen Huri Hconnect Hindexes.
  split.
  { unfold guardDatabaseAccess, guard_edge. rewrite Hrole. simpl. eexists. reflexivity. }
  unfold getDb, bind, when, read, logger, effect, ret, throw, connect, ensureIndexes,
    fault_or_unit.
  rewrite Hrole. cbn [String.eqb Ascii.eqb Bool.eqb andb fst snd db_open emit].
  rewrite Hopen, Huri. cbn [negb fst snd connect_calls emit count_connect].
  rewrite Hconnect. cbn [fst snd connect_calls emit count_connect open_db].
  rewrite Hindexes. simpl. rewrite <- !app_assoc. auto.
Qed.

Lemma getDb_warns_where_the_guard_throws_witness :
  (getDb (Samples.with_env
            (mkEnv None None None "webhook-gateway" true "staging" "webhook-edge")
            (Samples.scripted [] (Some "mongodb://localhost:27017"%string)))
         (Samples.start 0)).1
  = Returned tt.
Proof.
  apply (getDb_warns_where_the_guard_throws
           (Samples.with_env
            (mkEnv None None None "webhook-gateway" true "staging" "webhook-edge")
            (Samples.scripted [] (Some "mongodb://localhost:27017"%string)))
           (Samples.start 0) "updateOne"); reflexivity.
Defined.

(** ** Writing and reading the outcome store *)

(** A recorded event can be read back: after [log], when the upsert and the
    read both succeed, [getEvent] returns for the event's id the event
    itself if the id was new, and otherwise the stored document updated by
    [$set]; the document of any other id reads as before. *)
Theorem logged_event_is_retrievable :
  forall (w : World) (event : EventLog.t) (s : State),
    mongo_fault w (mongo_calls s) = None ->
    mongo_fault w (S (mongo_calls s)) = None ->
    (bind (log w event) (fun _ => getEvent w (EventLog.event_id event)) s).1
    = Returned (Some (match webhook_events s !! EventLog.event_id event with
                      | Some stored => EventLog.set stored event
                      | None => event
                      end))
    /\ forall id,
         id <> EventLog.event_id event ->
         (bind (log w event) (fun _ => getEvent w id) s).1
         = Returned (webhook_events s !! id).
Proof.
  intros w event s Hwrite Hread.
  unfold bind, log, getEvent, try_catch, updateOne_upsert, findOne.
  rewrite Hwrite. cbn [fst snd mongo_calls store count_mongo emit webhook_events].
  rewrite Hread. cbn [fst snd].
  split.
  - rewrite lookup_insert_eq. reflexivity.
  - intros id Hid. rewrite lookup_insert_ne by congruence. reflexivity.
Qed.

Lemma logged_event_is_retrievable_witness :
  exists doc,
    (bind (log Samples.flaky
               (EventLog.mk "evt_789" "staging" "api" "webhook" EventLog.Absent
                  EventLog.Absent 0 EventLog.Absent EventLog.success (EventLog.Present 200)
                  1767182400123 EventLog.Undefined EventLog.Absent))
          (fun _ => getEvent Samples.flaky "evt_789") (Samples.start 1767182400123)).1
    = Returned (Some doc)
    /\ EventLog.status doc = EventLog.success.
Proof.
  eexists. split.
  - apply (logged_event_is_retrievable Samples.flaky
             (EventLog.mk "evt_789" "staging" "api" "webhook" EventLog.Absent
                EventLog.Absent 0 EventLog.Absent EventLog.success (EventLog.Present 200)
                1767182400123 EventLog.Undefined EventLog.Absent)
             (Samples.start 1767182400123)); reflexivity.
  - reflexivity.
Defined.

(** A success recorded after a failure of the same event keeps the fields
    of the failure: [logSuccess] sets no [error_code], [error_message] or
    [last_error], so the stored document has status [success] and retry
    count 0 together with the error of the earlier failure. *)
Theorem success_keeps_the_earlier_error :
  forall (w : World) (eventId errorCode errorMessage : string) (retryCount : Z)
         (correlationId correlationId' : option string) (responseStatus : option Z)
         (successStatus : Z) (s : State),
    mongo_fault w (mongo_calls s) = None ->
    mongo_fault w (S (mongo_calls s)) = None ->
    exists doc,
      webhook_events
        (bind (logFailure w eventId errorCode errorMessage retryCount correlationId
                          responseStatus)
              (fun _ => logSuccess w eventId correlationId' successStatus) s).2
        !! eventId = Some doc
      /\ EventLog.status doc = EventLog.success
      /\ EventLog.retry_count doc = 0
      /\ EventLog.response_status doc = EventLog.Present successStatus
      /\ EventLog.error_code doc = EventLog.Present errorCode
      /\ EventLog.error_message doc = EventLog.Present errorMessage
      /\ EventLog.last_error doc = EventLog.Present errorMessage.
Proof.
  intros w eventId errorCode errorMessage retryCount correlationId correlationId'
         responseStatus successStatus s Hfirst Hsecond.
  unfold bind, logFailure, logSuccess, Date_now, log, try_catch, updateOne_upsert, logger,
    effect, bind.
  cbn [fst snd mongo_calls store count_mongo emit webhook_events EventLog.event_id].
  rewrite Hfirst.
  cbn [fst snd mongo_calls store count_mongo emit webhook_events EventLog.event_id].
  rewrite Hsecond.
  cbn [fst snd mongo_calls store count_mongo emit webhook_events EventLog.event_id].
  rewrite !lookup_insert_eq. eexists. split; [reflexivity |].
  destruct (webhook_events s !! eventId); simpl; auto 10.
Qed.

Lemma success_keeps_the_earlier_error_witness :
  exists doc,
    webhook_events
      (bind (logFailure Samples.flaky "evt_789" "forward_failed_unknown"
                        "micro-backend forward failed: status=0" 0 None (Some 0))
            (fun _ => logSuccess Samples.flaky "evt_789" None 200)
            (Samples.start 1767182400123)).2
      !! "evt_789"%string = Some doc
    /\ EventLog.status doc = EventLog.success
    /\ EventLog.last_error doc = EventLog.Present "micro-backend forward failed: status=0"%string.
Proof.
  destruct (success_keeps_the_earlier_error Samples.flaky "evt_789" "forward_failed_unknown"
              "micro-backend forward failed: status=0" 0 None None (Some 0) 200
              (Samples.start 1767182400123))
    as (doc & Hdoc & Hstatus & _ & _ & _ & _ & Hlast).
  - reflexivity.
  - reflexivity.
  - exists doc. auto.
Defined.

Lemma updates_app (tr tr' : list Event) : updates (tr ++ tr') = updates tr ++ updates tr'.
Proof. apply omap_app. Qed.

Lemma responses_app (tr tr' : list Event) :
  responses (tr ++ tr') = responses tr ++ responses tr'.
Proof. apply omap_app. Qed.

(** Events that are no call of [http.post], no upsert and no response. *)
Lemma quiet_events (evs : list Event) :
  Forall (of_kinds [KClock; KHmac; KJitter; KSleep; KLog; KConnect; KEnsureIndexes;
                    KCreateIndex; KForwardN8n]) evs ->
  posts evs = [] /\ updates evs = [] /\ responses evs = [].
Proof.
  induction 1 as [| ev evs Hev _ (IH1 & IH2 & IH3)]; [auto |].
  destruct ev; try discriminate Hev; auto.
Qed.

(** ** The replay route *)

Lemma replayRoute_run :
  forall (w : World) (trim : string -> string) (event_id_param correlationId : option string)
         (s : State),
    exists evs,
      (replayRoute w trim event_id_param correlationId s).1 = Returned tt
      /\ Forall (of_kinds [KLog; KClock; KConnect; KEnsureIndexes]) evs
      /\ webhook_events (replayRoute w trim event_id_param correlationId s).2
         = webhook_events s
      /\ trace (replayRoute w trim event_id_param correlationId s).2
         = trace s ++ evs ++
           [ if String.eqb (trim (default EmptyString event_id_param)) EmptyString
             then EvRespond 400 (error_json "Missing event_id parameter")
             else
               match (getDb w s).1 with
               | Thrown _ => EvRespond 500 (error_json "Internal server error")
               | Returned _ =>
                   match mongo_fault w (mongo_calls s),
                         webhook_events s !! trim (default EmptyString event_id_param) with
                   | None, Some event =>
                       if String.eqb (EventLog.env event) (APP_ENV (env w))
                       then EvRespond 200 (replay_details event)
                       else EvRespond 403
                              (error_json ("Event belongs to different environment ("
                                           +:+ EventLog.env event
                                           +:+ "); cannot replay across environments"))
                   | _, _ => EvRespond 404 (error_json "Event not found")
                   end
               end ].
Proof.
  intros w trim event_id_param correlationId s. unfold replayRoute.
  destruct (String.eqb (trim (default EmptyString event_id_param)) EmptyString).
  { exists []. split; [reflexivity |]. split; [constructor |]. split; reflexivity. }
  destruct (getDb_run w s) as (evs1 & Htr1 & Hall1 & _ & _ & Hcalls1 & Hdocs1 & _).
  assert (Hsub : Forall (of_kinds [KLog; KClock; KConnect; KEnsureIndexes]) evs1).
  { eapply Forall_impl; [exact Hall1 |]. intros ev. apply kind_among_sub. reflexivity. }
  unfold try_catch, bind.
  destruct (getDb w s) as [[[] | e] s1]; cbn [fst snd] in *.
  2:{ exists (evs1 ++ [EvLog Error ("Internal replay endpoint error: " +:+ message e)]).
      unfold bind, logger, respond, effect. cbn [fst snd trace webhook_events emit].
      split; [reflexivity |].
      split; [apply Forall_app; split; [exact Hsub | repeat constructor] |].
      split; [exact Hdocs1 |]. rewrite Htr1, <- !app_assoc. reflexivity. }
  unfold bind, getEvent, try_catch, findOne. rewrite Hcalls1.
  destruct (mongo_fault w (mongo_calls s)) as [msg |].
  { eexists (evs1 ++ [_]).
    unfold bind, logger, respond, effect, ret. cbn [fst snd trace webhook_events emit count_mongo].
    split; [reflexivity |].
    split; [| split; [exact Hdocs1 | rewrite Htr1, <- !app_assoc; reflexivity]].
    apply Forall_app; split; [exact Hsub | repeat constructor]. }
  rewrite Hdocs1.
  destruct (webhook_events s !! trim (default EmptyString event_id_param)) as [event |].
  2:{ exists evs1.
      unfold respond, effect. cbn [fst snd trace webhook_events emit count_mongo].
      split; [reflexivity |]. split; [exact Hsub |].
      split; [exact Hdocs1 |]. rewrite Htr1, <- !app_assoc. reflexivity. }
  destruct (String.eqb (EventLog.env event) (APP_ENV (env w))); cbn [negb].
  - eexists (evs1 ++ [_; _]).
    unfold bind, Date_now, logger, respond, effect.
    cbn [fst snd trace webhook_events emit count_mongo].
    split; [reflexivity |].
    split; [| split; [exact Hdocs1 | rewrite Htr1, <- !app_assoc; reflexivity]].
    apply Forall_app; split; [exact Hsub | repeat constructor].
  - eexists (evs1 ++ [_]).
    unfold bind, logger, respond, effect.
    cbn [fst snd trace webhook_events emit count_mongo].
    split; [reflexivity |].
    split; [| split; [exact Hdocs1 | rewrite Htr1, <- !app_assoc; reflexivity]].
    apply Forall_app; split; [exact Hsub | repeat constructor].
Qed.

(** The replay route answers exactly once, as its last effect, and the
    status is decided as follows: 400 when the trimmed [event_id] is empty
    (the database is not touched then), 500 when [getDb] throws, 404 when
    the event is not in the store and also when reading the store fails,
    403 when the stored event belongs to another environment, and 200 with
    the details of the stored event otherwise.  It only reads: besides log
    lines, a clock reading and the opening of the database it has no effect,
    and the collection is as before. *)
Theorem replay_status_codes :
  forall (w : World) (trim : string -> string) (event_id_param correlationId : option string)
         (s : State),
    exists evs,
      (replayRoute w trim event_id_param correlationId s).1 = Returned tt
      /\ Forall (of_kinds [KLog; KClock; KConnect; KEnsureIndexes]) evs
      /\ responses evs = [] /\ updates evs = [] /\ posts evs = []
      /\ webhook_events (replayRoute w trim event_id_param correlationId s).2
         = webhook_events s
      /\ trace (replayRoute w trim event_id_param correlationId s).2
         = trace s ++ evs ++
           [ if String.eqb (trim (default EmptyString event_id_param)) EmptyString
             then EvRespond 400 (error_json "Missing event_id parameter")
             else
               match (getDb w s).1 with
               | Thrown _ => EvRespond 500 (error_json "Internal server error")
               | Returned _ =>
                   match mongo_fault w (mongo_calls s),
                         webhook_events s !! trim (default EmptyString event_id_param) with
                   | None, Some event =>
                       if String.eqb (EventLog.env event) (APP_ENV (env w))
                       then EvRespond 200 (replay_details event)
                       else EvRespond 403
                              (error_json ("Event belongs to different environment ("
                                           +:+ EventLog.env event
                                           +:+ "); cannot replay across environments"))
                   | _, _ => EvRespond 404 (error_json "Event not found")
                   end
               end ].
Proof.
  intros w trim event_id_param correlationId s.
  destruct (replayRoute_run w trim event_id_param correlationId s)
    as (evs & Hret & Hall & Hdocs & Htr).
  destruct (quiet_events evs) as (Hposts & Hupdates & Hresponses).
  { eapply Forall_impl; [exact Hall |]. intros ev. apply kind_among_sub. reflexivity. }
  exists evs. auto 10.
Qed.

(** ** Startup validation *)

(** A warning that may or may not be written. *)
Lemma warning_run (b : bool) (msg : string) (s : State) :
  exists s' ws,
    when b (logger Warn msg) s = (Returned tt, s')
    /\ trace s' = trace s ++ ws
    /\ Forall (fun ev => exists m, ev = EvLog Warn m) ws.
Proof.
  destruct b; simpl; eexists; eexists; (split; [reflexivity |]).
  - split; [reflexivity |]. repeat constructor. eexists. reflexivity.
  - split; [symmetry; apply app_nil_r | constructor].
Qed.

Lemma warnings_hold_no_error (ws : list Event) (msg : string) :
  Forall (fun ev => exists m, ev = EvLog Warn m) ws -> EvLog Error msg ∉ ws.
Proof.
  intros Hws Hin. rewrite Forall_forall in Hws.
  destruct (Hws _ Hin) as [m Hm]. discriminate Hm.
Qed.

(** [validateEnvironmentIsolation] ends the process, with exit code 1 and
    one error line, exactly when [APP_ENV] is [production] and either
    [NODE_ENV] is not [production] or neither forwarding URL is configured.
    Outside production it never ends the process, and its warnings (database
    name, Redis URL, workers on the edge role) never do. *)
Theorem validation_exits_only_in_misconfigured_production :
  forall (cfg : Startup.Config) (s : State),
    exists (r : option Z) (evs : list Event),
      validateEnvironmentIsolation cfg s
      = (Returned r, (validateEnvironmentIsolation cfg s).2)
      /\ trace (validateEnvironmentIsolation cfg s).2 = trace s ++ evs
      /\ Forall (of_kinds [KLog]) evs
      /\ (r = None \/ r = Some 1)
      /\ (r = Some 1 <->
          Startup.APP_ENV cfg = "production"%string
          /\ (Startup.NODE_ENV cfg <> "production"%string
              \/ (truthy_opt_string (Startup.N8N_INGEST_URL cfg) = false
                  /\ truthy_opt_string (Startup.MICRO_BACKEND_URL cfg) = false)))
      /\ (r = Some 1 <-> exists msg, EvLog Error msg ∈ evs).
Proof.
  intros cfg s. unfold validateEnvironmentIsolation.
  match goal with
  | |- context [bind (when ?b (logger Warn ?m)) _] =>
      destruct (warning_run b m s) as (s1 & ws1 & Hrun1 & Htr1 & Hws1)
  end.
  rewrite (bind_returned _ _ _ _ _ Hrun1).
  match goal with
  | |- context [bind (when ?b (when ?b' (logger Warn ?m))) _] =>
      destruct (warning_run (b && b') m s1) as (s2 & ws2 & Hrun2 & Htr2 & Hws2);
      replace (when (b && b') (logger Warn m)) with (when b (when b' (logger Warn m)))
        in Hrun2 by (destruct b, b'; reflexivity)
  end.
  rewrite (bind_returned _ _ _ _ _ Hrun2).
  match goal with
  | |- context [bind (when ?b (when ?b' (logger Warn ?m))) _] =>
      destruct (warning_run (b && b') m s2) as (s3 & ws3 & Hrun3 & Htr3 & Hws3);
      replace (when (b && b') (logger Warn m)) with (when b (when b' (logger Warn m)))
        in Hrun3 by (destruct b, b'; reflexivity)
  end.
  rewrite (bind_returned _ _ _ _ _ Hrun3).
  assert (Hws : Forall (fun ev => exists m, ev = EvLog Warn m) (ws1 ++ ws2 ++ ws3))
    by (repeat (apply Forall_app; split); assumption).
  assert (Hkinds : Forall (of_kinds [KLog]) (ws1 ++ ws2 ++ ws3)).
  { eapply Forall_impl; [exact Hws |]. intros ev [m ->]. reflexivity. }
  assert (Htr : trace s3 = trace s ++ ws1 ++ ws2 ++ ws3)
    by (rewrite Htr3, Htr2, Htr1, <- !app_assoc; reflexivity).
  clear Hrun1 Hrun2 Hrun3 Htr1 Htr2 Htr3 Hws1 Hws2 Hws3.
  unfold Startup.node_env_error, Startup.forward_url_error.
  destruct (String.eqb_spec (Startup.APP_ENV cfg) "production") as [Happ | Happ];
    destruct (String.eqb_spec (Startup.NODE_ENV cfg) "production") as [Hnode | Hnode];
    destruct (truthy_opt_string (Startup.N8N_INGEST_URL cfg));
    destruct (truthy_opt_string (Startup.MICRO_BACKEND_URL cfg));
    cbn [negb andb app length Nat.ltb Nat.leb];
    unfold bind, logger, effect, ret; cbn [fst snd trace emit];
    eexists; eexists (ws1 ++ ws2 ++ ws3 ++ [_]);
    (split; [reflexivity |]);
    (split; [rewrite Htr, <- !app_assoc; reflexivity |]);
    (split; [rewrite !app_assoc; apply Forall_app; split;
             [rewrite <- !app_assoc; exact Hkinds
             | constructor; [reflexivity | constructor]] |]);
    (split; [auto |]);
    (split; [split; [intros Hr; try discriminate Hr; auto
                    | intros [Ha [Hn | [Hu Hm]]];
                      try discriminate; try contradiction; try reflexivity]
            | split; [intros Hr; try discriminate Hr; eexists;
                      rewrite !app_assoc; apply elem_of_app; right;
                      apply list_elem_of_singleton; reflexivity
                     | intros [msg Hmsg];
                       first [ reflexivity
                             | rewrite !app_assoc, elem_of_app, <- !app_assoc in Hmsg;
                               destruct Hmsg as [Hmsg | Hmsg];
                               [ exfalso; revert Hmsg; apply warnings_hold_no_error;
                                 exact Hws
                               | apply list_elem_of_singleton in Hmsg;
                                 discriminate Hmsg ] ]]]).
Qed.

(** ** The earlier handler, without outcome store *)

(** The handler of the earlier revision answers exactly once, 200 whatever
    the forwarding result is, and 500 only when the legacy forwarder
    throws; in micro-backend mode it therefore always answers 200.  It
    opens no database connection and writes no record. *)
Theorem plain_handler_answers_200_unless_the_forwarder_throws :
  forall (w : World) (req : Request) (s : State),
    exists evs,
      (Plain.handleWebhookEntry w req s).1 = Returned tt
      /\ Forall (of_kinds [KClock; KHmac; KHttpPost; KJitter; KSleep; KLog; KForwardN8n]) evs
      /\ trace (Plain.handleWebhookEntry w req s).2
         = trace s ++ evs ++
           [ if FORWARD_TO_MICRO_BACKEND_ONLY (env w)
             then EvRespond 200 (accepted_json req)
             else match forwardToN8n w (forward_params req) with
                  | Returned _ => EvRespond 200 (accepted_json req)
                  | Thrown _ => EvRespond 500 (internal_error_json req)
                  end ].
Proof.
  intros w req s. unfold Plain.handleWebhookEntry. fold (forward_params req).
  destruct (emits_forwardToDestination w
              (of_kinds [KClock; KHmac; KHttpPost; KJitter; KSleep; KLog; KForwardN8n])
              (forward_params req)) with (s := s) as (evs & Htr & Hall & _).
  { intros ev Hev. exact Hev. }
  assert (Hthrows : forall e s1,
             forwardToDestination w (forward_params req) s = (Thrown e, s1) ->
             FORWARD_TO_MICRO_BACKEND_ONLY (env w) = false
             /\ exists e', forwardToN8n w (forward_params req) = Thrown e').
  { intros e s1 Hrun. unfold forwardToDestination in Hrun.
    destruct (FORWARD_TO_MICRO_BACKEND_ONLY (env w)).
    - destruct (forward_params_readable req) as [Hnull Hundef].
      destruct (total_forwardToMicroBackend w _ Hnull Hundef s) as (r & Hr).
      rewrite Hrun in Hr. discriminate Hr.
    - split; [reflexivity |]. unfold callForwardToN8n in Hrun.
      destruct (forwardToN8n w (forward_params req)); [discriminate Hrun |].
      eexists. reflexivity. }
  assert (Hreturns : forall r s1,
             forwardToDestination w (forward_params req) s = (Returned r, s1) ->
             FORWARD_TO_MICRO_BACKEND_ONLY (env w) = true
             \/ exists r', forwardToN8n w (forward_params req) = Returned r').
  { intros r s1 Hrun. unfold forwardToDestination in Hrun.
    destruct (FORWARD_TO_MICRO_BACKEND_ONLY (env w)); [left; reflexivity | right].
    unfold callForwardToN8n in Hrun.
    destruct (forwardToN8n w (forward_params req)); [| discriminate Hrun].
    eexists. reflexivity. }
  unfold try_catch, bind.
  destruct (forwardToDestination w (forward_params req) s) as [[result | e] s1];
    cbn [fst snd] in Htr.
  - assert (Hcode : (if FORWARD_TO_MICRO_BACKEND_ONLY (env w)
                     then EvRespond 200 (accepted_json req)
                     else match forwardToN8n w (forward_params req) with
                          | Returned _ => EvRespond 200 (accepted_json req)
                          | Thrown _ => EvRespond 500 (internal_error_json req)
                          end) = EvRespond 200 (accepted_json req)).
    { destruct (Hreturns result s1 eq_refl) as [-> | [r' ->]]; [reflexivity |].
      destruct (FORWARD_TO_MICRO_BACKEND_ONLY (env w)); reflexivity. }
    rewrite Hcode.
    destruct (negb (ok result)); unfold when, logger, respond, effect, ret;
      cbn [fst snd trace emit].
    + eexists (evs ++ [_]). split; [reflexivity |].
      split; [| rewrite Htr, <- !app_assoc; reflexivity].
      apply Forall_app. split; [exact Hall |]. constructor; [reflexivity | constructor].
    + exists evs. split; [reflexivity |]. split; [exact Hall |].
      rewrite Htr, <- app_assoc. reflexivity.
  - destruct (Hthrows e s1 eq_refl) as [-> [e' ->]].
    unfold logger, respond, effect. cbn [fst snd trace emit].
    eexists (evs ++ [_]). split; [reflexivity |].
    split; [| rewrite Htr, <- !app_assoc; reflexivity].
    apply Forall_app. split; [exact Hall |]. constructor; [reflexivity | constructor].
Qed.

(** ** Runs of the handler *)

(** Forwarding writes no record and sends no response. *)
Lemma forwardToMicroBackend_quiet (w : World) (params : ForwardParams) (s : State) :
  updates (trace (forwardToMicroBackend w params s).2) = updates (trace s)
  /\ responses (trace (forwardToMicroBackend w params s).2) = responses (trace s).
Proof.
  destruct (emits_forwardToMicroBackend w
              (of_kinds [KClock; KHmac; KHttpPost; KJitter; KSleep; KLog]) params)
    with (s := s) as (evs & Htr & Hall & _).
  { intros ev Hev. exact Hev. }
  rewrite Htr, updates_app, responses_app.
  assert (Hnone : updates evs = [] /\ responses evs = []).
  { clear Htr. induction Hall as [| ev evs Hev _ (IH1 & IH2)]; [auto |].
    destruct ev; try discriminate Hev; auto. }
  destruct Hnone as [-> ->]. rewrite !app_nil_r. auto.
Qed.

(** What the handler hands to the store for a forwarding result. *)
Lemma record_outcome_run (w : World) (req : Request) (result : ForwardResult) (s : State) :
  exists doc evs s',
    record_outcome w req result s = (Returned tt, s')
    /\ trace s' = trace s ++ evs
    /\ updates evs = [doc]
    /\ posts evs = []
    /\ responses evs = []
    /\ EventLog.event_id doc = req_internal_event_id req
    /\ EventLog.retry_count doc = 0
    /\ (ok result = true ->
        EventLog.status doc = EventLog.success
        /\ EventLog.response_status doc = EventLog.Present 200
        /\ EventLog.error_code doc = EventLog.Absent)
    /\ (ok result = false ->
        EventLog.status doc = EventLog.processing
        /\ EventLog.response_status doc = EventLog.Present (result_status result)
        /\ EventLog.error_code doc
           = EventLog.Present
               ("forward_failed_" +:+
                (if result_status result =? 0 then "unknown"%string
                 else Z_toString (result_status result)))
        /\ EventLog.error_message doc
           = EventLog.Present
               ((if FORWARD_TO_MICRO_BACKEND_ONLY (env w) then "micro-backend"%string
                 else "n8n"%string)
                +:+ " forward failed: status=" +:+ Z_toString (result_status result))).
Proof.
  unfold record_outcome, logFailure, logSuccess, bind, Date_now, log, try_catch,
    updateOne_upsert, logger, effect.
  destruct (ok result); cbn [negb fst snd mongo_calls emit];
    destruct (mongo_fault w (mongo_calls s)); cbn [fst snd];
    eexists; eexists; eexists;
    (split; [reflexivity |]);
    (split; [cbn [trace emit count_mongo store]; rewrite <- ?app_assoc; reflexivity |]);
    (split; [reflexivity |]); (split; [reflexivity |]); (split; [reflexivity |]);
    (split; [reflexivity |]); (split; [reflexivity |]);
    (split; [intros Hok; try discriminate Hok; auto
            | intros Hok; try discriminate Hok; auto]).
Qed.

(** A run of the handler in micro-backend mode once the database handle is
    obtained: the stages before forwarding make no call, write no record and
    send no response; then come the forwarding run, one record, and the 202
    response. *)
Lemma handler_micro_run (w : World) (req : Request) (s : State) :
  (getDb w s).1 = Returned tt ->
  FORWARD_TO_MICRO_BACKEND_ONLY (env w) = true ->
  exists s2 result s3 doc,
    http_calls s2 = http_calls s
    /\ posts (trace s2) = posts (trace s)
    /\ updates (trace s2) = updates (trace s)
    /\ responses (trace s2) = responses (trace s)
    /\ forwardToMicroBackend w (forward_params req) s2 = (Returned result, s3)
    /\ (handleWebhookEntry w req s).1 = Returned tt
    /\ posts (trace (handleWebhookEntry w req s).2) = posts (trace s3)
    /\ updates (trace (handleWebhookEntry w req s).2) = updates (trace s) ++ [doc]
    /\ responses (trace (handleWebhookEntry w req s).2)
       = responses (trace s) ++ [(202, accepted_json req)]
    /\ EventLog.event_id doc = req_internal_event_id req
    /\ EventLog.retry_count doc = 0
    /\ (ok result = true ->
        EventLog.status doc = EventLog.success
        /\ EventLog.response_status doc = EventLog.Present 200
        /\ EventLog.error_code doc = EventLog.Absent)
    /\ (ok result = false ->
        EventLog.status doc = EventLog.processing
        /\ EventLog.response_status doc = EventLog.Present (result_status result)
        /\ EventLog.error_code doc
           = EventLog.Present
               ("forward_failed_" +:+
                (if result_status result =? 0 then "unknown"%string
                 else Z_toString (result_status result)))
        /\ EventLog.error_message doc
           = EventLog.Present
               ("micro-backend forward failed: status="
                +:+ Z_toString (result_status result))).
Proof.
  intros Hdb Hflag.
  destruct (getDb_run w s) as (evs1 & Htr1 & Hall1 & _ & Hcalls1 & _ & _ & _).
  destruct (getDb w s) as [r1 s1] eqn:Hget. cbn [fst snd] in *. subst r1.
  destruct (total_returns (ensureCollection w) s1 (total_ensureCollection w))
    as ([] & s2 & Hens).
  destruct (emits_ensureCollection w (of_kinds [KCreateIndex; KLog])) with (s := s1)
    as (evs2 & Htr2 & Hall2 & _).
  { intros ev Hev. exact Hev. }
  rewrite Hens in Htr2. cbn [snd] in Htr2.
  pose proof (keeps_http_view_ensureCollection w s1) as Hview.
  rewrite Hens in Hview. cbn [snd] in Hview. unfold http_view in Hview.
  injection Hview as Hcalls2 _.
  destruct (quiet_events evs1) as (Hp1 & Hu1 & Hr1).
  { eapply Forall_impl; [exact Hall1 |]. intros ev. apply kind_among_sub. reflexivity. }
  destruct (quiet_events evs2) as (Hp2 & Hu2 & Hr2).
  { eapply Forall_impl; [exact Hall2 |]. intros ev. apply kind_among_sub. reflexivity. }
  destruct (forward_params_readable req) as [Hnull Hundef].
  destruct (total_returns (forwardToMicroBackend w (forward_params req)) s2
              (total_forwardToMicroBackend w _ Hnull Hundef))
    as (result & s3 & Hfwd).
  destruct (forwardToMicroBackend_quiet w (forward_params req) s2) as [Hu3 Hr3].
  rewrite Hfwd in Hu3, Hr3. cbn [snd] in Hu3, Hr3.
  destruct (record_outcome_run w req result s3)
    as (doc & rec & s4 & Hrec & Htr4 & Hu4 & Hp4 & Hr4 & Hid & Hretry & Hok & Hfail).
  assert (Htry : handler_try w req s
                 = (Returned tt, emit (EvRespond 202 (accepted_json req)) s4)).
  { unfold handler_try.
    rewrite (bind_returned _ _ _ _ _ Hget), (bind_returned _ _ _ _ _ Hens).
    unfold forwardToDestination. rewrite Hflag.
    rewrite (bind_returned _ _ _ _ _ Hfwd), (bind_returned _ _ _ _ _ Hrec).
    reflexivity. }
  exists s2, result, s3, doc.
  rewrite handleWebhookEntry_halves, (try_catch_returned _ _ _ _ _ Htry).
  cbn [fst snd trace emit].
  rewrite !posts_app, !updates_app, !responses_app, Htr4,
    !posts_app, !updates_app, !responses_app, Hp4, Hu4, Hr4, Hu3, Hr3, Htr2, Htr1,
    !posts_app, !updates_app, !responses_app, Hp1, Hp2, Hu1, Hu2, Hr1, Hr2.
  cbn [posts updates responses omap app]. rewrite !app_nil_r.
  rewrite Hflag in Hfail.
  repeat split; try reflexivity; try assumption; try (apply Hok; assumption);
    try (apply Hfail; assumption).
  congruence.
Qed.

(** With [MICRO_BACKEND_URL] not configured, in micro-backend mode, the
    handler sends nothing and yet records the event as [success] with
    response status 200 and answers 202. *)
Theorem unconfigured_forwarding_is_recorded_as_success :
  forall (w : World) (req : Request) (s : State),
    (getDb w s).1 = Returned tt ->
    FORWARD_TO_MICRO_BACKEND_ONLY (env w) = true ->
    truthy_opt_string (MICRO_BACKEND_URL (env w)) = false ->
    exists doc,
      (handleWebhookEntry w req s).1 = Returned tt
      /\ posts (trace (handleWebhookEntry w req s).2) = posts (trace s)
      /\ updates (trace (handleWebhookEntry w req s).2) = updates (trace s) ++ [doc]
      /\ responses (trace (handleWebhookEntry w req s).2)
         = responses (trace s) ++ [(202, accepted_json req)]
      /\ EventLog.event_id doc = req_internal_event_id req
      /\ EventLog.status doc = EventLog.success
      /\ EventLog.response_status doc = EventLog.Present 200
      /\ EventLog.error_code doc = EventLog.Absent.
Proof.
  intros w req s Hdb Hflag Hurl.
  destruct (handler_micro_run w req s Hdb Hflag)
    as (s2 & result & s3 & doc & _ & Hp2 & _ & _ & Hfwd & Hret & Hposts & Hupdates
        & Hresponses & Hid & _ & Hok & _).
  unfold forwardToMicroBackend in Hfwd. rewrite Hurl in Hfwd.
  cbn [negb] in Hfwd. unfold bind, logger, effect, ret in Hfwd.
  injection Hfwd as <- <-.
  destruct (Hok eq_refl) as (Hstatus & Hrs & Hcode).
  exists doc. rewrite Hposts. cbn [trace emit]. rewrite posts_app, Hp2.
  cbn [posts omap]. rewrite app_nil_r. auto 10.
Qed.

Lemma unconfigured_forwarding_is_recorded_as_success_witness :
  exists doc,
    updates
      (trace (handleWebhookEntry
                (Samples.with_env
                   (mkEnv None None None "webhook-gateway" true "staging" "api")
                   (Samples.scripted [] (Some "mongodb://localhost:27017"%string)))
                Samples.request (Samples.start 1767182400123)).2)
    = [doc]
    /\ EventLog.status doc = EventLog.success.
Proof.
  destruct (unconfigured_forwarding_is_recorded_as_success
              (Samples.with_env
                 (mkEnv None None None "webhook-gateway" true "staging" "api")
                 (Samples.scripted [] (Some "mongodb://localhost:27017"%string)))
              Samples.request (Samples.start 1767182400123))
    as (doc & _ & _ & Hupdates & _ & _ & Hstatus & _).
  - reflexivity.
  - reflexivity.
  - reflexivity.
  - exists doc. split; [exact Hupdates | exact Hstatus].
Defined.

(** With the URL configured and [MICRO_BACKEND_HMAC_SECRET] missing, the
    handler sends nothing, records a failure with error code
    [forward_failed_unknown] and response status 0, and answers 202. *)
Theorem missing_secret_is_recorded_as_unknown_failure :
  forall (w : World) (req : Request) (s : State),
    (getDb w s).1 = Returned tt ->
    FORWARD_TO_MICRO_BACKEND_ONLY (env w) = true ->
    truthy_opt_string (MICRO_BACKEND_URL (env w)) = true ->
    truthy_opt_string (MICRO_BACKEND_HMAC_SECRET (env w)) = false ->
    exists doc,
      (handleWebhookEntry w req s).1 = Returned tt
      /\ posts (trace (handleWebhookEntry w req s).2) = posts (trace s)
      /\ updates (trace (handleWebhookEntry w req s).2) = updates (trace s) ++ [doc]
      /\ responses (trace (handleWebhookEntry w req s).2)
         = responses (trace s) ++ [(202, accepted_json req)]
      /\ EventLog.event_id doc = req_internal_event_id req
      /\ EventLog.status doc = EventLog.processing
      /\ EventLog.response_status doc = EventLog.Present 0
      /\ EventLog.error_code doc = EventLog.Present "forward_failed_unknown"%string
      /\ EventLog.error_message doc
         = EventLog.Present "micro-backend forward failed: status=0"%string.
Proof.
  intros w req s Hdb Hflag Hurl Hsecret.
  destruct (handler_micro_run w req s Hdb Hflag)
    as (s2 & result & s3 & doc & _ & Hp2 & _ & _ & Hfwd & Hret & Hposts & Hupdates
        & Hresponses & Hid & _ & _ & Hfail).
  unfold forwardToMicroBackend in Hfwd. rewrite Hurl, Hsecret in Hfwd.
  cbn [negb] in Hfwd. unfold bind, logger, effect, ret in Hfwd.
  injection Hfwd as <- <-.
  destruct (Hfail eq_refl) as (Hstatus & Hrs & Hcode & Hmsg).
  exists doc. rewrite Hposts. cbn [trace emit]. rewrite posts_app, Hp2.
  cbn [posts omap]. rewrite app_nil_r. auto 10.
Qed.

Lemma missing_secret_is_recorded_as_unknown_failure_witness :
  exists doc,
    updates
      (trace (handleWebhookEntry
                (Samples.with_env
                   (mkEnv (Some "http://localhost:3000"%string) None None "webhook-gateway"
                          true "staging" "api")
                   (Samples.scripted [] (Some "mongodb://localhost:27017"%string)))
                Samples.request (Samples.start 1767182400123)).2)
    = [doc]
    /\ EventLog.error_code doc = EventLog.Present "forward_failed_unknown"%string.
Proof.
  destruct (missing_secret_is_recorded_as_unknown_failure
              (Samples.with_env
                 (mkEnv (Some "http://localhost:3000"%string) None None "webhook-gateway"
                        true "staging" "api")
                 (Samples.scripted [] (Some "mongodb://localhost:27017"%string)))
              Samples.request (Samples.start 1767182400123))
    as (doc & _ & _ & Hupdates & _ & _ & _ & _ & Hcode & _).
  - reflexivity.
  - reflexivity.
  - reflexivity.
  - reflexivity.
  - exists doc. split; [exact Hupdates | exact Hcode].
Defined.

(** The handler in micro-backend mode, fully configured, when the retry
    loop is known to end after [n] calls with a result of the given [ok]
    and status. *)
Lemma handler_records_loop_result (w : World) (req : Request) (s : State)
    (okv : bool) (st : Z) (n : nat) :
  (getDb w s).1 = Returned tt ->
  FORWARD_TO_MICRO_BACKEND_ONLY (env w) = true ->
  truthy_opt_string (MICRO_BACKEND_URL (env w)) = true ->
  truthy_opt_string (MICRO_BACKEND_HMAC_SECRET (env w)) = true ->
  (forall url payload headers s0,
      http_calls s0 = http_calls s ->
      exists r s0',
        forwardWithRetry w url payload headers MAX_MICRO_BACKEND_RETRIES s0 = (Returned r, s0')
        /\ ok r = okv
        /\ result_status r = st
        /\ posts (trace s0') = posts (trace s0) ++ replicate n (mkRequest url payload headers)) ->
  exists doc,
    (handleWebhookEntry w req s).1 = Returned tt
    /\ length (posts (trace (handleWebhookEntry w req s).2))
       = (length (posts (trace s)) + n)%nat
    /\ updates (trace (handleWebhookEntry w req s).2) = updates (trace s) ++ [doc]
    /\ responses (trace (handleWebhookEntry w req s).2)
       = responses (trace s) ++ [(202, accepted_json req)]
    /\ EventLog.event_id doc = req_internal_event_id req
    /\ (okv = true ->
        EventLog.status doc = EventLog.success
        /\ EventLog.response_status doc = EventLog.Present 200
        /\ EventLog.error_code doc = EventLog.Absent)
    /\ (okv = false ->
        EventLog.status doc = EventLog.processing
        /\ EventLog.response_status doc = EventLog.Present st
        /\ EventLog.error_code doc
           = EventLog.Present
               ("forward_failed_" +:+ (if st =? 0 then "unknown"%string else Z_toString st))
        /\ EventLog.error_message doc
           = EventLog.Present ("micro-backend forward failed: status=" +:+ Z_toString st)).
Proof.
  intros Hdb Hflag Hurl Hsecret Hclient.
  destruct (handler_micro_run w req s Hdb Hflag)
    as (s2 & result & s3 & doc & Hcalls2 & Hp2 & _ & _ & Hfwd & Hret & Hposts & Hupdates
        & Hresponses & Hid & _ & Hok & Hfail).
  destruct (forward_params_readable req) as [Hnull Hundef].
  destruct (forwardToMicroBackend_configured w (forward_params req) s2
              Hurl Hsecret Hnull Hundef)
    as (adapted & s1 & _ & _ & Hcalls1 & _ & Htr1 & Hrun).
  set (out := outbound_request w (forward_params req) (now s2) adapted) in *.
  destruct (Hclient (url out) adapted (headers out) s1) as (r & s1' & Hloop & Hokv & Hst & Hp1).
  { congruence. }
  rewrite Hrun, (bind_returned _ _ _ _ _ Hloop) in Hfwd.
  assert (Hresult : result = r /\ posts (trace s3) = posts (trace s1')).
  { revert Hfwd. unfold bind, when, logger, effect, ret.
    destruct (negb (ok r)); cbn [fst snd]; intros [= <- <-]; split; try reflexivity.
    cbn [trace emit]. rewrite posts_app. apply app_nil_r. }
  destruct Hresult as [-> Hp3].
  exists doc. rewrite Hposts, Hp3, Hp1, Htr1, posts_app, Hp2.
  cbn [posts omap]. rewrite app_nil_r, length_app, length_replicate.
  rewrite Hokv, Hst in *.
  repeat split; try assumption; try reflexivity;
    try (apply Hok; assumption); try (apply Hfail; assumption).
Qed.

(** When the micro-backend rejects all three attempts in a way the client
    retries (5xx, 429, no response), the handler makes three calls, answers
    202 and records a failure with error code [forward_failed_unknown] and
    response status 0: the record does not tell the status the destination
    answered, and is the same as for a missing secret. *)
Theorem exhausted_retries_are_recorded_as_unknown_failure :
  forall (w : World) (req : Request) (s : State),
    (getDb w s).1 = Returned tt ->
    FORWARD_TO_MICRO_BACKEND_ONLY (env w) = true ->
    truthy_opt_string (MICRO_BACKEND_URL (env w)) = true ->
    truthy_opt_string (MICRO_BACKEND_HMAC_SECRET (env w)) = true ->
    (forall i r, (i < MAX_MICRO_BACKEND_RETRIES)%nat ->
       exists err, http_post w (http_calls s + i) r = Thrown err /\ retryable err) ->
    exists doc,
      (handleWebhookEntry w req s).1 = Returned tt
      /\ length (posts (trace (handleWebhookEntry w req s).2))
         = (length (posts (trace s)) + 3)%nat
      /\ updates (trace (handleWebhookEntry w req s).2) = updates (trace s) ++ [doc]
      /\ responses (trace (handleWebhookEntry w req s).2)
         = responses (trace s) ++ [(202, accepted_json req)]
      /\ EventLog.event_id doc = req_internal_event_id req
      /\ EventLog.status doc = EventLog.processing
      /\ EventLog.response_status doc = EventLog.Present 0
      /\ EventLog.error_code doc = EventLog.Present "forward_failed_unknown"%string
      /\ EventLog.error_message doc
         = EventLog.Present "micro-backend forward failed: status=0"%string.
Proof.
  intros w req s Hdb Hflag Hurl Hsecret Hrej.
  destruct (handler_records_loop_result w req s false 0 3 Hdb Hflag Hurl Hsecret)
    as (doc & Hret & Hposts & Hupdates & Hresponses & Hid & _ & Hfail).
  { intros url payload headers s0 Hcalls.
    destruct (forwardWithRetry_exhausted w url payload headers MAX_MICRO_BACKEND_RETRIES s0)
      as (err & s0' & _ & Hrun & Hp & _).
    - unfold MAX_MICRO_BACKEND_RETRIES. lia.
    - intros i Hi. rewrite Hcalls. apply Hrej. exact Hi.
    - eexists. exists s0'. split; [exact Hrun |]. auto. }
  destruct (Hfail eq_refl) as (Hstatus & Hrs & Hcode & Hmsg).
  exists doc. auto 10.
Qed.

Lemma exhausted_retries_are_recorded_as_unknown_failure_witness :
  exists doc,
    updates
      (trace (handleWebhookEntry
                (Samples.scripted [Samples.reject 503 "Service Unavailable";
                                   Samples.reject 503 "Service Unavailable";
                                   Samples.reject 503 "Service Unavailable"]
                                  (Some "mongodb://localhost:27017"%string))
                Samples.request (Samples.start 1767182400123)).2)
    = [doc]
    /\ EventLog.error_code doc = EventLog.Present "forward_failed_unknown"%string
    /\ EventLog.response_status doc = EventLog.Present 0.
Proof.
  destruct (exhausted_retries_are_recorded_as_unknown_failure
              (Samples.scripted [Samples.reject 503 "Service Unavailable";
                                 Samples.reject 503 "Service Unavailable";
                                 Samples.reject 503 "Service Unavailable"]
                                (Some "mongodb://localhost:27017"%string))
              Samples.request (Samples.start 1767182400123))
    as (doc & _ & _ & Hupdates & _ & _ & _ & Hrs & Hcode & _).
  - reflexivity.
  - reflexivity.
  - reflexivity.
  - reflexivity.
  - intros i r Hi.
    exists (mkError "Service Unavailable"
              (Some (mkResponse 503 (JObj [("error"%string, JStr "Service Unavailable")])))).
    destruct i as [| [| [| i]]]; [split; reflexivity .. |].
    unfold MAX_MICRO_BACKEND_RETRIES in Hi. lia.
  - exists doc. split; [exact Hupdates |]. split; [exact Hcode | exact Hrs].
Defined.

(** When the first attempt is rejected with a 4xx status other than 429,
    the handler makes that one call, answers 202 and records a failure
    whose error code and response status carry that status. *)
Theorem terminal_rejection_is_recorded_with_its_status :
  forall (w : World) (req : Request) (s : State) (st : Z),
    (getDb w s).1 = Returned tt ->
    FORWARD_TO_MICRO_BACKEND_ONLY (env w) = true ->
    truthy_opt_string (MICRO_BACKEND_URL (env w)) = true ->
    truthy_opt_string (MICRO_BACKEND_HMAC_SECRET (env w)) = true ->
    400 <= st < 500 ->
    st <> 429 ->
    (forall r, exists err resp,
        http_post w (http_calls s) r = Thrown err
        /\ response err = Some resp /\ status resp = st) ->
    exists doc,
      (handleWebhookEntry w req s).1 = Returned tt
      /\ length (posts (trace (handleWebhookEntry w req s).2))
         = (length (posts (trace s)) + 1)%nat
      /\ updates (trace (handleWebhookEntry w req s).2) = updates (trace s) ++ [doc]
      /\ responses (trace (handleWebhookEntry w req s).2)
         = responses (trace s) ++ [(202, accepted_json req)]
      /\ EventLog.event_id doc = req_internal_event_id req
      /\ EventLog.status doc = EventLog.processing
      /\ EventLog.response_status doc = EventLog.Present st
      /\ EventLog.error_code doc = EventLog.Present ("forward_failed_" +:+ Z_toString st)
      /\ EventLog.error_message doc
         = EventLog.Present ("micro-backend forward failed: status=" +:+ Z_toString st).
Proof.
  intros w req s st Hdb Hflag Hurl Hsecret Hrange Hnot429 Hrej.
  destruct (handler_records_loop_result w req s false st 1 Hdb Hflag Hurl Hsecret)
    as (doc & Hret & Hposts & Hupdates & Hresponses & Hid & _ & Hfail).
  { intros url payload headers s0 Hcalls.
    destruct (Hrej (mkRequest url payload headers)) as (err & resp & Herr & Hresp & Hst).
    destruct (forward_loop_decided w url payload headers MAX_MICRO_BACKEND_RETRIES 0 s0
                (mkResult false (status resp) (data resp)))
      as (s0' & Hrun & _ & Hp & _).
    - unfold MAX_MICRO_BACKEND_RETRIES. lia.
    - intros i Hi. lia.
    - rewrite Nat.add_0_r, Hcalls, Herr. unfold attempt_result. rewrite Hresp.
      cbn [option_map default].
      assert (Hterminal : non_retryable (Some (status resp)) = true).
      { unfold non_retryable.
        rewrite !andb_true_iff, !negb_true_iff, Z.leb_le, Z.ltb_lt, !Z.eqb_neq. lia. }
      rewrite Hterminal. reflexivity.
    - eexists. exists s0'. split; [exact Hrun |]. auto. }
  destruct (Hfail eq_refl) as (Hstatus & Hrs & Hcode & Hmsg).
  assert (Hnonzero : (st =? 0) = false) by (apply Z.eqb_neq; lia).
  rewrite Hnonzero in Hcode.
  exists doc. auto 10.
Qed.

Lemma terminal_rejection_is_recorded_with_its_status_witness :
  exists doc,
    updates
      (trace (handleWebhookEntry Samples.rejecting Samples.request
                                 (Samples.start 1767182400123)).2)
    = [doc]
    /\ EventLog.error_code doc = EventLog.Present "forward_failed_400"%string
    /\ EventLog.response_status doc = EventLog.Present 400.
Proof.
  destruct (terminal_rejection_is_recorded_with_its_status
              Samples.rejecting Samples.request (Samples.start 1767182400123) 400)
    as (doc & _ & _ & Hupdates & _ & _ & _ & Hrs & Hcode & _).
  - reflexivity.
  - reflexivity.
  - reflexivity.
  - reflexivity.
  - lia.
  - lia.
  - intros r. eexists. eexists. split; [reflexivity |]. split; reflexivity.
  - exists doc. split; [exact Hupdates |]. split; [exact Hcode | exact Hrs].
Defined.

(** ** What a run leaves of the collection *)

Ltac keeps_docs :=
  repeat (intros;
          first [ apply keeps_ret | apply keeps_throw | apply keeps_read
                | apply keeps_bind | apply keeps_try_catch | apply keeps_when
                | match goal with
                  | |- keeps _ (if ?b then _ else _) => destruct b
                  end
                | solve [intros ?s0; reflexivity]
                | assumption ]).

Section StoreKept.
Variable w : World.

Lemma keeps_docs_forward_attempt url payload headers maxRetries attempt :
  keeps webhook_events (forward_attempt w url payload headers maxRetries attempt).
Proof. unfold forward_attempt. keeps_docs. Qed.

Lemma keeps_docs_forward_loop url payload headers maxRetries remaining :
  forall attempt lastError,
    keeps webhook_events
          (forward_loop w url payload headers maxRetries remaining attempt lastError).
Proof.
  induction remaining as [| remaining IH]; intros attempt lastError; cbn [forward_loop].
  - keeps_docs.
  - apply keeps_bind; [apply keeps_docs_forward_attempt |].
    intros [result | err]; [apply keeps_ret | apply IH].
Qed.

Lemma keeps_docs_adapt payload internalEventId correlationId :
  keeps webhook_events (adapt payload internalEventId correlationId).
Proof.
  intros s. unfold adapt.
  destruct (adaptPayloadForMicroBackend _ _ _ _); reflexivity.
Qed.

Lemma keeps_docs_forwardToMicroBackend params :
  keeps webhook_events (forwardToMicroBackend w params).
Proof.
  unfold forwardToMicroBackend.
  destruct (negb (truthy_opt_string (MICRO_BACKEND_URL (env w)))); [keeps_docs |].
  destruct (negb (truthy_opt_string (MICRO_BACKEND_HMAC_SECRET (env w)))); [keeps_docs |].
  apply keeps_bind; [apply keeps_docs_adapt |]. intros adapted.
  apply keeps_bind; [unfold generateMicroBackendSignature; keeps_docs |].
  intros [signature timestamp].
  apply keeps_bind; [keeps_docs |]. intros _.
  apply keeps_bind; [apply keeps_docs_forward_loop |]. keeps_docs.
Qed.

Lemma keeps_docs_getDb : keeps webhook_events (getDb w).
Proof. intros s. destruct (getDb_run w s) as (evs & _ & _ & _ & _ & _ & H & _). exact H. Qed.

Lemma keeps_docs_createIndex : keeps webhook_events (createIndex w).
Proof.
  intros s. unfold createIndex, fault_or_unit. destruct (mongo_fault w _); reflexivity.
Qed.

Lemma keeps_docs_ensureCollection : keeps webhook_events (ensureCollection w).
Proof.
  unfold ensureCollection. apply keeps_try_catch; [| keeps_docs].
  repeat (apply keeps_bind; [apply keeps_docs_createIndex | intros _]).
  apply keeps_docs_createIndex.
Qed.

(** An upsert changes the document of its own [event_id] only. *)
Lemma keeps_others_log (id : string) (event : EventLog.t) :
  id <> EventLog.event_id event ->
  keeps (fun s => webhook_events s !! id) (log w event).
Proof.
  intros Hid s. unfold log, try_catch, updateOne_upsert.
  destruct (mongo_fault w (mongo_calls s)); [reflexivity |].
  cbn [fst snd webhook_events store count_mongo emit].
  apply lookup_insert_ne. congruence.
Qed.

Lemma keeps_others_logFailure id eventId errorCode errorMessage retryCount correlationId
    responseStatus :
  id <> eventId ->
  keeps (fun s => webhook_events s !! id)
        (logFailure w eventId errorCode errorMessage retryCount correlationId responseStatus).
Proof.
  intros Hid. unfold logFailure.
  apply keeps_bind; [keeps_docs |]. intros t.
  apply keeps_bind; [apply keeps_others_log; exact Hid | keeps_docs].
Qed.

Lemma keeps_others_logSuccess id eventId correlationId responseStatus :
  id <> eventId ->
  keeps (fun s => webhook_events s !! id)
        (logSuccess w eventId correlationId responseStatus).
Proof.
  intros Hid. unfold logSuccess.
  apply keeps_bind; [keeps_docs |]. intros t. apply keeps_others_log. exact Hid.
Qed.
End StoreKept.

Lemma keeps_lookup {A} (id : string) (m : M A) :
  keeps webhook_events m -> keeps (fun s => webhook_events s !! id) m.
Proof. intros H s. cbn beta. rewrite (H s). reflexivity. Qed.

(** In micro-backend mode a run of the handler, whatever its outcome,
    changes no document but the one of its own event: the document stored
    under any other id is afterwards what it was, and every record handed
    to the store carries the id of the request. *)
Theorem handler_touches_only_its_own_record :
  forall (w : World) (req : Request) (s : State) (id : string),
    FORWARD_TO_MICRO_BACKEND_ONLY (env w) = true ->
    id <> req_internal_event_id req ->
    webhook_events (handleWebhookEntry w req s).2 !! id = webhook_events s !! id
    /\ exists evs,
         trace (handleWebhookEntry w req s).2 = trace s ++ evs
         /\ forall doc, doc ∈ updates evs ->
              EventLog.event_id doc = req_internal_event_id req.
Proof.
  intros w req s id Hflag Hid. split.
  - revert s. change (keeps (fun s => webhook_events s !! id) (handleWebhookEntry w req)).
    unfold handleWebhookEntry, forwardToDestination. rewrite Hflag.
    apply keeps_try_catch.
    + apply keeps_bind; [apply keeps_lookup, keeps_docs_getDb |]. intros _.
      apply keeps_bind; [apply keeps_lookup, keeps_docs_ensureCollection |]. intros _.
      apply keeps_bind; [apply keeps_lookup, keeps_docs_forwardToMicroBackend |].
      intros result.
      apply keeps_bind; [| keeps_docs].
      destruct (negb (ok result)).
      * apply keeps_bind; [keeps_docs |]. intros _.
        apply keeps_others_logFailure. exact Hid.
      * apply keeps_others_logSuccess. exact Hid.
    + intros err.
      apply keeps_bind; [keeps_docs |]. intros _.
      apply keeps_bind; [| keeps_docs].
      apply keeps_try_catch; [| keeps_docs].
      apply keeps_bind; [apply keeps_lookup, keeps_docs_getDb |]. intros _.
      apply keeps_others_logFailure. exact Hid.
  - destruct (emits_handleWebhookEntry w
                (fun ev => match ev with
                           | EvUpdateOne doc =>
                               EventLog.event_id doc = req_internal_event_id req
                           | _ => True
                           end) req) with (s := s) as (evs & Htr & Hall & _).
    + intros ev Hev. destruct ev; try exact I. discriminate Hev.
    + intros doc (Hdoc & _). exact Hdoc.
    + exists evs. split; [exact Htr |].
      intros doc Hdoc. apply elem_of_updates in Hdoc.
      rewrite Forall_forall in Hall. exact (Hall _ Hdoc).
Qed.

Lemma handler_touches_only_its_own_record_witness :
  webhook_events
    (handleWebhookEntry Samples.flaky Samples.request (Samples.start 1767182400123)).2
    !! "evt_790"%string
  = None.
Proof.
  apply (handler_touches_only_its_own_record Samples.flaky Samples.request
           (Samples.start 1767182400123) "evt_790").
  - reflexivity.
  - discriminate.
Defined.

(** ** The [catch] path of the handler *)

Lemma getDb_unset (w : World) (s : State) :
  db_open s = false ->
  truthy_opt_string (MONGO_URI w) = false ->
  exists ws s',
    getDb w s = (Thrown (mkError "MONGO_URI is not set" None), s')
    /\ trace s' = trace s ++ ws
    /\ Forall (of_kinds [KLog]) ws
    /\ db_open s' = false
    /\ webhook_events s' = webhook_events s.
Proof.
  intros Hopen Huri.
  unfold getDb, bind, when, read, logger, effect, ret, throw.
  destruct (String.eqb (SERVICE_ROLE (env w)) "webhook-edge"); cbn [fst snd db_open emit];
    rewrite Hopen, Huri; cbn [negb];
    eexists; eexists; (split; [reflexivity |]); cbn [trace emit db_open webhook_events].
  - split; [reflexivity |]. split; [repeat constructor | auto].
  - split; [symmetry; apply app_nil_r |]. split; [constructor | auto].
Qed.

(** When [MONGO_URI] is not set and no handle is open, the handler answers
    500 and nothing else happens but log lines: no connection attempt, no
    forwarding, no record; the failure is reported on the log only, once as
    the handler's error and once as the failure to record it. *)
Theorem missing_MONGO_URI_answers_500_and_records_nothing :
  forall (w : World) (req : Request) (s : State),
    db_open s = false ->
    truthy_opt_string (MONGO_URI w) = false ->
    exists evs,
      (handleWebhookEntry w req s).1 = Returned tt
      /\ trace (handleWebhookEntry w req s).2
         = trace s ++ evs ++ [EvRespond 500 (internal_error_json req)]
      /\ Forall (of_kinds [KLog]) evs
      /\ EvLog Error "Webhook entry handler error: MONGO_URI is not set" ∈ evs
      /\ EvLog Warn "Failed to log webhook error: MONGO_URI is not set" ∈ evs
      /\ webhook_events (handleWebhookEntry w req s).2 = webhook_events s.
Proof.
  intros w req s Hopen Huri.
  destruct (getDb_unset w s Hopen Huri) as (ws1 & s1 & Hget1 & Htr1 & Hall1 & Hopen1 & Hdocs1).
  set (s1' := emit (EvLog Error "Webhook entry handler error: MONGO_URI is not set") s1).
  destruct (getDb_unset w s1' Hopen1 Huri)
    as (ws2 & s2 & Hget2 & Htr2 & Hall2 & Hopen2 & Hdocs2).
  assert (Hrun : handleWebhookEntry w req s
                 = (Returned tt,
                    emit (EvRespond 500 (internal_error_json req))
                      (emit (EvLog Warn "Failed to log webhook error: MONGO_URI is not set")
                            s2))).
  { rewrite handleWebhookEntry_halves.
    erewrite try_catch_thrown
      by (unfold handler_try; apply bind_thrown; exact Hget1).
    unfold handler_catch.
    erewrite bind_returned by (cbv [logger effect]; reflexivity).
    fold s1'.
    erewrite bind_returned
      by (erewrite try_catch_thrown by (apply bind_thrown; exact Hget2);
          cbv [logger effect]; reflexivity).
    reflexivity. }
  rewrite Hrun. cbn [fst snd trace emit webhook_events].
  exists (ws1 ++ [EvLog Error "Webhook entry handler error: MONGO_URI is not set"]
          ++ ws2 ++ [EvLog Warn "Failed to log webhook error: MONGO_URI is not set"]).
  split; [reflexivity |].
  split; [rewrite Htr2; unfold s1'; cbn [trace emit]; rewrite Htr1, <- !app_assoc;
          reflexivity |].
  split.
  { repeat (apply Forall_app; split); try assumption;
      (constructor; [reflexivity | constructor]). }
  split; [set_solver |]. split; [set_solver |].
  rewrite Hdocs2. unfold s1'. cbn [webhook_events emit]. exact Hdocs1.
Qed.

Lemma missing_MONGO_URI_answers_500_and_records_nothing_witness :
  responses
    (trace (handleWebhookEntry (Samples.scripted [] None) Samples.request
                               (Samples.start 1767182400123)).2)
  = [(500, internal_error_json Samples.request)].
Proof.
  destruct (missing_MONGO_URI_answers_500_and_records_nothing
              (Samples.scripted [] None) Samples.request (Samples.start 1767182400123))
    as (evs & _ & Htr & Hall & _).
  - reflexivity.
  - reflexivity.
  - rewrite Htr. cbn [Samples.start trace app]. rewrite responses_app.
    assert (Hnone : responses evs = []).
    { clear Htr. induction Hall as [| ev evs Hev _ IH]; [reflexivity |].
      destruct ev; try discriminate Hev; exact IH. }
    rewrite Hnone. reflexivity.
Defined.

(** What [logFailure] hands to the store. *)
Lemma logFailure_run (w : World) (eventId errorCode errorMessage : string) (retryCount : Z)
    (correlationId : option string) (responseStatus : option Z) (s : State) :
  exists evs s',
    logFailure w eventId errorCode errorMessage retryCount correlationId responseStatus s
    = (Returned tt, s')
    /\ trace s' = trace s ++ evs
    /\ updates evs
       = [ {| EventLog.event_id := eventId;
              EventLog.env := APP_ENV (env w);
              EventLog.service_role := SERVICE_ROLE (env w);
              EventLog.source := "webhook";
              EventLog.error_code := EventLog.Present errorCode;
              EventLog.error_message := EventLog.Present errorMessage;
              EventLog.last_error := EventLog.Present errorMessage;
              EventLog.retry_count := retryCount;
              EventLog.status :=
                if 5 <? retryCount then EventLog.failed else EventLog.processing;
              EventLog.response_status := EventLog.of_option responseStatus;
              EventLog.timestamp := now s;
              EventLog.correlation_id := EventLog.of_option correlationId;
              EventLog.raw_payload := EventLog.Absent |} ]
    /\ posts evs = []
    /\ responses evs = []
    /\ db_open s' = db_open s.
Proof.
  unfold logFailure, bind, Date_now, log, try_catch, updateOne_upsert, logger, effect.
  cbn [fst snd mongo_calls emit].
  destruct (mongo_fault w (mongo_calls s)); cbn [fst snd];
    eexists; eexists; (split; [reflexivity |]);
    (split; [cbn [trace emit count_mongo store]; rewrite <- ?app_assoc; reflexivity |]);
    repeat split; reflexivity.
Qed.

(** When the connection opens and [ensureIndexes] fails, the request is not
    forwarded and is answered 500; the handle is assigned all the same, so
    the [catch] block can record the failure: one record with error code
    [handler_error] and the message of the failure. *)
Theorem failed_ensureIndexes_is_answered_500_and_recorded :
  forall (w : World) (req : Request) (s : State) (msg : string),
    db_open s = false ->
    truthy_opt_string (MONGO_URI w) = true ->
    connect_fault w (connect_calls s) = None ->
    ensureIndexes_fault w (S (connect_calls s)) = Some msg ->
    exists doc,
      (handleWebhookEntry w req s).1 = Returned tt
      /\ posts (trace (handleWebhookEntry w req s).2) = posts (trace s)
      /\ updates (trace (handleWebhookEntry w req s).2) = updates (trace s) ++ [doc]
      /\ responses (trace (handleWebhookEntry w req s).2)
         = responses (trace s) ++ [(500, internal_error_json req)]
      /\ db_open (handleWebhookEntry w req s).2 = true
      /\ EventLog.event_id doc = req_internal_event_id req
      /\ EventLog.status doc = EventLog.processing
      /\ EventLog.error_code doc = EventLog.Present "handler_error"%string
      /\ EventLog.error_message doc
         = EventLog.Present (if String.eqb msg EmptyString then "Unknown error"%string
                             else msg)
      /\ EventLog.response_status doc = EventLog.Undefined.
Proof.
  intros w req s msg Hopen Huri Hconnect Hindexes.
  assert (Hget1 : exists s1,
             getDb w s = (Thrown (mkError msg None), s1)
             /\ db_open s1 = true
             /\ posts (trace s1) = posts (trace s)
             /\ updates (trace s1) = updates (trace s)
             /\ responses (trace s1) = responses (trace s)).
  { unfold getDb, bind, when, read, logger, effect, ret, throw, connect, ensureIndexes,
      fault_or_unit.
    destruct (String.eqb (SERVICE_ROLE (env w)) "webhook-edge"); cbn [fst snd db_open emit];
      rewrite ?Hopen, ?Huri; cbn [negb fst snd connect_calls emit count_connect];
      rewrite ?Hconnect; cbn [fst snd connect_calls emit count_connect open_db];
      rewrite ?Hindexes; eexists; (split; [reflexivity |]);
      cbn [db_open trace emit open_db count_connect];
      rewrite !posts_app, !updates_app, !responses_app; cbn [posts updates responses omap];
      rewrite ?app_nil_r; auto. }
  destruct Hget1 as (s1 & Hget1 & Hopen1 & Hp1 & Hu1 & Hr1).
  set (s1' := emit (EvLog Error ("Webhook entry handler error: " +:+ msg)) s1).
  destruct (getDb_run w s1') as (evs2 & Htr2 & Hall2 & Hnow2 & _ & _ & _ & Hcached).
  destruct (Hcached Hopen1) as [Hret2 _].
  destruct (getDb w s1') as [r2 s2] eqn:Hget2. cbn [fst snd] in *. subst r2.
  destruct (quiet_events evs2) as (Hp2 & Hu2 & Hr2).
  { eapply Forall_impl; [exact Hall2 |]. intros ev. apply kind_among_sub. reflexivity. }
  assert (Hopen2 : db_open s2 = true).
  { destruct (getDb_open_stays w s1' Hopen1) as [_ H]. rewrite Hget2 in H. exact H. }
  destruct (logFailure_run w (req_internal_event_id req) "handler_error"
              (if String.eqb msg EmptyString then "Unknown error"%string else msg)
              0 (req_correlationId req) None s2)
    as (evs3 & s3 & Hlog & Htr3 & Hu3 & Hp3 & Hr3 & Hopen3).
  assert (Hrun : handleWebhookEntry w req s
                 = (Returned tt, emit (EvRespond 500 (internal_error_json req)) s3)).
  { rewrite handleWebhookEntry_halves.
    erewrite try_catch_thrown
      by (unfold handler_try; apply bind_thrown; exact Hget1).
    unfold handler_catch. cbn [message].
    erewrite bind_returned by (cbv [logger effect]; reflexivity).
    fold s1'.
    erewrite bind_returned
      by (erewrite try_catch_returned
            by (erewrite bind_returned by exact Hget2; exact Hlog);
          reflexivity).
    reflexivity. }
  rewrite Hrun. cbn [fst snd trace emit db_open].
  eexists. split; [reflexivity |].
  rewrite !posts_app, !updates_app, !responses_app, Htr3,
    !posts_app, !updates_app, !responses_app, Hp3, Hu3, Hr3, Htr2,
    !posts_app, !updates_app, !responses_app, Hp2, Hu2, Hr2.
  unfold s1'. cbn [trace emit].
  rewrite !posts_app, !updates_app, !responses_app, Hp1, Hu1, Hr1.
  cbn [posts updates responses omap app]. rewrite !app_nil_r.
  split; [reflexivity |]. split; [reflexivity |]. split; [reflexivity |].
  split; [congruence |]. repeat split; reflexivity.
Qed.

Lemma failed_ensureIndexes_is_answered_500_and_recorded_witness :
  exists doc,
    updates
      (trace (handleWebhookEntry
                (Samples.failing_indexes "not authorized"
                   (Samples.scripted [] (Some "mongodb://localhost:27017"%string)))
                Samples.request (Samples.start 1767182400123)).2)
    = [doc]
    /\ EventLog.error_code doc = EventLog.Present "handler_error"%string
    /\ EventLog.error_message doc = EventLog.Present "not authorized"%string.
Proof.
  destruct (failed_ensureIndexes_is_answered_500_and_recorded
              (Samples.failing_indexes "not authorized"
                 (Samples.scripted [] (Some "mongodb://localhost:27017"%string)))
              Samples.request (Samples.start 1767182400123) "not authorized")
    as (doc & _ & _ & Hupdates & _ & _ & _ & _ & Hcode & Hmsg & _).
  - reflexivity.
  - reflexivity.
  - reflexivity.
  - reflexivity.
  - exists doc. split; [exact Hupdates |]. split; [exact Hcode | exact Hmsg].
Defined.

(** ** From the record to the replay *)

(** A failure recorded for replay can be replayed: after [logFailure] has
    stored its record, the replay route of the same process answers 200 for
    that event id, never 403 or 404, and reports the status, retry count,
    error message, correlation id and time of that record, whatever was
    stored for the event before. *)
Theorem recorded_failure_can_be_replayed :
  forall (w : World) (trim : string -> string) (event_id_param : option string)
         (eventId errorCode errorMessage : string) (retryCount : Z)
         (correlationId replayCorrelationId : option string) (responseStatus : option Z)
         (s : State),
    db_open s = true ->
    trim (default EmptyString event_id_param) = eventId ->
    eventId <> EmptyString ->
    mongo_fault w (mongo_calls s) = None ->
    mongo_fault w (S (mongo_calls s)) = None ->
    exists doc,
      responses
        (trace (bind (logFailure w eventId errorCode errorMessage retryCount correlationId
                                 responseStatus)
                     (fun _ => replayRoute w trim event_id_param replayCorrelationId) s).2)
      = responses (trace s) ++ [(200, replay_details doc)]
      /\ EventLog.event_id doc = eventId
      /\ EventLog.env doc = APP_ENV (env w)
      /\ EventLog.status doc
         = (if 5 <? retryCount then EventLog.failed else EventLog.processing)
      /\ EventLog.retry_count doc = retryCount
      /\ EventLog.last_error doc = EventLog.Present errorMessage
      /\ EventLog.correlation_id doc = EventLog.of_option correlationId
      /\ EventLog.timestamp doc = now s.
Proof.
  intros w trim event_id_param eventId errorCode errorMessage retryCount correlationId
         replayCorrelationId responseStatus s Hopen Htrim Hid Hwrite Hread.
  assert (Hlog : exists doc s1,
             logFailure w eventId errorCode errorMessage retryCount correlationId
                        responseStatus s = (Returned tt, s1)
             /\ webhook_events s1 !! eventId = Some doc
             /\ db_open s1 = true
             /\ mongo_calls s1 = S (mongo_calls s)
             /\ responses (trace s1) = responses (trace s)
             /\ EventLog.event_id doc = eventId
             /\ EventLog.env doc = APP_ENV (env w)
             /\ EventLog.status doc
                = (if 5 <? retryCount then EventLog.failed else EventLog.processing)
             /\ EventLog.retry_count doc = retryCount
             /\ EventLog.last_error doc = EventLog.Present errorMessage
             /\ EventLog.correlation_id doc = EventLog.of_option correlationId
             /\ EventLog.timestamp doc = now s).
  { unfold logFailure, bind, Date_now, log, try_catch, updateOne_upsert, logger, effect.
    cbn [fst snd mongo_calls store count_mongo emit webhook_events EventLog.event_id].
    rewrite Hwrite.
    cbn [fst snd mongo_calls store count_mongo emit webhook_events EventLog.event_id].
    eexists. eexists. split; [reflexivity |].
    cbn [webhook_events db_open mongo_calls trace store count_mongo emit].
    rewrite lookup_insert_eq. split; [reflexivity |].
    split; [exact Hopen |]. split; [reflexivity |].
    split; [rewrite !responses_app; cbn [responses omap]; rewrite !app_nil_r; reflexivity |].
    destruct (webhook_events s !! eventId) as [stored |];
      cbn [EventLog.event_id EventLog.env EventLog.status EventLog.retry_count
           EventLog.last_error EventLog.correlation_id EventLog.timestamp
           EventLog.set EventLog.set_field];
      repeat split; try reflexivity; destruct correlationId; reflexivity. }
  destruct Hlog as (doc & s1 & Hlog & Hdoc & Hopen1 & Hcalls1 & Hr1 & Hfields).
  exists doc. split; [| exact Hfields].
  rewrite (bind_returned _ _ _ _ _ Hlog).
  destruct (replayRoute_run w trim event_id_param replayCorrelationId s1)
    as (evs & _ & Hall & _ & Htr).
  rewrite Htr, Htrim, Hcalls1, Hread, Hdoc.
  destruct (String.eqb_spec eventId EmptyString) as [Heq | _]; [contradiction |].
  destruct (getDb_open_stays w s1 Hopen1) as [-> _].
  destruct Hfields as (_ & -> & _). rewrite String.eqb_refl.
  assert (Hnone : responses evs = []).
  { clear Htr. induction Hall as [| ev evs Hev _ IH]; [reflexivity |].
    destruct ev; try discriminate Hev; exact IH. }
  rewrite !responses_app, Hnone, Hr1. reflexivity.
Qed.

Lemma recorded_failure_can_be_replayed_witness :
  exists doc,
    responses
      (trace (bind (logFailure Samples.flaky "evt_789" "forward_failed_400"
                               "micro-backend forward failed: status=400" 0
                               (Some "corr_123"%string) (Some 400))
                   (fun _ => replayRoute Samples.flaky (fun x => x) (Some "evt_789"%string) None)
                   (mkState 1767182400123 0 0 1 0 true ∅ [])).2)
    = [(200, replay_details doc)]
    /\ EventLog.status doc = EventLog.processing.
Proof.
  destruct (recorded_failure_can_be_replayed Samples.flaky (fun x => x)
              (Some "evt_789"%string) "evt_789" "forward_failed_400"
              "micro-backend forward failed: status=400" 0 (Some "corr_123"%string) None
              (Some 400) (mkState 1767182400123 0 0 1 0 true ∅ []))
    as (doc & Hresponses & _ & _ & Hstatus & _).
  - reflexivity.
  - reflexivity.
  - discriminate.
  - reflexivity.
  - reflexivity.
  - exists doc. split; [exact Hresponses | exact Hstatus].
Defined.

(** ** Requests without a payload *)

(** A request whose normalized payload is missing or falsy ([undefined],
    [null], [false], [0], the empty string) is forwarded all the same: in
    micro-backend mode with the URL and the secret configured, the run makes
    at least one call of [http.post], and every call sends the same
    envelope, whose [payload] is the empty object, whose [event_type] is
    ['webhook_received'] and whose [external_id] is the internal event
    id. *)
Theorem missing_payload_is_forwarded_as_empty_object :
  forall (w : World) (req : Request) (s : State),
    (getDb w s).1 = Returned tt ->
    FORWARD_TO_MICRO_BACKEND_ONLY (env w) = true ->
    truthy_opt_string (MICRO_BACKEND_URL (env w)) = true ->
    truthy_opt_string (MICRO_BACKEND_HMAC_SECRET (env w)) = true ->
    truthy (req_normalizedPayload req) = false ->
    exists (n : nat) (r : HttpRequest),
      (1 <= n <= MAX_MICRO_BACKEND_RETRIES)%nat
      /\ posts (trace (handleWebhookEntry w req s).2) = posts (trace s) ++ replicate n r
      /\ payload (body_sent r) = JObj []
      /\ event_type (body_sent r) = JStr "webhook_received"
      /\ external_id (body_sent r) = JStr (req_internal_event_id req)
      /\ internal_event_id (body_sent r) = req_internal_event_id req
      /\ correlation_id (body_sent r) = of_opt_string (req_correlationId req).
Proof.
  intros w req s Hdb Hflag Hurl Hsecret Hfalsy.
  destruct (handler_micro_run w req s Hdb Hflag)
    as (s2 & result & s3 & doc & _ & Hp2 & _ & _ & Hfwd & _ & Hposts & _).
  destruct (forward_params_readable req) as [Hnull Hundef].
  destruct (forwardToMicroBackend_signed_run w (forward_params req) s2)
    as (pre & sends & adapted & n & Htr & Hpre & _ & _ & Hsends & Hn & Hsigned & Hconfigured).
  pose proof (Hconfigured Hurl Hsecret Hnull Hundef) as Hsome.
  destruct (Hsigned Hsome) as (Hadapt & _).
  rewrite Hfwd in Htr. cbn [snd] in Htr.
  exists n, (outbound_request w (forward_params req) (now s2) adapted).
  split; [lia |].
  split.
  { rewrite Hposts, Htr, !posts_app, (posts_silent pre Hpre), Hsends, Hp2. reflexivity. }
  unfold forward_params, js_or in Hadapt. rewrite Hfalsy in Hadapt.
  cbn in Hadapt. injection Hadapt as <-.
  cbn. auto.
Qed.

Lemma missing_payload_is_forwarded_as_empty_object_witness :
  exists (n : nat) (r : HttpRequest),
    (1 <= n)%nat
    /\ posts (trace (handleWebhookEntry Samples.flaky (mkReq "evt_789" None JNull)
                                        (Samples.start 1767182400123)).2)
       = replicate n r
    /\ payload (body_sent r) = JObj []
    /\ event_type (body_sent r) = JStr "webhook_received".
Proof.
  destruct (missing_payload_is_forwarded_as_empty_object Samples.flaky
              (mkReq "evt_789" None JNull) (Samples.start 1767182400123))
    as (n & r & Hn & Hposts & Hpayload & Htype & _).
  - reflexivity.
  - reflexivity.
  - reflexivity.
  - reflexivity.
  - reflexivity.
  - exists n, r. split; [lia |]. split; [exact Hposts |].
    split; [exact Hpayload | exact Htype].
Defined.
